(** * DM-i-AI-2024: the inpainting U-Net and the cell-classification service

    A shallow embedding of
      - [CT_Inpainting/src/models/model.py]   (class [UNet]),
      - [Cell_Classification/src/utils.py]    ([calculate_custom_score],
        [get_model], [load_model], [save_image_as_tif]),
      - [Cell_Classification/api.py]          ([predict_endpoint]),
    and the properties of the specification that are decided by that code.

    Tensors are followed at the level the wiring of the network decides:
    their shape and, along the channel axis, the provenance of every
    channel.  Floating-point values are not modelled. *)

From Stdlib Require Import ZArith NArith List String Bool Lia.
From stdpp Require Import base strings pretty gmap.
Import ListNotations.

Local Open Scope string_scope.
Local Open Scope list_scope.

(** ** Results of fallible calls

    A Python call either returns a value or raises; [E] is the type of what
    is raised. *)

Inductive result (E A : Type) : Type :=
| Ok (a : A)
| Raise (e : E).
Arguments Ok {E A} a.
Arguments Raise {E A} e.

Definition bind {E A B} (m : result E A) (k : A -> result E B) : result E B :=
  match m with
  | Ok a => k a
  | Raise e => Raise e
  end.

Notation "'let*' x ':=' m 'in' k" := (bind m (fun x => k))
  (at level 10, x name, m at level 100, k at level 200).

(** ** The tensor operators used by [model.py]

    [model.py] wires operators of PyTorch.  Each is modelled by what it does
    to the shape and to the channels of its input, and by the checks under
    which it raises instead of returning. *)

Module Torch.

(** A channel of a feature map, named by where it comes from: the [i]-th
    channel of the network input, or the [o]-th output channel of the
    convolution registered under [layer].  Channel-wise operators ([ReLU],
    [BatchNorm2d], [MaxPool2d]) keep the channel they act on. *)
Inductive chan : Type :=
| Input (i : nat)
| Feature (layer : string) (o : nat).

(** A 4D tensor, batch x channels x height x width. *)
Record Tensor : Type := mkTensor {
  batch : N;
  chans : list chan;
  height : N;
  width : N
}.

Definition channels (t : Tensor) : nat := length (chans t).

(** What an operator raises, with the message PyTorch gives. *)
Inductive error_kind : Type :=
| ChannelMismatch (expected got : nat)
    (* "expected input ... to have <expected> channels, but got <got>" *)
| KernelTooLarge
    (* "Kernel size can't be greater than actual input size" *)
| PoolEmptyInput
    (* max_pool2d: a non-batch dimension of the input is 0 *)
| PoolOutputTooSmall
    (* max_pool2d: "Output size is too small" *)
| BatchNormOneValue
    (* "Expected more than 1 value per channel when training" *)
| BatchNormFeatures (expected got : nat)
    (* "running_mean should contain <got> elements not <expected>" *)
| CatSizeMismatch
    (* "Sizes of tensors must match except in dimension 1" *)
| WeightTooSmall
    (* "expected weight to be at least 1 at dimension 0": a convolution
       declared with no output channel *).

(** The layers [UNet.__init__] instantiates.  [name] is the attribute path
    under which the layer's weight is registered ("enc_conv0.3"); it only
    labels the channels the layer produces. *)
Inductive Layer : Type :=
| Conv2d (name : string) (in_channels out_channels : nat) (kernel_size padding : N)
| ReLU
| BatchNorm2d (num_features : nat)
| MaxPool2d (kernel_size : N)
| ConvTranspose2d (name : string) (in_channels out_channels : nat) (kernel_size stride : N).

Definition features (name : string) (n : nat) : list chan :=
  map (Feature name) (seq 0 n).

(** Output extent of a stride-1 convolution: h + 2p - k + 1. *)
Definition conv_out (h k p : N) : N :=
  Z.to_N (Z.of_N h + 2 * Z.of_N p - Z.of_N k + 1).

(** Output extent of a pooling window with stride = kernel size and no
    padding: floor((h - k) / k) + 1, the division rounding down also for a
    negative numerator. *)
Definition pool_out (h k : N) : N :=
  Z.to_N ((Z.of_N h - Z.of_N k) / Z.of_N k + 1).

(** Output extent of a transposed convolution without padding:
    (h - 1) * stride + k. *)
Definition conv_transpose_out (h k s : N) : N :=
  Z.to_N ((Z.of_N h - 1) * Z.of_N s + Z.of_N k).

(** A tensor without elements. *)
Definition is_empty (t : Tensor) : bool :=
  (channels t =? 0)%nat || (batch t * height t * width t =? 0)%N.

(** [layer(t)].  [training] is the mode flag of the owning module
    ([nn.Module.training]), read by [BatchNorm2d] only.

    A convolution checks its weight before its input: one declared with no
    output channel raises on every call.  One declared with no input
    channel accepts a tensor without channels and hands back a tensor
    without channels.  Batch normalisation hands an empty tensor back
    before it compares the channel count with [num_features]. *)
Definition apply_layer (training : bool) (l : Layer) (t : Tensor)
  : result error_kind Tensor :=
  match l with
  | Conv2d name cin cout k p =>
      if (cout =? 0)%nat then Raise WeightTooSmall
      else if negb (channels t =? cin)%nat then Raise (ChannelMismatch cin (channels t))
      else if ((height t + 2 * p <? k) || (width t + 2 * p <? k))%N then Raise KernelTooLarge
      else Ok (mkTensor (batch t)
                        (if (cin =? 0)%nat then [] else features name cout)
                        (conv_out (height t) k p) (conv_out (width t) k p))
  | ReLU => Ok t
  | BatchNorm2d n =>
      if training && (batch t * height t * width t =? 1)%N then Raise BatchNormOneValue
      else if is_empty t then Ok t
      else if negb (channels t =? n)%nat then Raise (BatchNormFeatures n (channels t))
      else Ok t
  | MaxPool2d k =>
      if (channels t =? 0)%nat || (height t =? 0)%N || (width t =? 0)%N
      then Raise PoolEmptyInput
      else if ((pool_out (height t) k =? 0) || (pool_out (width t) k =? 0))%N
      then Raise PoolOutputTooSmall
      else Ok (mkTensor (batch t) (chans t)
                        (pool_out (height t) k) (pool_out (width t) k))
  | ConvTranspose2d name cin cout k s =>
      if negb (channels t =? cin)%nat then Raise (ChannelMismatch cin (channels t))
      else Ok (mkTensor (batch t) (features name cout)
                        (conv_transpose_out (height t) k s)
                        (conv_transpose_out (width t) k s))
  end.

(** [nn.Sequential]: the layers in order, stopping at the first that raises. *)
Fixpoint sequential (training : bool) (ls : list Layer) (t : Tensor)
  : result error_kind Tensor :=
  match ls with
  | [] => Ok t
  | l :: ls' => let* t' := apply_layer training l t in sequential training ls' t'
  end.

(** [torch.cat((a, b), dim=1)]: every dimension but the channel one must
    agree; the channels of [a] come first, then those of [b]. *)
Definition cat (a b : Tensor) : result error_kind Tensor :=
  if ((batch a =? batch b) && (height a =? height b) && (width a =? width b))%N
  then Ok (mkTensor (batch a) (chans a ++ chans b) (height a) (width a))
  else Raise CatSizeMismatch.

(** Batch normalisation accepts a tensor unless the module is training and
    there is a single value per channel. *)
Definition bn_accepts (tr : bool) (b h w : N) : Prop :=
  tr = false \/ (b * h * w)%N <> 1%N.

End Torch.

(** ** [model.py]: the U-Net *)

Module UNetModel.
Import Torch.

(** [UNet.conv_block]: the [nn.Sequential] of two
    convolution / ReLU / batch-normalisation stages.  [name] is the
    attribute the block is assigned to in [__init__]. *)
Definition conv_block (name : string) (in_channels out_channels : nat) : list Layer :=
  [ Conv2d (name +:+ ".0") in_channels out_channels 3 1;
    ReLU;
    BatchNorm2d out_channels;
    Conv2d (name +:+ ".3") out_channels out_channels 3 1;
    ReLU;
    BatchNorm2d out_channels ].

(** The attributes of a [UNet] instance.  [training] is the flag every
    [nn.Module] carries; it is [True] after construction and cleared by
    [eval()]. *)
Record UNet : Type := mkUNet {
  training : bool;
  enc_conv0 : list Layer;  pool0 : Layer;
  enc_conv1 : list Layer;  pool1 : Layer;
  enc_conv2 : list Layer;  pool2 : Layer;
  enc_conv3 : list Layer;  pool3 : Layer;
  enc_conv4 : list Layer;
  upconv3 : Layer;  dec_conv3 : list Layer;
  upconv2 : Layer;  dec_conv2 : list Layer;
  upconv1 : Layer;  dec_conv1 : list Layer;
  upconv0 : Layer;  dec_conv0 : list Layer;
  final_conv : Layer
}.

(** [UNet.__init__(in_channels=4, out_channels=1)]. *)
Definition init (in_channels out_channels : nat) : UNet :=
  {| training := true;
     enc_conv0 := conv_block "enc_conv0" in_channels 64;
     pool0 := MaxPool2d 2;
     enc_conv1 := conv_block "enc_conv1" 64 128;
     pool1 := MaxPool2d 2;
     enc_conv2 := conv_block "enc_conv2" 128 256;
     pool2 := MaxPool2d 2;
     enc_conv3 := conv_block "enc_conv3" 256 512;
     pool3 := MaxPool2d 2;
     enc_conv4 := conv_block "enc_conv4" 512 1024;
     upconv3 := ConvTranspose2d "upconv3" 1024 512 2 2;
     dec_conv3 := conv_block "dec_conv3" 1024 512;
     upconv2 := ConvTranspose2d "upconv2" 512 256 2 2;
     dec_conv2 := conv_block "dec_conv2" 512 256;
     upconv1 := ConvTranspose2d "upconv1" 256 128 2 2;
     dec_conv1 := conv_block "dec_conv1" 256 128;
     upconv0 := ConvTranspose2d "upconv0" 128 64 2 2;
     dec_conv0 := conv_block "dec_conv0" 128 64;
     final_conv := Conv2d "final_conv" 64 out_channels 1 0 |}.

(** [nn.Module.train(mode)]; [eval()] is [train(False)]. *)
Definition train (mode : bool) (u : UNet) : UNet :=
  {| training := mode;
     enc_conv0 := enc_conv0 u;  pool0 := pool0 u;
     enc_conv1 := enc_conv1 u;  pool1 := pool1 u;
     enc_conv2 := enc_conv2 u;  pool2 := pool2 u;
     enc_conv3 := enc_conv3 u;  pool3 := pool3 u;
     enc_conv4 := enc_conv4 u;
     upconv3 := upconv3 u;  dec_conv3 := dec_conv3 u;
     upconv2 := upconv2 u;  dec_conv2 := dec_conv2 u;
     upconv1 := upconv1 u;  dec_conv1 := dec_conv1 u;
     upconv0 := upconv0 u;  dec_conv0 := dec_conv0 u;
     final_conv := final_conv u |}.

Definition eval (u : UNet) : UNet := train false u.

(** Where in [forward] an operator raised: in the call of the attribute
    [Attr name], or in the [torch.cat] of decoder depth [Cat d]. *)
Inductive site : Type :=
| Attr (name : string)
| Cat (depth : nat).

Definition error : Type := site * error_kind.

Definition at_site {A} (s : site) (r : result error_kind A) : result error A :=
  match r with
  | Ok a => Ok a
  | Raise e => Raise (s, e)
  end.

(** The local variables of [forward] once it has run to its [return].
    The source rebinds [dec3] (and [dec2], [dec1], [dec0]) three times;
    the three values are [up3], [cat3] and [dec3] here. *)
Record Locals : Type := mkLocals {
  enc0 : Tensor;  enc0_pool : Tensor;
  enc1 : Tensor;  enc1_pool : Tensor;
  enc2 : Tensor;  enc2_pool : Tensor;
  enc3 : Tensor;  enc3_pool : Tensor;
  bottleneck : Tensor;
  up3 : Tensor;  cat3 : Tensor;  dec3 : Tensor;
  up2 : Tensor;  cat2 : Tensor;  dec2 : Tensor;
  up1 : Tensor;  cat1 : Tensor;  dec1 : Tensor;
  up0 : Tensor;  cat0 : Tensor;  dec0 : Tensor;
  out : Tensor
}.

(** [UNet.forward], statement by statement. *)
Definition forward_locals (u : UNet) (x : Tensor) : result error Locals :=
  let tr := training u in
  (* Encoder *)
  let* enc0 := at_site (Attr "enc_conv0") (sequential tr (enc_conv0 u) x) in
  let* enc0_pool := at_site (Attr "pool0") (apply_layer tr (pool0 u) enc0) in
  let* enc1 := at_site (Attr "enc_conv1") (sequential tr (enc_conv1 u) enc0_pool) in
  let* enc1_pool := at_site (Attr "pool1") (apply_layer tr (pool1 u) enc1) in
  let* enc2 := at_site (Attr "enc_conv2") (sequential tr (enc_conv2 u) enc1_pool) in
  let* enc2_pool := at_site (Attr "pool2") (apply_layer tr (pool2 u) enc2) in
  let* enc3 := at_site (Attr "enc_conv3") (sequential tr (enc_conv3 u) enc2_pool) in
  let* enc3_pool := at_site (Attr "pool3") (apply_layer tr (pool3 u) enc3) in
  let* bottleneck := at_site (Attr "enc_conv4") (sequential tr (enc_conv4 u) enc3_pool) in
  (* Decoder *)
  let* up3 := at_site (Attr "upconv3") (apply_layer tr (upconv3 u) bottleneck) in
  let* cat3 := at_site (Cat 3) (cat up3 enc3) in
  let* dec3 := at_site (Attr "dec_conv3") (sequential tr (dec_conv3 u) cat3) in
  let* up2 := at_site (Attr "upconv2") (apply_layer tr (upconv2 u) dec3) in
  let* cat2 := at_site (Cat 2) (cat up2 enc2) in
  let* dec2 := at_site (Attr "dec_conv2") (sequential tr (dec_conv2 u) cat2) in
  let* up1 := at_site (Attr "upconv1") (apply_layer tr (upconv1 u) dec2) in
  let* cat1 := at_site (Cat 1) (cat up1 enc1) in
  let* dec1 := at_site (Attr "dec_conv1") (sequential tr (dec_conv1 u) cat1) in
  let* up0 := at_site (Attr "upconv0") (apply_layer tr (upconv0 u) dec1) in
  let* cat0 := at_site (Cat 0) (cat up0 enc0) in
  let* dec0 := at_site (Attr "dec_conv0") (sequential tr (dec_conv0 u) cat0) in
  let* out := at_site (Attr "final_conv") (apply_layer tr (final_conv u) dec0) in
  Ok (mkLocals enc0 enc0_pool enc1 enc1_pool enc2 enc2_pool enc3 enc3_pool
               bottleneck up3 cat3 dec3 up2 cat2 dec2 up1 cat1 dec1
               up0 cat0 dec0 out).

Definition forward (u : UNet) (x : Tensor) : result error Tensor :=
  let* l := forward_locals u x in Ok (out l).

(** An input tensor of the given shape: its channels are the input's own. *)
Definition input (b : N) (c : nat) (h w : N) : Tensor :=
  mkTensor b (map Input (seq 0 c)) h w.

(** The shape of a tensor, as [Tensor.shape] reports it. *)
Definition shape (t : Tensor) : N * nat * N * N :=
  (batch t, channels t, height t, width t).

(** The declared widths of the layers, read off their constructor
    arguments ([in_channels] / [out_channels] of the first and of the last
    convolution of a block). *)
Definition layer_in (l : Layer) : option nat :=
  match l with
  | Conv2d _ cin _ _ _ | ConvTranspose2d _ cin _ _ _ => Some cin
  | _ => None
  end.

Definition layer_out (l : Layer) : option nat :=
  match l with
  | Conv2d _ _ cout _ _ | ConvTranspose2d _ _ cout _ _ => Some cout
  | _ => None
  end.

Fixpoint block_in (ls : list Layer) : option nat :=
  match ls with
  | [] => None
  | l :: ls' => match layer_in l with Some c => Some c | None => block_in ls' end
  end.

Fixpoint block_out (ls : list Layer) : option nat :=
  match ls with
  | [] => None
  | l :: ls' => match block_out ls' with Some c => Some c | None => layer_out l end
  end.

(** The widths that meet at one decoder depth: what the upsampling layer
    produces, what the encoder block of that depth produces, and what the
    fusing block declares as its input. *)
Definition concat_fits (up : Layer) (skip fuse : list Layer)
           (c_up c_skip c_in : nat) : Prop :=
  layer_out up = Some c_up /\ block_out skip = Some c_skip /\
  block_in fuse = Some c_in /\ c_up + c_skip = c_in.

(** Vocabulary for the shape properties.  [halve d h] is the extent of the
    encoder feature map of depth [d] for an input of extent [h]: [d]
    poolings, each halving and rounding down. *)
Fixpoint halve (d : nat) (h : N) : N :=
  match d with
  | O => h
  | S d' => (halve d' h / 2)%N
  end.

(** The feature map of depth [d] has even height and even width. *)
Definition even_at (d : nat) (h w : N) : bool :=
  ((halve d h mod 2 =? 0) && (halve d w mod 2 =? 0))%N.

(** The deepest of the four depths at which the feature map has an odd
    extent, if there is one. *)
Definition mismatch_depth (h w : N) : option nat :=
  if negb (even_at 3 h w) then Some 3
  else if negb (even_at 2 h w) then Some 2
  else if negb (even_at 1 h w) then Some 1
  else if negb (even_at 0 h w) then Some 0
  else None.

(** Batch normalisation in a module with mode flag [tr] accepts every
    feature map of a run on a [b] x _ x [h] x [w] input: the module is not
    training, or the bottleneck does not hold exactly one value per
    channel. *)
Definition bn_passes (tr : bool) (b h w : N) : Prop :=
  tr = false \/ (b * (h / 16) * (w / 16))%N <> 1%N.

End UNetModel.


(** ** Python exceptions *)

Record exn : Type := mkExn { exn_class : string; exn_msg : string }.

Definition ValueError (msg : string) : exn := mkExn "ValueError" msg.
Definition TypeError (msg : string) : exn := mkExn "TypeError" msg.
Definition AttributeError (msg : string) : exn := mkExn "AttributeError" msg.
Definition IndexError (msg : string) : exn := mkExn "IndexError" msg.
Definition OSError (msg : string) : exn := mkExn "OSError" msg.
Definition SystemError (msg : string) : exn := mkExn "SystemError" msg.

(** ** [utils.py]: [get_model] *)

Module Registry.

(** An [nn.Parameter], as far as freezing is concerned. *)
Record Param : Type := mkParam {
  shape : list nat;
  requires_grad : bool
}.

(** An [nn.Module]: its class, its plain integer attributes
    ([in_features], ...), its own parameters and its sub-modules, the last
    two in registration order.  [nn.Sequential] registers its elements
    under the names "0", "1", ... *)
#[local] Set Warnings "-register-all".
Inductive Module : Type :=
| Mod (cls : string) (attrs : list (string * nat))
      (params : list (string * Param))
      (children : list (string * Module)).

Definition cls_of (m : Module) : string := let 'Mod c _ _ _ := m in c.
Definition attrs_of (m : Module) := let 'Mod _ a _ _ := m in a.
Definition params_of (m : Module) := let 'Mod _ _ p _ := m in p.
Definition children_of (m : Module) := let 'Mod _ _ _ c := m in c.

Fixpoint assoc {A} (k : string) (l : list (string * A)) : option A :=
  match l with
  | [] => None
  | (k', v) :: l' => if String.eqb k k' then Some v else assoc k l'
  end.

(** Assignment to a key: in place when the key is there, appended when not. *)
Fixpoint assoc_set {A} (k : string) (v : A) (l : list (string * A)) : list (string * A) :=
  match l with
  | [] => [(k, v)]
  | (k', v') :: l' =>
      if String.eqb k k' then (k, v) :: l' else (k', v') :: assoc_set k v l'
  end.

Definition no_attribute (m : Module) (name : string) : exn :=
  AttributeError ("'" +:+ cls_of m +:+ "' object has no attribute '" +:+ name +:+ "'").

(** [nn.Linear(in_features, out_features)]: a fresh layer, its weight and
    bias trainable. *)
Definition Linear (in_features out_features : nat) : Module :=
  Mod "Linear"
      [("in_features", in_features); ("out_features", out_features)]
      [("weight", mkParam [out_features; in_features] true);
       ("bias", mkParam [out_features] true)]
      [].

(** A module without parameters ([Dropout], [Hardswish], ...). *)
Definition Stateless (cls : string) : Module := Mod cls [] [] [].

(** [nn.Sequential(m0, m1, ...)]. *)
Definition Sequential (ms : list Module) : Module :=
  Mod "Sequential" [] []
      (combine (map (fun i => pretty i) (seq 0 (length ms))) ms).

(** [hasattr(m, name)], for the names a module defines itself. *)
Definition hasattr (m : Module) (name : string) : bool :=
  match assoc name (children_of m), assoc name (params_of m), assoc name (attrs_of m) with
  | None, None, None => false
  | _, _, _ => true
  end.

(** [m.name], for a sub-module. *)
Definition getattr (m : Module) (name : string) : result exn Module :=
  match assoc name (children_of m) with
  | Some c => Ok c
  | None => Raise (no_attribute m name)
  end.

(** [m.in_features]. *)
Definition in_features_of (m : Module) : result exn nat :=
  match assoc "in_features" (attrs_of m) with
  | Some n => Ok n
  | None => Raise (no_attribute m "in_features")
  end.

(** [m.name = v], for a sub-module [v]. *)
Definition setattr (m : Module) (name : string) (v : Module) : Module :=
  let 'Mod c a p cs := m in Mod c a p (assoc_set name v cs).

(** [m[i]] and [m[i] = v] on an [nn.Sequential]. *)
Definition getitem (m : Module) (i : nat) : result exn Module :=
  match nth_error (children_of m) i with
  | Some (_, c) => Ok c
  | None => Raise (IndexError ("index " +:+ pretty i +:+ " is out of range"))
  end.

Definition setitem (m : Module) (i : nat) (v : Module) : result exn Module :=
  match nth_error (children_of m) i with
  | Some (k, _) => Ok (setattr m k v)
  | None => Raise (IndexError ("index " +:+ pretty i +:+ " is out of range"))
  end.

(** [for param in m.parameters(): param.requires_grad = b]. *)
Fixpoint set_requires_grad (b : bool) (m : Module) : Module :=
  let 'Mod c a ps cs := m in
  Mod c a
      (map (fun np => (fst np, mkParam (shape (snd np)) b)) ps)
      (map (fun nc => (fst nc, set_requires_grad b (snd nc))) cs).

(** [m.named_parameters()], the dotted name kept as its list of segments:
    own parameters first, then those of the sub-modules in order. *)
Fixpoint named_parameters (m : Module) : list (list string * Param) :=
  let 'Mod _ _ ps cs := m in
  map (fun np => ([fst np], snd np)) ps
  ++ flat_map (fun nc =>
                 map (fun qp => (fst nc :: fst qp, snd qp))
                     (named_parameters (snd nc))) cs.

(** The sub-module at a dotted path. *)
Fixpoint submodule (path : list string) (m : Module) : option Module :=
  match path with
  | [] => Some m
  | k :: path' =>
      match assoc k (children_of m) with
      | Some c => submodule path' c
      | None => None
      end
  end.

(** [prefix] is an initial segment of [path]. *)
Fixpoint under (prefix path : list string) : bool :=
  match prefix, path with
  | [], _ => true
  | k :: prefix', k' :: path' => String.eqb k k' && under prefix' path'
  | _ :: _, [] => false
  end.

(** Apply [f] to the sub-module [m.name], where there is one: what a loop
    over [m.name.parameters()] that assigns to each parameter does to [m]. *)
Definition at_attr (name : string) (f : Module -> Module) (m : Module) : Module :=
  match assoc name (children_of m) with
  | Some c => setattr m name (f c)
  | None => m
  end.

Section Zoo.

(** The models come from torchvision, a library the repository imports.
    Their feature extractors are taken as given: [trunk ctor weights attr]
    is the sub-module that the torchvision constructor [ctor], called with
    [weights], registers under [attr]; it may hold any parameters.  What
    torchvision fixes for each architecture, and what [get_model] relies
    on, is the list of top-level attributes and the make-up of the
    classification head; these are written out below as torchvision
    defines them (for 1000 ImageNet classes). *)
Variable trunk : string -> option string -> string -> Module.

(** [torchvision.models.VisionTransformer] (ViT-B): a [class_token]
    parameter, [conv_proj], [encoder], and
    [heads = Sequential(OrderedDict(head=Linear(768, 1000)))]. *)
Definition VisionTransformer (ctor : string) (weights : option string) : Module :=
  Mod "VisionTransformer" []
      [("class_token", mkParam [1; 1; 768] true)]
      [("conv_proj", trunk ctor weights "conv_proj");
       ("encoder", trunk ctor weights "encoder");
       ("heads", Mod "Sequential" [] [] [("head", Linear 768 1000)])].

Definition vit_b_16 := VisionTransformer "vit_b_16".
Definition vit_b_32 := VisionTransformer "vit_b_32".

(** [torchvision.models.ResNet]: the stem, four stages, the pooling and
    [fc = Linear(2048, 1000)]. *)
Definition ResNet (ctor : string) (weights : option string) : Module :=
  Mod "ResNet" [] []
      [("conv1", trunk ctor weights "conv1");
       ("bn1", trunk ctor weights "bn1");
       ("relu", Stateless "ReLU");
       ("maxpool", Stateless "MaxPool2d");
       ("layer1", trunk ctor weights "layer1");
       ("layer2", trunk ctor weights "layer2");
       ("layer3", trunk ctor weights "layer3");
       ("layer4", trunk ctor weights "layer4");
       ("avgpool", Stateless "AdaptiveAvgPool2d");
       ("fc", Linear 2048 1000)].

Definition resnet101 := ResNet "resnet101".
Definition resnet50 := ResNet "resnet50".

(** [torchvision.models.EfficientNet]: [features], [avgpool] and
    [classifier = Sequential(Dropout, Linear(width, 1000))], the width
    being 1280 for B0 and 1792 for B4. *)
Definition EfficientNet (ctor : string) (width : nat) (weights : option string) : Module :=
  Mod "EfficientNet" [] []
      [("features", trunk ctor weights "features");
       ("avgpool", Stateless "AdaptiveAvgPool2d");
       ("classifier", Sequential [Stateless "Dropout"; Linear width 1000])].

Definition efficientnet_b0 := EfficientNet "efficientnet_b0" 1280.
Definition efficientnet_b4 := EfficientNet "efficientnet_b4" 1792.

(** [torchvision.models.MobileNetV3] (large): [features], [avgpool] and
    [classifier = Sequential(Linear(960, 1280), Hardswish, Dropout,
    Linear(1280, 1000))]. *)
Definition mobilenet_v3_large (weights : option string) : Module :=
  Mod "MobileNetV3" [] []
      [("features", trunk "mobilenet_v3_large" weights "features");
       ("avgpool", Stateless "AdaptiveAvgPool2d");
       ("classifier",
        Sequential [Linear 960 1280; Stateless "Hardswish";
                    Stateless "Dropout"; Linear 1280 1000])].

(** [torchvision.models.DenseNet] (121): [features] and
    [classifier = Linear(1024, 1000)]. *)
Definition densenet121 (weights : option string) : Module :=
  Mod "DenseNet" [] []
      [("features", trunk "densenet121" weights "features");
       ("classifier", Linear 1024 1000)].

(** [X_Weights.DEFAULT if pretrained else None]. *)
Definition default_if (pretrained : bool) (enum : string) : option string :=
  if pretrained then Some (enum +:+ ".DEFAULT") else None.

(** [model.a.b = nn.Linear(model.a.b.in_features, num_classes)]
    (lines 59-60, 66-67). *)
Definition replace_heads_head (model : Module) (num_classes : nat) : result exn Module :=
  let* heads := getattr model "heads" in
  let* head := getattr heads "head" in
  let* in_features := in_features_of head in
  Ok (setattr model "heads" (setattr heads "head" (Linear in_features num_classes))).

(** [model.name = nn.Linear(model.name.in_features, num_classes)]
    (lines 73-74, 80-81, 108-109). *)
Definition replace_attr (name : string) (model : Module) (num_classes : nat)
  : result exn Module :=
  let* old := getattr model name in
  let* in_features := in_features_of old in
  Ok (setattr model name (Linear in_features num_classes)).

(** [model.classifier[i] = nn.Linear(model.classifier[i].in_features, num_classes)]
    (lines 87-88, 94-95, 101-102). *)
Definition replace_classifier_item (i : nat) (model : Module) (num_classes : nat)
  : result exn Module :=
  let* classifier := getattr model "classifier" in
  let* old := getitem classifier i in
  let* in_features := in_features_of old in
  let* classifier' := setitem classifier i (Linear in_features num_classes) in
  Ok (setattr model "classifier" classifier').

Definition cannot_find_head : exn :=
  AttributeError "Cannot find the classifier head to unfreeze.".

Definition unsupported (model_name : string) : exn :=
  ValueError ("Unsupported model architecture: " +:+ model_name).

(** Lines 55-112: the dispatch on [model_name]. *)
Definition dispatch (model_name : string) (num_classes : nat) (pretrained : bool)
  : result exn Module :=
  if String.eqb model_name "ViT" then
    replace_heads_head (vit_b_16 (default_if pretrained "ViT_B_16_Weights")) num_classes
  else if String.eqb model_name "ViT32" then
    replace_heads_head (vit_b_32 (default_if pretrained "ViT_B_32_Weights")) num_classes
  else if String.eqb model_name "ResNet101" then
    replace_attr "fc" (resnet101 (default_if pretrained "ResNet101_Weights")) num_classes
  else if String.eqb model_name "ResNet50" then
    replace_attr "fc" (resnet50 (default_if pretrained "ResNet50_Weights")) num_classes
  else if String.eqb model_name "EfficientNetB0" then
    replace_classifier_item 1
      (efficientnet_b0 (default_if pretrained "EfficientNet_B0_Weights")) num_classes
  else if String.eqb model_name "EfficientNetB4" then
    replace_classifier_item 1
      (efficientnet_b4 (default_if pretrained "EfficientNet_B4_Weights")) num_classes
  else if String.eqb model_name "MobileNetV3" then
    replace_classifier_item 3
      (mobilenet_v3_large (default_if pretrained "MobileNet_V3_Large_Weights")) num_classes
  else if String.eqb model_name "DenseNet121" then
    replace_attr "classifier"
      (densenet121 (default_if pretrained "DenseNet121_Weights")) num_classes
  else Raise (unsupported model_name).

(** Lines 114-137: freeze everything, then unfreeze the head. *)
Definition freeze_backbone (model_name : string) (model : Module) : result exn Module :=
  let model := set_requires_grad false model in
  if String.prefix "ViT" model_name then
    if hasattr model "heads"
       && match assoc "heads" (children_of model) with
          | Some heads => hasattr heads "head"
          | None => false
          end
    then Ok (at_attr "heads" (at_attr "head" (set_requires_grad true)) model)
    else if hasattr model "classifier"
    then Ok (at_attr "classifier" (set_requires_grad true) model)
    else Raise cannot_find_head
  else
    if hasattr model "fc"
    then Ok (at_attr "fc" (set_requires_grad true) model)
    else if hasattr model "classifier"
    then Ok (at_attr "classifier" (set_requires_grad true) model)
    else Raise cannot_find_head.

(** [get_model(model_name, num_classes=1, pretrained=True, freeze=True)]. *)
Definition get_model (model_name : string) (num_classes : nat)
           (pretrained freeze : bool) : result exn Module :=
  let* model := dispatch model_name num_classes pretrained in
  if freeze then freeze_backbone model_name model else Ok model.

End Zoo.

(** The architecture tokens the dispatch knows, in the order of its branches. *)
Definition supported : list string :=
  ["ViT"; "ViT32"; "ResNet101"; "ResNet50"; "EfficientNetB0";
   "EfficientNetB4"; "MobileNetV3"; "DenseNet121"].

(** Where the dispatch puts the new [nn.Linear], as a dotted path. *)
Definition head_path (model_name : string) : list string :=
  if String.eqb model_name "ViT" || String.eqb model_name "ViT32"
  then ["heads"; "head"]
  else if String.eqb model_name "ResNet101" || String.eqb model_name "ResNet50"
  then ["fc"]
  else if String.eqb model_name "EfficientNetB0" || String.eqb model_name "EfficientNetB4"
  then ["classifier"; "1"]
  else if String.eqb model_name "MobileNetV3"
  then ["classifier"; "3"]
  else ["classifier"].

(** The parameters of [m] that are trainable, by name. *)
Definition trainable (m : Module) : list (list string) :=
  map fst (List.filter (fun qp => requires_grad (snd qp)) (named_parameters m)).

(** Exactly the parameters below one of [paths] are trainable in [m]. *)
Definition trainable_exactly (paths : list (list string)) (m : Module) : Prop :=
  forall q p, In (q, p) (named_parameters m) ->
              requires_grad p = true <-> existsb (fun path => under path q) paths = true.

(** The layers that [get_model] leaves trainable when it freezes: the new
    [nn.Linear], and for MobileNetV3 also the first layer of the classifier. *)
Definition unfrozen (model_name : string) : list (list string) :=
  if String.eqb model_name "MobileNetV3"
  then [["classifier"; "0"]; ["classifier"; "3"]]
  else [head_path model_name].

(** A small stand-in for the feature extractors, for running [get_model]. *)
Definition toy_trunk (ctor : string) (weights : option string) (attr : string) : Module :=
  Mod "Conv2d" [] [("weight", mkParam [8; 3; 3; 3] true)] [].

End Registry.

(** ** [utils.py]: [calculate_custom_score] *)

Module Score.

(** numpy's default integer type, the type of what [np.sum] returns for a
    boolean array: 64 bits wide, or 32 bits on Windows before numpy 2. *)
Inductive np_int : Type := int32 | int64.

Definition bits (t : np_int) : Z :=
  match t with int32 => 32 | int64 => 64 end%Z.

(** Arithmetic on these integers wraps around: the result is the
    two's-complement value of the low [bits t] bits. *)
Definition wrap (t : np_int) (z : Z) : Z :=
  ((z + 2 ^ (bits t - 1)) mod 2 ^ bits t - 2 ^ (bits t - 1))%Z.

(** The largest [n] whose square still fits: 46340^2 < 2^31 and
    3037000499^2 < 2^63. *)
Definition max_len (t : np_int) : Z :=
  match t with int32 => 46340 | int64 => 3037000499 end%Z.

(** [a == v] on a one-dimensional integer array. *)
Definition np_eq (a : list Z) (v : Z) : list bool := map (fun x => Z.eqb x v) a.

Definition cannot_broadcast : exn :=
  ValueError "operands could not be broadcast together".

(** [a & b] on one-dimensional boolean arrays: element by element when the
    lengths agree, a one-element array is stretched over the other, any
    other pair of lengths raises. *)
Definition np_and (a b : list bool) : result exn (list bool) :=
  if (length a =? length b)%nat then Ok (map (fun xy => fst xy && snd xy) (combine a b))
  else match a, b with
       | [x], _ => Ok (map (andb x) b)
       | _, [y] => Ok (map (fun x => x && y) a)
       | _, _ => Raise cannot_broadcast
       end.

(** The lengths for which [&] does not raise. *)
Definition broadcastable (n m : nat) : Prop := n = m \/ n = 1 \/ m = 1.

(** How many entries of a boolean array are true. *)
Definition count_true (m : list bool) : Z :=
  Z.of_nat (length (List.filter (fun b => b) m)).

(** What the function returns: the literal [0.0], or the floating-point
    quotient of two numpy integers, kept as the pair it is computed from
    (a zero [den] gives numpy's inf or nan, with a warning). *)
Inductive pyfloat : Type :=
| Literal_0_0
| TrueDivide (num den : Z).

Section DefaultInt.

Variable int_ : np_int.

(** [np.sum] of a boolean array: the number of true entries, as a numpy
    integer. *)
Definition np_sum (m : list bool) : Z := wrap int_ (count_true m).

(** [x * y] on numpy integers. *)
Definition np_mul (x y : Z) : Z := wrap int_ (x * y).

Definition calculate_custom_score (y_true y_pred : list Z) : result exn pyfloat :=
  (* True Negatives (a0) *)
  let* m0 := np_and (np_eq y_true 0) (np_eq y_pred 0) in
  let a0 := np_sum m0 in
  (* True Positives (a1) *)
  let* m1 := np_and (np_eq y_true 1) (np_eq y_pred 1) in
  let a1 := np_sum m1 in
  (* Total actual class 0 and class 1 *)
  let n0 := np_sum (np_eq y_true 0) in
  let n1 := np_sum (np_eq y_true 1) in
  (* Avoid division by zero *)
  if (n0 =? 0)%Z || (n1 =? 0)%Z then Ok Literal_0_0
  else Ok (TrueDivide (np_mul a0 a1) (np_mul n0 n1)).

End DefaultInt.

End Score.

(** ** [utils.py]: [save_image_as_tif] *)

Module Tif.

(** An image held in a NumPy array of an integer dtype: two-dimensional
    (height x width) or three-dimensional (height x width x channels). *)
Inductive ndarray : Type :=
| Array2 (px : list (list Z))
| Array3 (px : list (list (list Z))).

(** The Python objects that reach the image functions. *)
Inductive value : Type :=
| VNone
| VInt (z : Z)
| VStr (s : string)
| VArray (a : ndarray).

(** [len(a.shape)]. *)
Definition ndim (a : ndarray) : nat :=
  match a with Array2 _ => 2 | Array3 _ => 3 end.

(** [a.astype(np.uint16)] on one integer: the low 16 bits. *)
Definition astype_uint16 (z : Z) : Z := (z mod 65536)%Z.

(** A sample of mode 'I;16' on disk: two bytes, low byte first. *)
Definition encode_I16 (v : Z) : Z * Z := (v mod 256, v / 256)%Z.
Definition decode_I16 (b : Z * Z) : Z := (fst b + 256 * snd b)%Z.

Definition is_byte (b : Z) : Prop := (0 <= b < 256)%Z.

(** A written TIFF file: its mode and its rows of samples. *)
Record TiffFile : Type := mkTiff {
  tif_mode : string;
  tif_rows : list (list (Z * Z))
}.

(** The file system: which paths can be opened for writing, and the TIFF
    files that can be read back. *)
Record FS : Type := mkFS {
  writable : string -> bool;
  files : gmap string TiffFile
}.

(** A call that touches the disk: it returns or raises, and leaves a disk
    behind either way. *)
Definition IO (A : Type) : Type := FS -> result exn A * FS.

(** The array has no pixel: its height or its width is 0. *)
Definition no_pixels (a : list (list Z)) : bool :=
  (length a =? 0)%nat || (length (hd [] a) =? 0)%nat.

(** Reading a written file back into a two-dimensional array of its
    samples.  The repository never reads these files; this is the inverse
    of the layout [pil_save] writes, used to state the round trip. *)
Definition read_tif (path : string) (fs : FS) : option (list (list Z)) :=
  match files fs !! path with
  | Some f => Some (map (map decode_I16) (tif_rows f))
  | None => None
  end.

Section Save.

(** [cv2.cvtColor(image, cv2.COLOR_BGR2GRAY)] is taken as given: it
    either raises (the channel count is not one it converts) or returns
    a two-dimensional array. *)
Variable cvtColor_BGR2GRAY : list (list (list Z)) -> result exn (list (list Z)).

(** What can be read back at the path of a save that failed while encoding,
    given what could be read there before.  PIL has then already opened the
    target with "w+b", which empties it; whether it removes the file again
    depends on its version, so this is taken as given. *)
Variable leftover : option TiffFile -> option TiffFile.

(** [Image.fromarray(a, mode='I;16')] of a two-dimensional uint16 array,
    then [save(path, format='TIFF')]: the target is opened for writing,
    then the image is encoded into it.  Opening fails with an [OSError]
    (one of its subclasses) and leaves the disk alone; an image without
    pixels is refused by the encoder, after the target was opened. *)
Definition pil_save (gray16 : list (list Z)) (path : string) : IO unit :=
  fun fs =>
    if writable fs path
    then if no_pixels gray16
         then (Raise (SystemError "tile cannot extend outside image"),
               mkFS (writable fs) (partial_alter leftover path (files fs)))
         else (Ok tt,
               mkFS (writable fs)
                    (<[path := mkTiff "I;16" (map (map encode_I16) gray16)]> (files fs)))
    else (Raise (OSError ("cannot write " +:+ path)), fs).

(** Lines 200-203: the two-dimensional array that is written. *)
Definition to_gray (a : ndarray) : result exn (list (list Z)) :=
  match a with
  | Array3 px => cvtColor_BGR2GRAY px   (* len(image.shape) == 3 *)
  | Array2 px => Ok px
  end.

Definition save_image_as_tif (image : value) (output_path : string) : IO unit :=
  fun fs =>
    match image with
    | VArray a =>
        match to_gray a with
        | Ok image_gray => pil_save (map (map astype_uint16) image_gray) output_path fs
        | Raise e => (Raise e, fs)
        end
    | _ => (Raise (ValueError "Input image is not a valid NumPy array."), fs)
    end.

End Save.

(** A conversion that refuses every array, for running the function on
two-dimensional images. *)
Definition no_color (px : list (list (list Z))) : result exn (list (list Z)) :=
  Raise (mkExn "cv2.error" "Invalid number of channels in input image").

(** A PIL that leaves nothing readable behind a save it could not finish,
for running the function. *)
Definition nothing_left (old : option TiffFile) : option TiffFile := None.

End Tif.

(** ** [api.py]: [predict_endpoint] *)

Module Api.
Import Tif.

(** What a request handler can touch: the clock, the files, the log. *)
Record World : Type := mkWorld {
  clock : Z;
  disk : FS;
  log : list string
}.

Record CellClassificationPredictRequestDto : Type := mkRequest { cell : string }.
Record CellClassificationPredictResponseDto : Type := mkResponse { is_homogenous : Z }.

Record HTTPException : Type := mkHTTPException { status_code : Z; detail : string }.

(** A computation in the handler: it returns or raises, and leaves a world
    behind either way. *)
Definition M (A : Type) : Type := World -> result exn A * World.

Definition ret {A} (a : A) : M A := fun w => (Ok a, w).
Definition raise {A} (e : exn) : M A := fun w => (Raise e, w).
Definition lift {A} (r : result exn A) : M A := fun w => (r, w).
Definition bindM {A B} (m : M A) (k : A -> M B) : M B :=
  fun w => match m w with
           | (Ok a, w') => k a w'
           | (Raise e, w') => (Raise e, w')
           end.

Notation "'let!' x ':=' m 'in' k" := (bindM m (fun x => k))
  (at level 10, x name, m at level 100, k at level 200).

Definition logger (level msg : string) : M unit :=
  fun w => (Ok tt, mkWorld (clock w) (disk w) (log w ++ [level +:+ ": " +:+ msg])).

(** [int(time.time())]. *)
Definition now : M Z := fun w => (Ok (clock w), w).

(** JSON, as far as the two response bodies need it. *)
Inductive json : Type :=
| JInt (z : Z)
| JStr (s : string).

Section Endpoint.

(** [load_sample] and [predict] are imported from modules of the
    repository that are not part of the sources at hand; they are taken
    as given.  [load_sample] returns a dict, [predict] any object.
    [to_int] is the validation pydantic applies to the field
    [is_homogenous: int]. *)
Variable load_sample : string -> result exn (gmap string value).
Variable predict : ndarray -> result exn value.
Variable to_int : value -> result exn Z.
Variable cvtColor_BGR2GRAY : list (list (list Z)) -> result exn (list (list Z)).
Variable leftover : option TiffFile -> option TiffFile.

(** A call that touches the disk, in the handler's world. *)
Definition on_disk {A} (m : IO A) : M A :=
  fun w => let (r, fs') := m (disk w) in (r, mkWorld (clock w) fs' (log w)).

Definition save_path (t : Z) : string :=
  "data/saved_images" +:+ "/" +:+ ("image_" +:+ pretty t +:+ ".tif").

(** The body of the [try] block, lines 43-67. *)
Definition try_body (request : CellClassificationPredictRequestDto)
  : M CellClassificationPredictResponseDto :=
  (* Decode and load the image *)
  let! sample := lift (load_sample (cell request)) in
  match sample !! "image" with
  | None | Some VNone => raise (ValueError "Image decoding failed.")
  | Some (VArray image) =>
      (* Save the image as a 16-bit .tif file *)
      let! t := now in
      let save_path := save_path t in
      let! _ := on_disk (save_image_as_tif cvtColor_BGR2GRAY leftover
                                           (VArray image) save_path) in
      let! _ := logger "INFO" ("Image saved at " +:+ save_path) in
      (* Make prediction by passing the image array *)
      let! predicted_homogenous_state := lift (predict image) in
      (* Return the prediction *)
      let! z := lift (to_int predicted_homogenous_state) in
      ret (mkResponse z)
  | Some _ => raise (TypeError "Decoded image is not a NumPy array.")
  end.

(** [predict_endpoint]: the [try] block and its [except Exception]. *)
Definition predict_endpoint (request : CellClassificationPredictRequestDto) (w : World)
  : result HTTPException CellClassificationPredictResponseDto * World :=
  match try_body request w with
  | (Ok response, w') => (Ok response, w')
  | (Raise e, w') =>
      let w'' := snd (logger "ERROR" ("Prediction error: " +:+ exn_msg e) w') in
      (Raise (mkHTTPException 400%Z (exn_msg e)), w'')
  end.

(** What the web framework puts on the wire for the handler's outcome:
    the response model with status 200, or the exception's status code
    with its detail. *)
Definition wire (r : result HTTPException CellClassificationPredictResponseDto)
  : Z * list (string * json) :=
  match r with
  | Ok response => (200%Z, [("is_homogenous", JInt (is_homogenous response))])
  | Raise e => (status_code e, [("detail", JStr (detail e))])
  end.

(** POST /predict. *)
Definition post_predict (request : CellClassificationPredictRequestDto) (w : World)
  : Z * list (string * json) :=
  wire (fst (predict_endpoint request w)).

(** Why the [try] block raised [e], step by step. *)
Inductive failure (request : CellClassificationPredictRequestDto) (w : World)
  : exn -> Prop :=
| decode_failure e :
    load_sample (cell request) = Raise e ->
    failure request w e
| no_image sample :
    load_sample (cell request) = Ok sample ->
    sample !! "image" = None \/ sample !! "image" = Some VNone ->
    failure request w (ValueError "Image decoding failed.")
| not_an_array sample v :
    load_sample (cell request) = Ok sample ->
    sample !! "image" = Some v ->
    v <> VNone -> (forall a, v <> VArray a) ->
    failure request w (TypeError "Decoded image is not a NumPy array.")
| save_failure sample image e fs' :
    load_sample (cell request) = Ok sample ->
    sample !! "image" = Some (VArray image) ->
    save_image_as_tif cvtColor_BGR2GRAY leftover (VArray image)
                      (save_path (clock w)) (disk w) = (Raise e, fs') ->
    failure request w e
| prediction_failure sample image fs' e :
    load_sample (cell request) = Ok sample ->
    sample !! "image" = Some (VArray image) ->
    save_image_as_tif cvtColor_BGR2GRAY leftover (VArray image)
                      (save_path (clock w)) (disk w) = (Ok tt, fs') ->
    predict image = Raise e ->
    failure request w e
| response_failure sample image fs' v e :
    load_sample (cell request) = Ok sample ->
    sample !! "image" = Some (VArray image) ->
    save_image_as_tif cvtColor_BGR2GRAY leftover (VArray image)
                      (save_path (clock w)) (disk w) = (Ok tt, fs') ->
    predict image = Ok v ->
    to_int v = Raise e ->
    failure request w e.

(** Every step of the [try] block went through, with prediction [z]. *)
Definition success (request : CellClassificationPredictRequestDto) (w : World) (z : Z)
  : Prop :=
  exists sample image fs' v,
    load_sample (cell request) = Ok sample /\
    sample !! "image" = Some (VArray image) /\
    save_image_as_tif cvtColor_BGR2GRAY leftover (VArray image)
                      (save_path (clock w)) (disk w) = (Ok tt, fs') /\
    predict image = Ok v /\
    to_int v = Ok z.

End Endpoint.

(** Stand-ins for the three functions taken as given, for running the
endpoint: a decoder that knows one payload, a constant predictor, and a
validation that accepts integers only. *)
Definition demo_load_sample (cell : string) : result exn (gmap string value) :=
  if String.eqb cell "iVBORw0KGgo="
  then Ok {[ "image" := VArray (Array2 [[0; 1]; [2; 3]]%Z) ]}
  else Raise (mkExn "binascii.Error" "Incorrect padding").

Definition demo_predict (image : ndarray) : result exn value := Ok (VInt 1).

Definition demo_to_int (v : value) : result exn Z :=
  match v with
  | VInt z => Ok z
  | _ => Raise (mkExn "ValidationError" "Input should be a valid integer")
  end.

Definition demo_world : World :=
  mkWorld 1700000000 (mkFS (fun _ => true) ∅) [].

End Api.

(** ** More vocabulary for the runs of [forward] *)

Module UNetRuns.
Import Torch UNetModel.

(** The attribute names of the encoder blocks and of the pooling layers, by
    depth. *)
Definition enc_attr (d : nat) : string := "enc_conv" +:+ pretty d.
Definition pool_attr (d : nat) : string := "pool" +:+ pretty d.

(** The feature map of depth [d] is too small to be pooled: its height or
    its width is below the 2x2 window. *)
Definition too_small_at (d : nat) (h w : N) : bool :=
  ((halve d h <? 2) || (halve d w <? 2))%N.

(** The first of the four pooling layers that is handed a feature map it
    cannot pool, if there is one. *)
Definition pool_depth (h w : N) : option nat :=
  if too_small_at 0 h w then Some 0
  else if too_small_at 1 h w then Some 1
  else if too_small_at 2 h w then Some 2
  else if too_small_at 3 h w then Some 3
  else None.

(** What [forward] of a network built with [in_channels = cin] and mode flag
    [tr] can raise on the input [x], and where. *)
Inductive forward_error (cin : nat) (tr : bool) (x : Tensor) : error -> Prop :=
| wrong_channels :
    channels x <> cin ->
    forward_error cin tr x (Attr "enc_conv0", ChannelMismatch cin (channels x))
| empty_input :
    height x = 0%N \/ width x = 0%N ->
    forward_error cin tr x (Attr "enc_conv0", KernelTooLarge)
| cannot_pool d :
    d < 4 -> too_small_at d (height x) (width x) = true ->
    forward_error cin tr x (Attr (pool_attr d), PoolOutputTooSmall)
| one_value d :
    d <= 4 -> tr = true -> batch x = 1%N ->
    halve d (height x) = 1%N -> halve d (width x) = 1%N ->
    forward_error cin tr x (Attr (enc_attr d), BatchNormOneValue)
| odd_skip d :
    d < 4 -> even_at d (height x) (width x) = false ->
    forward_error cin tr x (Cat d, CatSizeMismatch).

(** Batch normalisation of the encoder block of depth [d] sees one value per
    channel while training. *)
Definition one_value_at (tr : bool) (b : N) (d : nat) (h w : N) : bool :=
  tr && (b * halve d h * halve d w =? 1)%N.

(** The first statement of the encoder that raises for a non-empty input of
    the right channel count, going down the four depths to the bottleneck. *)
Definition encoder_error (tr : bool) (b h w : N) : option error :=
  if one_value_at tr b 0 h w then Some (Attr "enc_conv0", BatchNormOneValue)
  else if too_small_at 0 h w then Some (Attr "pool0", PoolOutputTooSmall)
  else if one_value_at tr b 1 h w then Some (Attr "enc_conv1", BatchNormOneValue)
  else if too_small_at 1 h w then Some (Attr "pool1", PoolOutputTooSmall)
  else if one_value_at tr b 2 h w then Some (Attr "enc_conv2", BatchNormOneValue)
  else if too_small_at 2 h w then Some (Attr "pool2", PoolOutputTooSmall)
  else if one_value_at tr b 3 h w then Some (Attr "enc_conv3", BatchNormOneValue)
  else if too_small_at 3 h w then Some (Attr "pool3", PoolOutputTooSmall)
  else if one_value_at tr b 4 h w then Some (Attr "enc_conv4", BatchNormOneValue)
  else None.

(** The outcome of a run, computed from the declared widths, the mode and
    the shape of the input alone.  A network declared without input
    channels stops in its first block, whose second convolution is handed a
    tensor without channels; one declared without output channels stops in
    its last convolution. *)
Definition forward_outcome (cin cout : nat) (tr : bool) (x : Tensor)
  : result error Tensor :=
  if negb (channels x =? cin)%nat
  then Raise (Attr "enc_conv0", ChannelMismatch cin (channels x))
  else if ((height x =? 0) || (width x =? 0))%N
  then Raise (Attr "enc_conv0", KernelTooLarge)
  else if (cin =? 0)%nat
  then (if one_value_at tr (batch x) 0 (height x) (width x)
        then Raise (Attr "enc_conv0", BatchNormOneValue)
        else Raise (Attr "enc_conv0", ChannelMismatch 64 0))
  else match encoder_error tr (batch x) (height x) (width x) with
       | Some e => Raise e
       | None =>
           match mismatch_depth (height x) (width x) with
           | Some d => Raise (Cat d, CatSizeMismatch)
           | None =>
               if (cout =? 0)%nat then Raise (Attr "final_conv", WeightTooSmall)
               else Ok (mkTensor (batch x) (features "final_conv" cout)
                                 (height x) (width x))
           end
       end.

(** The shape of the encoder feature map of depth [d] (the bottleneck at
    depth 4) for an input of shape [b] x _ x [h] x [w]. *)
Definition level_shape (d : nat) (b h w : N) : N * nat * N * N :=
  (b, 64 * 2 ^ d, halve d h, halve d w).

End UNetRuns.

(** ** More vocabulary for the model registry *)

Module RegistrySpec.
Import Registry.

(** The names and shapes of the parameters of a model, in order: what a
    checkpoint has to match. *)
Definition signature (m : Module) : list (list string * list nat) :=
  map (fun qp => (fst qp, shape (snd qp))) (named_parameters m).

(** [m'] has the parameters of [m] everywhere outside [path]: the same
    names with the same shapes and flags. *)
Definition same_outside (path : list string) (m m' : Module) : Prop :=
  forall q p, under path q = false ->
              (In (q, p) (named_parameters m') <-> In (q, p) (named_parameters m)).

(** The three places where the unfreezing looks for a head. *)
Definition head_candidates : list (list string) :=
  [["heads"; "head"]; ["fc"]; ["classifier"]].

(** The names a module uses for parameters and plain attributes. *)
Definition plain_names (m : Module) : list string :=
  map fst (params_of m) ++ map fst (attrs_of m).

(** In [m], the names the unfreezing looks up are names of sub-modules, if
    they are there at all: none of them is a parameter or a plain attribute
    (the unfreezing calls [.parameters()] on what it finds). *)
Definition heads_are_modules (m : Module) : Prop :=
  (forall k, In k ["heads"; "fc"; "classifier"] -> ~ In k (plain_names m)) /\
  (forall heads, assoc "heads" (children_of m) = Some heads ->
                 ~ In "head" (plain_names heads)).

(** Two models that torchvision does not build, for running the
    unfreezing: one with both an [fc] and a [classifier], one with an [fc]
    alone. *)
Definition demo_two_heads : Module :=
  Mod "Net" [] []
      [("body", toy_trunk "net" None "body");
       ("fc", Linear 8 2);
       ("classifier", Linear 8 2)].

Definition demo_fc_only : Module :=
  Mod "Net" [] []
      [("body", toy_trunk "net" None "body");
       ("fc", Linear 8 2)].

End RegistrySpec.

(** ** [utils.py]: [load_model] *)

Module Loader.
Import Registry.

(** A value of the model-info JSON document: a string, an integer, or
    anything else, kept as the text [str()] gives for it. *)
Inductive jvalue : Type :=
| JString (s : string)
| JNumber (z : Z)
| JOther (repr : string).

(** What [json.load] returns: a dict, or some other object, for which
    [complaint] is the message of the [TypeError] that subscripting it with
    a string raises. *)
Inductive document : Type :=
| JDict (d : gmap string jvalue)
| JNotDict (complaint : string).

Definition KeyError (key : string) : exn := mkExn "KeyError" ("'" +:+ key +:+ "'").

(** [doc[key]]. *)
Definition subscript (doc : document) (key : string) : result exn jvalue :=
  match doc with
  | JDict d =>
      match d !! key with
      | Some v => Ok v
      | None => Raise (KeyError key)
      end
  | JNotDict complaint => Raise (TypeError complaint)
  end.

(** [str(v)], as an f-string formats it. *)
Definition str (v : jvalue) : string :=
  match v with
  | JString s => s
  | JNumber z => pretty z
  | JOther repr => repr
  end.

(** What [load_model] returns: the model with its mode flag, and the two
    values passed through. *)
Record Loaded : Type := mkLoaded {
  model : Module;
  training : bool;
  img_size : jvalue;
  model_info : document
}.

Section LoadModel.

Variable trunk : string -> option string -> string -> Module.

(** The files and the checkpoint format are taken as given:
    [read_json path] is [json.load] on the opened file,
    [torch_load path device] is [torch.load(path, map_location=device)],
    and [incompatible m sd] is what
    [m.load_state_dict(sd)] raises, if it raises.  Loading copies values
    into the parameters the model has; shapes and [requires_grad] flags stay
    as they are. *)
Variable StateDict : Type.
Variable read_json : string -> result exn document.
Variable torch_load : string -> string -> result exn StateDict.
Variable incompatible : Module -> StateDict -> option exn.

(** [get_model(model_name, num_classes=1)] on a value that need not be a
    string: a non-string equals none of the tokens. *)
Definition get_model_1 (model_name : jvalue) : result exn Module :=
  match model_name with
  | JString s => get_model trunk s 1 true true
  | v => Raise (unsupported (str v))
  end.

Definition load_state_dict (m : Module) (state_dict : StateDict) : result exn Module :=
  match incompatible m state_dict with
  | Some e => Raise e
  | None => Ok m
  end.

Definition load_model (checkpoint_path model_info_path device : string)
  : result exn Loaded :=
  let* model_info := read_json model_info_path in
  let* model_name := subscript model_info "model_name" in
  let* img_size := subscript model_info "img_size" in
  let* model := get_model_1 model_name in
  let* state_dict := torch_load checkpoint_path device in
  let* model := load_state_dict model state_dict in
  (* model.to(device); model.eval() *)
  Ok (mkLoaded model false img_size model_info).

End LoadModel.

(** Stand-ins for running [load_model]: one descriptor file, one checkpoint
    that every model accepts. *)
Definition demo_read_json (path : string) : result exn document :=
  if String.eqb path "model_info.json"
  then Ok (JDict {[ "model_name" := JString "ResNet50"; "img_size" := JNumber 224 ]})
  else Raise (mkExn "FileNotFoundError" path).

Definition demo_torch_load (path device : string) : result exn unit := Ok tt.

Definition demo_incompatible (m : Module) (sd : unit) : option exn := None.

End Loader.

(** ** More vocabulary for the requests of [predict_endpoint] *)

Module ApiSpec.
Import Tif Api.

Section Requests.

Variable load_sample : string -> result exn (gmap string value).
Variable cvtColor_BGR2GRAY : list (list (list Z)) -> result exn (list (list Z)).
Variable leftover : option TiffFile -> option TiffFile.

(** The request reached line 55 and the call returned: the payload was
    decoded to the array [image], and saving it left the files [fs']. *)
Definition image_saved (request : CellClassificationPredictRequestDto) (w : World)
           (image : ndarray) (fs' : FS) : Prop :=
  exists sample,
    load_sample (cell request) = Ok sample /\
    sample !! "image" = Some (VArray image) /\
    save_image_as_tif cvtColor_BGR2GRAY leftover (VArray image)
                      (save_path (clock w)) (disk w) = (Ok tt, fs').

(** The request got as far as PIL opening the file of its image for
    writing: the payload was decoded to an array, the grayscale conversion
    (if any) returned, and the path of this second can be opened. *)
Definition file_opened (request : CellClassificationPredictRequestDto) (w : World)
  : Prop :=
  exists sample image gray,
    load_sample (cell request) = Ok sample /\
    sample !! "image" = Some (VArray image) /\
    to_gray cvtColor_BGR2GRAY image = Ok gray /\
    writable (disk w) (save_path (clock w)) = true.

End Requests.

(** The two lines the handler writes to the log, lines 56 and 69. *)
Definition info_line (t : Z) : string :=
  "INFO" +:+ ": " +:+ ("Image saved at " +:+ save_path t).
Definition error_line (msg : string) : string :=
  "ERROR" +:+ ": " +:+ ("Prediction error: " +:+ msg).

(** The world a later request finds: what an earlier one left, with the
    clock at [t]. *)
Definition later (t : Z) (w : World) : World := mkWorld t (disk w) (log w).

(** A predictor that fails, for running the endpoint past the save. *)
Definition demo_failing_predict (image : ndarray) : result exn value :=
  Raise (mkExn "RuntimeError" "model is not loaded").

End ApiSpec.

(** * Properties *)

(** Linear arithmetic with division and remainder by constants. *)
Ltac Zify.zify_post_hook ::= Z.to_euclidean_division_equations.

(** ** Results *)

Lemma bind_Ok_inv {E A B} (m : result E A) (k : A -> result E B) (b : B) :
  bind m k = Ok b -> exists a, m = Ok a /\ k a = Ok b.
Proof. destruct m as [a|e]; cbn; intros H; [eauto | discriminate]. Qed.

(** ** The tensor operators *)

Section TorchFacts.
Import Torch.

Lemma length_features name n : length (features name n) = n.
Proof. unfold features. now rewrite length_map, length_seq. Qed.

Lemma pool_out_2 h : pool_out h 2 = (h / 2)%N.
Proof. unfold pool_out. change (Z.of_N 2) with 2%Z. lia. Qed.

Lemma conv_transpose_out_2_2 h : conv_transpose_out h 2 2 = (2 * h)%N.
Proof. unfold conv_transpose_out. change (Z.of_N 2) with 2%Z. lia. Qed.

Lemma conv_out_same h : conv_out h 3 1 = h.
Proof. unfold conv_out. cbn [Z.of_N]. lia. Qed.

Lemma conv_out_1x1 h : conv_out h 1 0 = h.
Proof. unfold conv_out. cbn [Z.of_N]. lia. Qed.

(** A convolution that returns has seen the channel count it declares and
    an input no smaller than its kernel. *)
Lemma conv2d_inv tr name cin cout k p t t' :
  apply_layer tr (Conv2d name cin cout k p) t = Ok t' ->
  channels t = cin /\ (k <= height t + 2 * p)%N /\ (k <= width t + 2 * p)%N /\
  t' = mkTensor (batch t) (if (cin =? 0)%nat then [] else features name cout)
                (conv_out (height t) k p) (conv_out (width t) k p) /\
  0 < cout.
Proof.
  cbn [apply_layer].
  destruct (Nat.eqb_spec cout 0) as [Ho|Ho]; [discriminate|].
  destruct (Nat.eqb_spec (channels t) cin) as [Hc|Hc]; cbn [negb]; [|discriminate].
  destruct (N.ltb_spec (height t + 2 * p) k); cbn [orb]; [discriminate|].
  destruct (N.ltb_spec (width t + 2 * p) k); [discriminate|].
  intros [= <-]. repeat split; trivial; lia.
Qed.

Lemma conv2d_ok tr name cin cout k p t :
  0 < cin -> 0 < cout ->
  channels t = cin -> (k <= height t + 2 * p)%N -> (k <= width t + 2 * p)%N ->
  apply_layer tr (Conv2d name cin cout k p) t
  = Ok (mkTensor (batch t) (features name cout)
                 (conv_out (height t) k p) (conv_out (width t) k p)).
Proof.
  intros Hi Ho Hc Hh Hw. cbn [apply_layer].
  destruct (Nat.eqb_spec cout 0); [lia|].
  destruct (Nat.eqb_spec cin 0); [lia|].
  rewrite Hc, Nat.eqb_refl. cbn [negb].
  destruct (N.ltb_spec (height t + 2 * p) k); [lia|].
  destruct (N.ltb_spec (width t + 2 * p) k); [lia|]. reflexivity.
Qed.

(** A convolution declared without input channels hands a tensor without
    channels back. *)
Lemma conv2d_no_input tr name cout k p t :
  0 < cout ->
  channels t = 0 -> (k <= height t + 2 * p)%N -> (k <= width t + 2 * p)%N ->
  apply_layer tr (Conv2d name 0 cout k p) t
  = Ok (mkTensor (batch t) [] (conv_out (height t) k p) (conv_out (width t) k p)).
Proof.
  intros Ho Hc Hh Hw. cbn [apply_layer].
  destruct (Nat.eqb_spec cout 0); [lia|].
  rewrite Hc. cbn [Nat.eqb negb].
  destruct (N.ltb_spec (height t + 2 * p) k); [lia|].
  destruct (N.ltb_spec (width t + 2 * p) k); [lia|]. reflexivity.
Qed.

Lemma batchnorm_ok tr n t :
  bn_accepts tr (batch t) (height t) (width t) -> channels t = n ->
  apply_layer tr (BatchNorm2d n) t = Ok t.
Proof.
  intros Hbn Hc. cbn [apply_layer]. rewrite Hc, Nat.eqb_refl. cbn [negb].
  destruct Hbn as [->|Hne]; cbn [andb]; [now destruct (is_empty t)|].
  destruct (N.eqb_spec (batch t * height t * width t) 1); [contradiction|].
  rewrite andb_false_r. now destruct (is_empty t).
Qed.

(** An empty tensor passes batch normalisation whatever its channel count. *)
Lemma batchnorm_empty tr n t :
  bn_accepts tr (batch t) (height t) (width t) -> is_empty t = true ->
  apply_layer tr (BatchNorm2d n) t = Ok t.
Proof.
  intros Hbn He. cbn [apply_layer]. rewrite He.
  destruct Hbn as [->|Hne]; [reflexivity|].
  destruct (N.eqb_spec (batch t * height t * width t) 1); [contradiction|].
  now rewrite andb_false_r.
Qed.

Lemma batchnorm_inv tr n t t' :
  apply_layer tr (BatchNorm2d n) t = Ok t' ->
  t' = t /\ bn_accepts tr (batch t) (height t) (width t).
Proof.
  cbn [apply_layer]. unfold bn_accepts.
  destruct tr; cbn [andb].
  - destruct (N.eqb_spec (batch t * height t * width t) 1); [discriminate|].
    destruct (is_empty t); [intros [= <-]; auto|].
    destruct (Nat.eqb_spec (channels t) n); cbn [negb]; [|discriminate].
    intros [= <-]. auto.
  - destruct (is_empty t); [intros [= <-]; auto|].
    destruct (Nat.eqb_spec (channels t) n); cbn [negb]; [|discriminate].
    intros [= <-]. auto.
Qed.

Lemma maxpool2_inv tr t t' :
  apply_layer tr (MaxPool2d 2) t = Ok t' ->
  (2 <= height t)%N /\ (2 <= width t)%N /\
  t' = mkTensor (batch t) (chans t) (height t / 2) (width t / 2).
Proof.
  cbn [apply_layer]. rewrite !pool_out_2.
  destruct (Nat.eqb_spec (channels t) 0); cbn [orb]; [discriminate|].
  destruct (N.eqb_spec (height t) 0); cbn [orb]; [discriminate|].
  destruct (N.eqb_spec (width t) 0); [discriminate|].
  destruct (N.eqb_spec (height t / 2) 0); cbn [orb]; [discriminate|].
  destruct (N.eqb_spec (width t / 2) 0); [discriminate|].
  intros [= <-]. repeat split; lia.
Qed.

Lemma maxpool2_ok tr t :
  channels t <> 0 -> (2 <= height t)%N -> (2 <= width t)%N ->
  apply_layer tr (MaxPool2d 2) t
  = Ok (mkTensor (batch t) (chans t) (height t / 2) (width t / 2)).
Proof.
  intros Hc Hh Hw. cbn [apply_layer]. rewrite !pool_out_2.
  destruct (Nat.eqb_spec (channels t) 0); [contradiction|].
  destruct (N.eqb_spec (height t) 0); [lia|].
  destruct (N.eqb_spec (width t) 0); [lia|].
  destruct (N.eqb_spec (height t / 2) 0); [lia|].
  destruct (N.eqb_spec (width t / 2) 0); [lia|]. reflexivity.
Qed.

Lemma upconv_inv tr name cin cout t t' :
  apply_layer tr (ConvTranspose2d name cin cout 2 2) t = Ok t' ->
  channels t = cin /\
  t' = mkTensor (batch t) (features name cout) (2 * height t) (2 * width t).
Proof.
  cbn [apply_layer]. rewrite !conv_transpose_out_2_2.
  destruct (Nat.eqb_spec (channels t) cin); cbn [negb]; [|discriminate].
  intros [= <-]. auto.
Qed.

Lemma upconv_ok tr name cin cout t :
  channels t = cin ->
  apply_layer tr (ConvTranspose2d name cin cout 2 2) t
  = Ok (mkTensor (batch t) (features name cout) (2 * height t) (2 * width t)).
Proof.
  intros Hc. cbn [apply_layer]. rewrite !conv_transpose_out_2_2.
  now rewrite Hc, Nat.eqb_refl.
Qed.

Lemma relu_ok tr t : apply_layer tr ReLU t = Ok t.
Proof. reflexivity. Qed.

Lemma cat_inv a b c :
  cat a b = Ok c ->
  batch a = batch b /\ height a = height b /\ width a = width b /\
  c = mkTensor (batch a) (chans a ++ chans b) (height a) (width a).
Proof.
  unfold cat.
  destruct (N.eqb_spec (batch a) (batch b)); cbn [andb]; [|discriminate].
  destruct (N.eqb_spec (height a) (height b)); cbn [andb]; [|discriminate].
  destruct (N.eqb_spec (width a) (width b)); [|discriminate].
  intros [= <-]. auto.
Qed.

Lemma cat_ok a b :
  batch a = batch b -> height a = height b -> width a = width b ->
  cat a b = Ok (mkTensor (batch a) (chans a ++ chans b) (height a) (width a)).
Proof. intros Hb Hh Hw. unfold cat. now rewrite Hb, Hh, Hw, !N.eqb_refl. Qed.

Lemma cat_mismatch a b :
  height a <> height b \/ width a <> width b -> cat a b = Raise CatSizeMismatch.
Proof.
  intros Hne. destruct (cat a b) as [c|e] eqn:E.
  - apply cat_inv in E. tauto.
  - unfold cat in E. now destruct (_ && _); inversion E.
Qed.

(** The channel count of a concatenation is the sum of the two. *)
Lemma cat_channels a b c : cat a b = Ok c -> channels c = channels a + channels b.
Proof.
  intros E. apply cat_inv in E as (_ & _ & _ & ->).
  unfold channels. cbn [chans]. apply length_app.
Qed.

End TorchFacts.

(** ** The U-Net *)

Section UNetFacts.
Import Torch UNetModel.

Lemma at_site_Ok_inv {A} s (r : result error_kind A) a :
  at_site s r = Ok a -> r = Ok a.
Proof. destruct r; cbn; congruence. Qed.

Lemma conv_block_inv tr name cin cout t t' :
  sequential tr (conv_block name cin cout) t = Ok t' ->
  channels t = cin /\ (1 <= height t)%N /\ (1 <= width t)%N /\
  bn_accepts tr (batch t) (height t) (width t) /\
  t' = mkTensor (batch t) (features (name +:+ ".3") cout) (height t) (width t).
Proof.
  unfold conv_block. cbn [sequential]. intros H.
  apply bind_Ok_inv in H as (t1 & H1 & H).
  apply conv2d_inv in H1 as (Hc & Hh & Hw & -> & Ho).
  rewrite !conv_out_same in H.
  apply bind_Ok_inv in H as (t2 & [= <-] & H).
  apply bind_Ok_inv in H as (t3 & H3 & H).
  apply batchnorm_inv in H3 as (-> & Hbn). cbn [batch height width] in Hbn.
  apply bind_Ok_inv in H as (t4 & H4 & H).
  apply conv2d_inv in H4 as (_ & _ & _ & -> & _). cbn [batch height width] in H.
  rewrite !conv_out_same in H.
  apply bind_Ok_inv in H as (t5 & [= <-] & H).
  apply bind_Ok_inv in H as (t6 & H6 & [= <-]).
  apply batchnorm_inv in H6 as (-> & _).
  destruct (Nat.eqb_spec cout 0); [lia|].
  repeat split; trivial; lia.
Qed.

(** A conv block that returns was declared with positive widths: a block
    without input channels stops in its second convolution, one without
    output channels in its first. *)
Lemma conv_block_inv_widths tr name cin cout t t' :
  sequential tr (conv_block name cin cout) t = Ok t' -> 0 < cin /\ 0 < cout.
Proof.
  unfold conv_block. cbn [sequential]. intros H.
  apply bind_Ok_inv in H as (t1 & H1 & H).
  apply conv2d_inv in H1 as (Hc & Hh & Hw & -> & Ho).
  apply bind_Ok_inv in H as (t2 & [= <-] & H).
  apply bind_Ok_inv in H as (t3 & H3 & H).
  apply batchnorm_inv in H3 as (-> & Hbn).
  apply bind_Ok_inv in H as (t4 & H4 & H).
  apply conv2d_inv in H4 as (Hc4 & _).
  unfold channels in Hc4. cbn [chans] in Hc4.
  destruct (Nat.eqb_spec cin 0); cbn [length] in Hc4; lia.
Qed.

Lemma conv_block_ok tr name cin cout t :
  0 < cin -> 0 < cout ->
  channels t = cin -> (1 <= height t)%N -> (1 <= width t)%N ->
  bn_accepts tr (batch t) (height t) (width t) ->
  sequential tr (conv_block name cin cout) t
  = Ok (mkTensor (batch t) (features (name +:+ ".3") cout) (height t) (width t)).
Proof.
  intros Hi Ho Hc Hh Hw Hbn. unfold conv_block. cbn [sequential].
  rewrite conv2d_ok by (trivial; lia). cbn [bind].
  rewrite relu_ok, !conv_out_same. cbn [bind].
  rewrite batchnorm_ok by (trivial; apply length_features). cbn [bind].
  rewrite conv2d_ok by (cbn [height width]; try apply length_features; lia).
  cbn [bind batch height width]. rewrite relu_ok, !conv_out_same. cbn [bind].
  rewrite batchnorm_ok by (trivial; apply length_features). reflexivity.
Qed.

Lemma bn_passes_accepts tr b h w h' w' :
  bn_passes tr b h w -> (16 <= h)%N -> (16 <= w)%N ->
  (h / 16 <= h')%N -> (w / 16 <= w')%N ->
  bn_accepts tr b h' w'.
Proof.
  intros [->|Hne] Hh16 Hw16 Hh Hw; [now left|right].
  destruct (N.eq_dec b 0%N) as [->|Hb]; [rewrite !N.mul_0_l; discriminate|].
  assert (b * (h / 16) * (w / 16) <= b * h' * w')%N.
  { apply N.mul_le_mono; [apply N.mul_le_mono_l|]; trivial. }
  assert (1 * 1 * 1 <= b * (h / 16) * (w / 16))%N.
  { apply N.mul_le_mono; [apply N.mul_le_mono|]; lia. }
  lia.
Qed.

Lemma even_at_spec d h w :
  even_at d h w = true <->
  (2 * halve (S d) h = halve d h /\ 2 * halve (S d) w = halve d w)%N.
Proof.
  unfold even_at. cbn [halve]. rewrite andb_true_iff, !N.eqb_eq. lia.
Qed.

Lemma even_at_false d h w :
  even_at d h w = false ->
  (2 * halve (S d) h <> halve d h \/ 2 * halve (S d) w <> halve d w)%N.
Proof.
  intros H. destruct (N.eq_dec (2 * halve (S d) h)%N (halve d h)) as [Eh|]; [|now left].
  destruct (N.eq_dec (2 * halve (S d) w)%N (halve d w)) as [Ew|]; [|now right].
  rewrite (proj2 (even_at_spec d h w)) in H by auto. discriminate.
Qed.

(** Side conditions of a step of [forward] on explicit tensors. *)
Ltac side :=
  unfold channels; cbn [batch chans height width];
  first
    [ assumption
    | apply length_features
    | rewrite length_app, !length_features; reflexivity
    | rewrite length_features; discriminate
    | lia
    | eapply bn_passes_accepts; [eassumption | lia | lia | lia | lia] ].

Ltac next := cbn [bind at_site batch chans height width].
Ltac block := rewrite conv_block_ok by side; next.
Ltac pool := rewrite maxpool2_ok by side; next.
Ltac up := rewrite upconv_ok by side; next.

(** At decoder depth [d]: either the skip tensor has an odd extent and
    [torch.cat] raises, or the concatenation goes through. *)
Ltac concat d E :=
  match goal with
  | |- context [even_at d ?h ?w] =>
      destruct (even_at d h w) eqn:E;
      [ apply even_at_spec in E; cbn [halve] in E;
        rewrite cat_ok by side; next
      | apply even_at_false in E; cbn [halve] in E;
        rewrite cat_mismatch by (cbn [batch chans height width]; lia);
        reflexivity ]
  end.

(** What [forward] does on every input wide enough to reach the
    bottleneck: it raises at the concatenation of the deepest depth whose
    skip tensor has an odd extent, and returns when there is none. *)
Lemma forward_eval cin cout tr x :
  0 < cin ->
  channels x = cin -> (16 <= height x)%N -> (16 <= width x)%N ->
  bn_passes tr (batch x) (height x) (width x) ->
  forward (train tr (init cin cout)) x
  = match mismatch_depth (height x) (width x) with
    | Some d => Raise (Cat d, CatSizeMismatch)
    | None =>
        if (cout =? 0)%nat then Raise (Attr "final_conv", WeightTooSmall)
        else Ok (mkTensor (batch x) (features "final_conv" cout)
                          (height x) (width x))
    end.
Proof.
  intros Hi Hc Hh Hw Hbn. unfold forward, forward_locals, mismatch_depth.
  cbn [train init training enc_conv0 pool0 enc_conv1 pool1 enc_conv2 pool2
       enc_conv3 pool3 enc_conv4 upconv3 dec_conv3 upconv2 dec_conv2
       upconv1 dec_conv1 upconv0 dec_conv0 final_conv].
  block. pool. block. pool. block. pool. block. pool. block.
  up. concat 3 E3. cbn [negb]. block.
  up. concat 2 E2. cbn [negb]. block.
  up. concat 1 E1. cbn [negb]. block.
  up. concat 0 E0. cbn [negb]. block.
  destruct (Nat.eqb_spec cout 0) as [->|Ho]; [reflexivity|].
  rewrite conv2d_ok by side. cbn [bind at_site out batch height width].
  rewrite !conv_out_1x1. do 2 f_equal; lia.
Qed.

Lemma mismatch_depth_divisible h w :
  (h mod 16 = 0)%N -> (w mod 16 = 0)%N -> mismatch_depth h w = None.
Proof.
  intros Hh Hw. unfold mismatch_depth.
  rewrite !(proj2 (even_at_spec _ h w)); [reflexivity | | | |]; cbn [halve]; lia.
Qed.

Lemma mismatch_depth_indivisible h w :
  (h mod 16 <> 0)%N \/ (w mod 16 <> 0)%N ->
  exists d, mismatch_depth h w = Some d /\ d < 4 /\ even_at d h w = false.
Proof.
  intros Hne. unfold mismatch_depth.
  destruct (even_at 3 h w) eqn:E3; cbn [negb]; [|exists 3; repeat split; trivial; lia].
  destruct (even_at 2 h w) eqn:E2; cbn [negb]; [|exists 2; repeat split; trivial; lia].
  destruct (even_at 1 h w) eqn:E1; cbn [negb]; [|exists 1; repeat split; trivial; lia].
  destruct (even_at 0 h w) eqn:E0; cbn [negb]; [|exists 0; repeat split; trivial; lia].
  apply even_at_spec in E3, E2, E1, E0. cbn [halve] in *. lia.
Qed.

(** One statement of [forward] that returned, read backwards. *)
Ltac unstep H :=
  let t := fresh "t" in
  let Ht := fresh "Ht" in
  apply bind_Ok_inv in H as (t & Ht & H);
  apply at_site_Ok_inv in Ht;
  first
    [ apply conv_block_inv in Ht as (? & ? & ? & ? & ->)
    | apply maxpool2_inv in Ht as (? & ? & ->)
    | apply upconv_inv in Ht as (? & ->)
    | apply cat_inv in Ht as (? & ? & ? & ->)
    | apply conv2d_inv in Ht as (? & ? & ? & -> & ?) ];
  cbn [batch chans height width] in *.

(** A run of [forward] that reaches its [return] fixes every local
    variable, and can only have started from an input whose height and
    width are positive multiples of 16. *)
Lemma forward_locals_inv cin cout tr x l :
  forward_locals (train tr (init cin cout)) x = Ok l ->
  (channels x = cin /\
   (0 < height x)%N /\ (height x mod 16 = 0)%N /\
   (0 < width x)%N /\ (width x mod 16 = 0)%N) /\
  (chans (up3 l) = features "upconv3" 512 /\
   chans (enc3 l) = features "enc_conv3.3" 512 /\
   chans (cat3 l) = chans (up3 l) ++ chans (enc3 l)) /\
  (chans (up2 l) = features "upconv2" 256 /\
   chans (enc2 l) = features "enc_conv2.3" 256 /\
   chans (cat2 l) = chans (up2 l) ++ chans (enc2 l)) /\
  (chans (up1 l) = features "upconv1" 128 /\
   chans (enc1 l) = features "enc_conv1.3" 128 /\
   chans (cat1 l) = chans (up1 l) ++ chans (enc1 l)) /\
  (chans (up0 l) = features "upconv0" 64 /\
   chans (enc0 l) = features "enc_conv0.3" 64 /\
   chans (cat0 l) = chans (up0 l) ++ chans (enc0 l)) /\
  shape (out l) = (batch x, cout, height x, width x).
Proof.
  unfold forward_locals. intros H.
  cbn [train init training enc_conv0 pool0 enc_conv1 pool1 enc_conv2 pool2
       enc_conv3 pool3 enc_conv4 upconv3 dec_conv3 upconv2 dec_conv2
       upconv1 dec_conv1 upconv0 dec_conv0 final_conv] in H.
  do 22 unstep H. injection H as <-.
  cbn [up3 enc3 cat3 up2 enc2 cat2 up1 enc1 cat1 up0 enc0 cat0 out].
  unfold shape, channels. cbn [batch chans height width Nat.eqb].
  rewrite length_features, !conv_out_1x1.
  repeat split; trivial; try lia.
  do 3 f_equal; lia.
Qed.

Lemma features_head name n : features name (S n) = Feature name 0 :: map (Feature name) (seq 1 n).
Proof. reflexivity. Qed.

(** Two non-empty groups of channels from different layers do not commute
    under concatenation. *)
Lemma features_app_order n1 c1 n2 c2 :
  n1 <> n2 -> 0 < c1 -> 0 < c2 ->
  features n1 c1 ++ features n2 c2 <> features n2 c2 ++ features n1 c1.
Proof.
  intros Hn H1 H2. destruct c1 as [|c1]; [lia|]. destruct c2 as [|c2]; [lia|].
  rewrite !features_head. cbn [app]. intros [= E _]. contradiction.
Qed.

End UNetFacts.

Section UNetClaims.
Import Torch UNetModel.

(** C2 (amended).  For a U-Net built with positive [in_channels] and
    [out_channels], in inference mode -- or in training mode when the
    bottleneck does not hold exactly one value per channel, that is
    batch * (height / 16) * (width / 16) is not 1 -- and every 4D input
    tensor batch x in_channels x height x width whose height and width are
    positive and divisible by 16, [forward] returns a tensor of shape
    batch x out_channels x height x width. *)
Theorem unet_forward_shape cin cout tr x :
  0 < cin -> 0 < cout ->
  channels x = cin ->
  (0 < height x)%N -> (height x mod 16 = 0)%N ->
  (0 < width x)%N -> (width x mod 16 = 0)%N ->
  bn_passes tr (batch x) (height x) (width x) ->
  exists y, forward (train tr (init cin cout)) x = Ok y /\
            shape y = (batch x, cout, height x, width x).
Proof.
  intros Hi Ho Hc Hh Hh16 Hw Hw16 Hbn.
  rewrite forward_eval by (trivial; lia).
  rewrite mismatch_depth_divisible by trivial.
  destruct (Nat.eqb_spec cout 0); [lia|].
  eexists. split; [reflexivity|].
  unfold shape, channels. cbn [batch chans height width].
  now rewrite length_features.
Qed.

(** The scenario of the specification: a network built with
    [in_channels=4, out_channels=1], fed a 1x4x256x256 tensor. *)
Lemma unet_forward_shape_256 :
  exists y, forward (init 4 1) (input 1 4 256 256) = Ok y /\
            shape y = (1%N, 1, 256%N, 256%N).
Proof.
  apply (unet_forward_shape 4 1 true (input 1 4 256 256));
    try reflexivity; try lia.
  right. vm_compute. discriminate.
Defined.

(** C2 as stated fails: a freshly built network is in training mode, and
    on a 1x4x16x16 input the bottleneck is 1x1024x1x1, which batch
    normalisation refuses. *)
Lemma unet_forward_training_one_value :
  let x := input 1 4 16 16 in
  (channels x = 4 /\ (height x mod 16 = 0)%N /\ (width x mod 16 = 0)%N) /\
  forward (init 4 1) x = Raise (Attr "enc_conv4", BatchNormOneValue).
Proof. vm_compute. auto. Qed.

(** C4.  At every decoder depth the channels of the upsampled tensor plus
    those of the skip tensor are the declared input width of the fusing
    conv block: 512+512=1024, 256+256=512, 128+128=256, 64+64=128.  The
    widths are those [__init__] declares, whatever the weights; a
    concatenation has the sum of the two channel counts, and in every run
    that returns the concatenated tensor of each depth has the width its
    fusing block declares. *)
Theorem decoder_concat_widths cin cout tr :
  let u := train tr (init cin cout) in
  (concat_fits (upconv3 u) (enc_conv3 u) (dec_conv3 u) 512 512 1024 /\
   concat_fits (upconv2 u) (enc_conv2 u) (dec_conv2 u) 256 256 512 /\
   concat_fits (upconv1 u) (enc_conv1 u) (dec_conv1 u) 128 128 256 /\
   concat_fits (upconv0 u) (enc_conv0 u) (dec_conv0 u) 64 64 128) /\
  (forall a b c, cat a b = Ok c -> channels c = channels a + channels b) /\
  (forall x l,
      forward_locals u x = Ok l ->
      block_in (dec_conv3 u) = Some (channels (cat3 l)) /\
      block_in (dec_conv2 u) = Some (channels (cat2 l)) /\
      block_in (dec_conv1 u) = Some (channels (cat1 l)) /\
      block_in (dec_conv0 u) = Some (channels (cat0 l))).
Proof.
  cbv zeta. split; [|split].
  - unfold concat_fits. repeat split; reflexivity.
  - exact cat_channels.
  - intros x l H. apply forward_locals_inv in H
      as (_ & (U3 & S3 & C3) & (U2 & S2 & C2) & (U1 & S1 & C1) & (U0 & S0 & C0) & _).
    unfold channels.
    rewrite C3, U3, S3, C2, U2, S2, C1, U1, S1, C0, U0, S0.
    rewrite !length_app, !length_features. repeat split; reflexivity.
Qed.

(** C6.  In every run of [forward] that reaches its [return], at each of
    the four decoder depths the concatenated tensor has the channels of
    the upsampled tensor first and those of the skip tensor after them,
    and that is not the reverse order. *)
Theorem decoder_concat_order cin cout tr x l :
  forward_locals (train tr (init cin cout)) x = Ok l ->
  (chans (cat3 l) = chans (up3 l) ++ chans (enc3 l) /\
   chans (cat3 l) <> chans (enc3 l) ++ chans (up3 l)) /\
  (chans (cat2 l) = chans (up2 l) ++ chans (enc2 l) /\
   chans (cat2 l) <> chans (enc2 l) ++ chans (up2 l)) /\
  (chans (cat1 l) = chans (up1 l) ++ chans (enc1 l) /\
   chans (cat1 l) <> chans (enc1 l) ++ chans (up1 l)) /\
  (chans (cat0 l) = chans (up0 l) ++ chans (enc0 l) /\
   chans (cat0 l) <> chans (enc0 l) ++ chans (up0 l)).
Proof.
  intros H. apply forward_locals_inv in H
    as (_ & (U3 & S3 & C3) & (U2 & S2 & C2) & (U1 & S1 & C1) & (U0 & S0 & C0) & _).
  repeat split; trivial.
  - rewrite C3, U3, S3. apply features_app_order; [discriminate | lia | lia].
  - rewrite C2, U2, S2. apply features_app_order; [discriminate | lia | lia].
  - rewrite C1, U1, S1. apply features_app_order; [discriminate | lia | lia].
  - rewrite C0, U0, S0. apply features_app_order; [discriminate | lia | lia].
Qed.

Lemma decoder_concat_order_16 :
  match forward_locals (eval (init 4 1)) (input 1 4 16 16) with
  | Ok l =>
      chans (cat3 l) = chans (up3 l) ++ chans (enc3 l) /\
      chans (cat0 l) = chans (up0 l) ++ chans (enc0 l)
  | Raise _ => False
  end.
Proof.
  destruct (forward_locals (eval (init 4 1)) (input 1 4 16 16)) as [l|e] eqn:E.
  - destruct (decoder_concat_order 4 1 false _ l E) as ((C3 & _) & _ & _ & (C0 & _)).
    split; assumption.
  - vm_compute in E. discriminate E.
Defined.

(** C8 as stated fails: on an 8x8 input the third pooling leaves a 1x1
    feature map and the fourth pooling raises; no concatenation is
    reached. *)
Lemma unet_forward_8_fails_in_pool :
  let x := input 1 4 8 8 in
  (height x mod 16 <> 0)%N /\
  forward (eval (init 4 1)) x = Raise (Attr "pool3", PoolOutputTooSmall).
Proof. vm_compute. split; [discriminate | reflexivity]. Qed.

(** C8 (amended).  For every input tensor with a height or width that is
    not divisible by 16, [forward] raises and returns no tensor.  When the
    network was built with a positive [in_channels], the input has
    [in_channels] channels and height and width at least 16 (and batch
    normalisation accepts the bottleneck), what is raised is the size
    mismatch of [torch.cat] at the deepest decoder depth whose skip tensor
    has an odd height or width. *)
Theorem unet_forward_indivisible cin cout tr x :
  (height x mod 16 <> 0)%N \/ (width x mod 16 <> 0)%N ->
  (exists e, forward (train tr (init cin cout)) x = Raise e) /\
  (0 < cin -> channels x = cin -> (16 <= height x)%N -> (16 <= width x)%N ->
   bn_passes tr (batch x) (height x) (width x) ->
   exists d, mismatch_depth (height x) (width x) = Some d /\ d < 4 /\
             even_at d (height x) (width x) = false /\
             forward (train tr (init cin cout)) x = Raise (Cat d, CatSizeMismatch)).
Proof.
  intros Hne. split.
  - destruct (forward (train tr (init cin cout)) x) as [y|e] eqn:E; [exfalso | eauto].
    unfold forward in E. apply bind_Ok_inv in E as (l & El & _).
    apply forward_locals_inv in El as ((_ & _ & Hh & _ & Hw) & _). tauto.
  - intros Hi Hc Hh Hw Hbn. rewrite forward_eval by trivial.
    destruct (mismatch_depth_indivisible _ _ Hne) as (d & -> & Hd & Hodd). eauto.
Qed.

Lemma unet_forward_indivisible_24 :
  (exists e, forward (eval (init 4 1)) (input 1 4 24 24) = Raise e) /\
  forward (eval (init 4 1)) (input 1 4 24 24) = Raise (Cat 3, CatSizeMismatch).
Proof.
  destruct (unet_forward_indivisible 4 1 false (input 1 4 24 24)) as [H1 H2].
  - left. vm_compute. discriminate.
  - split; [exact H1|].
    destruct H2 as (d & Hd & _ & _ & H2).
    + lia.
    + reflexivity.
    + vm_compute. discriminate.
    + vm_compute. discriminate.
    + left. reflexivity.
    + vm_compute in Hd. injection Hd as <-. exact H2.
Defined.

End UNetClaims.

(** ** The model registry *)

Section RegistryFacts.
Import Registry.

(** Induction on a module with the hypothesis for every sub-module. *)
Lemma Module_ind' (P : Module -> Prop)
      (step : forall c a ps cs, Forall (fun nc => P (snd nc)) cs -> P (Mod c a ps cs)) :
  forall m, P m.
Proof.
  fix IH 1. intros [c a ps cs]. apply step.
  induction cs as [|[n m] cs IHcs]; constructor; [apply IH | exact IHcs].
Qed.

Lemma in_named_parameters_Mod c a ps cs q p :
  In (q, p) (named_parameters (Mod c a ps cs)) <->
  (exists n, q = [n] /\ In (n, p) ps) \/
  (exists n m q', q = n :: q' /\ In (n, m) cs /\ In (q', p) (named_parameters m)).
Proof.
  cbn [named_parameters]. rewrite in_app_iff, in_map_iff, in_flat_map. split.
  - intros [([n p'] & [= <- <-] & Hin) | ([n m] & Hin & Hq)].
    + left. eauto.
    + right. apply in_map_iff in Hq as ([q' p'] & [= <- <-] & Hq). eauto 7.
  - intros [(n & -> & Hin) | (n & m & q' & -> & Hin & Hq)].
    + left. exists (n, p). auto.
    + right. exists (n, m). split; [trivial|].
      apply in_map_iff. exists (q', p). auto.
Qed.

(** After [for param in m.parameters(): param.requires_grad = b] every
    parameter of [m] has the flag [b]. *)
Lemma named_parameters_set_requires_grad b m :
  forall q p, In (q, p) (named_parameters (set_requires_grad b m)) -> requires_grad p = b.
Proof.
  induction m as [c a ps cs IH] using Module_ind'. intros q p Hin.
  cbn [set_requires_grad] in Hin. apply in_named_parameters_Mod in Hin.
  destruct Hin as [(n & -> & Hin) | (n & m & q' & -> & Hin & Hq)].
  - apply in_map_iff in Hin as ([n' p'] & [= <- <-] & _). reflexivity.
  - apply in_map_iff in Hin as ([n' m'] & [= <- <-] & Hin).
    exact (proj1 (List.Forall_forall _ _) IH _ Hin _ _ Hq).
Qed.

Lemma Sequential_2 a b :
  Sequential [a; b] = Mod "Sequential" [] [] [("0", a); ("1", b)].
Proof. reflexivity. Qed.

Lemma Sequential_4 a b c d :
  Sequential [a; b; c; d]
  = Mod "Sequential" [] [] [("0", a); ("1", b); ("2", c); ("3", d)].
Proof. reflexivity. Qed.

End RegistryFacts.

(** The membership of a parameter in a model whose top is explicit. *)
Ltac in_params H :=
  apply in_named_parameters_Mod in H;
  let n := fresh "n" in
  let m := fresh "m" in
  let q' := fresh "q" in
  let Hc := fresh "Hc" in
  destruct H as [(n & -> & H) | (n & m & q' & -> & Hc & H)];
  [ cbn [In] in H; repeat (destruct H as [[= <- <-] | H]); try contradiction
  | cbn [In] in Hc; repeat (destruct Hc as [[= <- <-] | Hc]); try contradiction ].

(** A parameter of a frozen feature extractor: not trainable, and not below
    any of the paths of the head. *)
Ltac frozen H :=
  apply named_parameters_set_requires_grad in H; rewrite H;
  vm_compute; split; discriminate.

Ltac trainable_cases H :=
  in_params H;
  try (frozen H);
  try (in_params H; try (frozen H));
  try (in_params H; try (frozen H));
  try (vm_compute; split; congruence).

Ltac unfold_zoo :=
  unfold Registry.get_model, Registry.dispatch, Registry.vit_b_16,
    Registry.vit_b_32, Registry.VisionTransformer, Registry.resnet101,
    Registry.resnet50, Registry.ResNet, Registry.efficientnet_b0,
    Registry.efficientnet_b4, Registry.EfficientNet,
    Registry.mobilenet_v3_large, Registry.densenet121;
  rewrite ?Sequential_2, ?Sequential_4.

Section RegistryDispatch.
Import Registry.

(** The dispatch returns a model for each of the eight tokens. *)
Lemma dispatch_supported trunk model_name num_classes pretrained :
  In model_name supported ->
  exists model, dispatch trunk model_name num_classes pretrained = Ok model.
Proof.
  cbn [In supported]. intros H.
  repeat (destruct H as [<- | H]); try contradiction;
    (eexists; unfold_zoo; cbn; reflexivity).
Qed.

(** With [freeze=True], each of the eight tokens yields a model, the new
    [nn.Linear] sits at [head_path], and the trainable parameters are
    exactly those below [unfrozen]. *)
Lemma get_model_frozen_supported trunk model_name num_classes pretrained :
  In model_name supported ->
  exists model,
    get_model trunk model_name num_classes pretrained true = Ok model /\
    (exists in_features,
        submodule (head_path model_name) model
        = Some (Linear in_features num_classes)) /\
    trainable_exactly (unfrozen model_name) model.
Proof.
  cbn [In supported]. intros H.
  repeat (destruct H as [<- | H]); try contradiction;
    (eexists; split; [unfold_zoo; cbn; reflexivity|]; split;
     [ eexists; reflexivity | intros q p Hin; trainable_cases Hin ]).
Qed.

(** A token outside the eight falls through every branch of the dispatch. *)
Lemma dispatch_unsupported trunk model_name num_classes pretrained :
  ~ In model_name supported ->
  dispatch trunk model_name num_classes pretrained = Raise (unsupported model_name).
Proof.
  intros H. unfold dispatch.
  repeat match goal with
         | |- context [String.eqb model_name ?s] =>
             destruct (String.eqb_spec model_name s) as [->|_];
             [exfalso; apply H; cbn [In supported]; tauto|]
         end.
  reflexivity.
Qed.

End RegistryDispatch.

Section RegistryClaims.
Import Registry.

(** C1 as stated fails for MobileNetV3: [get_model] puts the new layer at
    [classifier[3]] and then unfreezes all of [model.classifier], whose
    first element is a linear layer too. *)
Lemma mobilenet_classifier_0_trainable :
  exists model,
    get_model toy_trunk "MobileNetV3" 1 true true = Ok model /\
    In ["classifier"; "0"; "weight"] (trainable model) /\
    ~ trainable_exactly [head_path "MobileNetV3"] model.
Proof.
  eexists. split; [vm_compute; reflexivity|]. split.
  - vm_compute. auto.
  - intros H.
    specialize (H ["classifier"; "0"; "weight"] (mkParam [1280; 960] true)).
    vm_compute in H. destruct H as [H _]; [tauto|]. specialize (H eq_refl). discriminate H.
Qed.

(** C1 (amended).  For every supported token except MobileNetV3,
    [get_model] with [freeze=True] returns a model in which exactly the
    parameters of the newly substituted final linear layer have
    [requires_grad] true, and every other parameter has it false. *)
Theorem get_model_freeze_trainable trunk model_name num_classes pretrained :
  In model_name supported ->
  model_name <> "MobileNetV3" ->
  exists model,
    get_model trunk model_name num_classes pretrained true = Ok model /\
    (exists in_features,
        submodule (head_path model_name) model
        = Some (Linear in_features num_classes)) /\
    trainable_exactly [head_path model_name] model.
Proof.
  intros Hs Hne.
  destruct (get_model_frozen_supported trunk model_name num_classes pretrained Hs)
    as (model & Hm & Hh & Ht).
  exists model. split; [exact Hm|]. split; [exact Hh|].
  unfold unfrozen in Ht.
  destruct (String.eqb_spec model_name "MobileNetV3"); [contradiction | exact Ht].
Qed.

Lemma get_model_freeze_trainable_resnet :
  exists model,
    get_model toy_trunk "ResNet50" 1 true true = Ok model /\
    (exists in_features, submodule ["fc"] model = Some (Linear in_features 1)) /\
    trainable_exactly [["fc"]] model.
Proof.
  apply (get_model_freeze_trainable toy_trunk "ResNet50" 1 true).
  - vm_compute. tauto.
  - discriminate.
Defined.

(** C3.  [get_model] returns a model for each of the eight architecture
    tokens; for any other token it raises the unsupported-architecture
    [ValueError], whose message ends with the token, and returns no model. *)
Theorem get_model_dispatch trunk model_name num_classes pretrained freeze :
  (In model_name supported ->
   exists model, get_model trunk model_name num_classes pretrained freeze = Ok model) /\
  (~ In model_name supported ->
   get_model trunk model_name num_classes pretrained freeze
   = Raise (ValueError ("Unsupported model architecture: " +:+ model_name))).
Proof.
  split; intros H.
  - destruct freeze.
    + destruct (get_model_frozen_supported trunk model_name num_classes pretrained H)
        as (model & Hm & _). eauto.
    + destruct (dispatch_supported trunk model_name num_classes pretrained H)
        as (model & Hm). exists model. unfold get_model. now rewrite Hm.
  - unfold get_model. now rewrite dispatch_unsupported.
Qed.

Lemma get_model_dispatch_examples :
  (exists model, get_model toy_trunk "ViT32" 1 true true = Ok model) /\
  get_model toy_trunk "Bogus" 1 true true
  = Raise (ValueError "Unsupported model architecture: Bogus").
Proof.
  split.
  - apply (get_model_dispatch toy_trunk "ViT32" 1 true true). vm_compute. tauto.
  - apply (get_model_dispatch toy_trunk "Bogus" 1 true true).
    vm_compute. intuition discriminate.
Defined.

(** C10.  With one of the eight supported tokens and [freeze=True], the
    branch that raises "Cannot find the classifier head to unfreeze." is
    not reached: the model the dispatch built has the attribute the
    unfreezing looks up, and [get_model] returns it. *)
Theorem cannot_find_head_unreachable trunk model_name num_classes pretrained :
  In model_name supported ->
  exists model model',
    dispatch trunk model_name num_classes pretrained = Ok model /\
    (if String.prefix "ViT" model_name
     then submodule ["heads"; "head"] model <> None
     else hasattr model "fc" || hasattr model "classifier" = true) /\
    freeze_backbone model_name model = Ok model' /\
    get_model trunk model_name num_classes pretrained true = Ok model' /\
    get_model trunk model_name num_classes pretrained true <> Raise cannot_find_head.
Proof.
  cbn [In supported]. intros H.
  repeat (destruct H as [<- | H]); try contradiction;
    (do 2 eexists; split; [unfold_zoo; cbn; reflexivity|]; split;
     [ cbn; try reflexivity; discriminate
     | split; [cbn; reflexivity|]; split;
       [ unfold_zoo; cbn; reflexivity | unfold_zoo; cbn; discriminate ] ]).
Qed.

Lemma cannot_find_head_unreachable_densenet :
  get_model toy_trunk "DenseNet121" 1 true true <> Raise cannot_find_head.
Proof.
  destruct (cannot_find_head_unreachable toy_trunk "DenseNet121" 1 true)
    as (model & model' & _ & _ & _ & _ & H).
  - vm_compute. tauto.
  - exact H.
Defined.

End RegistryClaims.

(** ** The custom score *)

Section ScoreClaims.
Import Score.

Variable int_ : np_int.

Local Abbreviation np_sum := (np_sum int_).
Local Abbreviation np_mul := (np_mul int_).
Local Abbreviation calculate_custom_score := (calculate_custom_score int_).

Lemma length_np_eq a v : length (np_eq a v) = length a.
Proof. apply length_map. Qed.

Lemma np_and_broadcastable a b :
  broadcastable (length a) (length b) -> exists m, np_and a b = Ok m.
Proof.
  unfold np_and. intros [H | [H | H]].
  - rewrite H, Nat.eqb_refl. eauto.
  - destruct (length a =? length b)%nat; [eauto|].
    destruct a as [|x [|y a]]; try discriminate. eauto.
  - destruct (length a =? length b)%nat; [eauto|].
    destruct b as [|x [|y b]]; try discriminate.
    destruct a as [|x' [|y' a]]; eauto.
Qed.

Lemma count_true_nonneg m : (0 <= count_true m)%Z.
Proof. unfold count_true. lia. Qed.

Lemma count_true_le_length m : (count_true m <= Z.of_nat (length m))%Z.
Proof. unfold count_true. pose proof (List.filter_length_le (fun b => b) m). lia. Qed.

(** A value in the range of the type is not changed by wrapping. *)
Lemma wrap_small z :
  (- 2 ^ (bits int_ - 1) <= z < 2 ^ (bits int_ - 1))%Z -> wrap int_ z = z.
Proof.
  unfold wrap. intros H.
  assert (E : (2 ^ bits int_ = 2 * 2 ^ (bits int_ - 1))%Z) by (destruct int_; reflexivity).
  rewrite E. rewrite Z.mod_small by lia. lia.
Qed.

Lemma wrap_0 : wrap int_ 0 = 0%Z.
Proof. destruct int_; reflexivity. Qed.

Lemma max_len_fits n m :
  (0 <= n)%Z -> (0 <= m)%Z -> (n + m <= max_len int_)%Z ->
  (n < 2 ^ (bits int_ - 1) /\ m < 2 ^ (bits int_ - 1) /\
   n * m < 2 ^ (bits int_ - 1))%Z.
Proof.
  intros Hn Hm H.
  assert (Hs : (max_len int_ * max_len int_ < 2 ^ (bits int_ - 1))%Z)
    by (destruct int_; reflexivity).
  assert (Hp : (0 < max_len int_)%Z) by (destruct int_; reflexivity).
  assert (n * m <= max_len int_ * max_len int_)%Z by (apply Z.mul_le_mono_nonneg; lia).
  assert (max_len int_ <= max_len int_ * max_len int_)%Z by nia.
  lia.
Qed.

(** An entry cannot be both 0 and 1. *)
Lemma count_true_classes_le (y : list Z) :
  (count_true (np_eq y 0) + count_true (np_eq y 1) <= Z.of_nat (length y))%Z.
Proof.
  unfold np_eq, count_true.
  induction y as [|v y IH]; cbn [map length List.filter]; [lia|].
  destruct (Z.eqb_spec v 0), (Z.eqb_spec v 1); cbn [length]; lia.
Qed.

(** For an array short enough, the two class counts and their product are
    what numpy holds for them. *)
Lemma class_counts_exact (y : list Z) :
  (Z.of_nat (length y) <= max_len int_)%Z ->
  np_sum (np_eq y 0) = count_true (np_eq y 0) /\
  np_sum (np_eq y 1) = count_true (np_eq y 1) /\
  np_mul (count_true (np_eq y 0)) (count_true (np_eq y 1))
  = (count_true (np_eq y 0) * count_true (np_eq y 1))%Z.
Proof.
  intros Hl.
  pose proof (count_true_classes_le y) as Hc.
  pose proof (count_true_nonneg (np_eq y 0)) as H0.
  pose proof (count_true_nonneg (np_eq y 1)) as H1.
  destruct (max_len_fits _ _ H0 H1) as (F0 & F1 & F); [lia|].
  assert (0 < 2 ^ (bits int_ - 1))%Z by (destruct int_; reflexivity).
  unfold Score.np_sum, Score.np_mul.
  rewrite !wrap_small; [auto | nia | lia | lia].
Qed.

(** C9 (amended).  For label arrays that numpy can combine (of one length,
    or one of them of length 1), [calculate_custom_score] returns the
    literal [0.0] whenever there is no actual class-0 sample or no actual
    class-1 sample.  For a truth array of at most [max_len] entries (46340
    with 32-bit counts, 3037000499 with 64-bit counts), a quotient is only
    ever formed over [n0 * n1] with both factors positive and the product
    not wrapped, so its denominator is positive. *)
Theorem calculate_custom_score_guard y_true y_pred :
  (broadcastable (length y_true) (length y_pred) ->
   count_true (np_eq y_true 0) = 0%Z \/ count_true (np_eq y_true 1) = 0%Z ->
   calculate_custom_score y_true y_pred = Ok Literal_0_0) /\
  ((Z.of_nat (length y_true) <= max_len int_)%Z ->
   forall num den,
      calculate_custom_score y_true y_pred = Ok (TrueDivide num den) ->
      den = (count_true (np_eq y_true 0) * count_true (np_eq y_true 1))%Z /\
      (0 < count_true (np_eq y_true 0))%Z /\ (0 < count_true (np_eq y_true 1))%Z /\
      (0 < den)%Z).
Proof.
  unfold Score.calculate_custom_score.
  pose proof (count_true_nonneg (np_eq y_true 0)) as H0.
  pose proof (count_true_nonneg (np_eq y_true 1)) as H1.
  split.
  - intros Hb Hz.
    destruct (np_and_broadcastable (np_eq y_true 0) (np_eq y_pred 0)) as [m0 ->];
      [now rewrite !length_np_eq|].
    destruct (np_and_broadcastable (np_eq y_true 1) (np_eq y_pred 1)) as [m1 ->];
      [now rewrite !length_np_eq|].
    cbn [bind]. unfold Score.np_sum.
    destruct Hz as [-> | ->]; rewrite wrap_0; [reflexivity | now rewrite orb_true_r].
  - intros Hl num den H.
    destruct (class_counts_exact y_true Hl) as (E0 & E1 & Em).
    apply bind_Ok_inv in H as (m0 & _ & H). apply bind_Ok_inv in H as (m1 & _ & H).
    rewrite E0, E1 in H.
    destruct (Z.eqb_spec (count_true (np_eq y_true 0)) 0) as [Z0|Z0]; cbn [orb] in H;
      [discriminate|].
    destruct (Z.eqb_spec (count_true (np_eq y_true 1)) 0) as [Z1|Z1]; [discriminate|].
    injection H as _ <-. rewrite Em. repeat split; nia.
Qed.

End ScoreClaims.

Lemma calculate_custom_score_no_class_0 :
  Score.calculate_custom_score Score.int64 [1; 1]%Z [0; 1]%Z = Ok Score.Literal_0_0 /\
  (forall num den,
      Score.calculate_custom_score Score.int32 [0; 1; 1; 0]%Z [0; 1; 0; 0]%Z
      = Ok (Score.TrueDivide num den) ->
      (0 < den)%Z).
Proof.
  split.
  - apply (proj1 (calculate_custom_score_guard Score.int64 [1; 1]%Z [0; 1]%Z)).
    + left. reflexivity.
    + left. reflexivity.
  - intros num den H.
    apply (proj2 (calculate_custom_score_guard Score.int32 [0; 1; 1; 0]%Z [0; 1; 0; 0]%Z)
                 ltac:(vm_compute; discriminate) num den H).
Defined.

(** C9 as stated fails, in both of its halves.  With no class-0 sample in
    the truth array, arrays of lengths 2 and 3 make [&] raise: nothing is
    returned.  And with 32-bit counts, 65536 samples of each class give
    [n0 * n1 = 2^32], which wraps to 0: the guard is passed and the quotient
    is formed over a zero denominator. *)
Lemma calculate_custom_score_guard_fails :
  (Score.count_true (Score.np_eq [1; 1]%Z 0) = 0%Z /\
   Score.calculate_custom_score Score.int64 [1; 1]%Z [0; 1; 1]%Z
   = Raise Score.cannot_broadcast /\
   Score.calculate_custom_score Score.int32 [1; 1]%Z [0; 1; 1]%Z
   = Raise Score.cannot_broadcast) /\
  (let y := (repeat 0 (Z.to_nat 65536) ++ repeat 1 (Z.to_nat 65536))%Z in
   Score.calculate_custom_score Score.int32 y y = Ok (Score.TrueDivide 0 0)).
Proof. vm_compute. auto. Qed.

(** ** Saving an image *)

Section TifClaims.
Import Tif.
Local Open Scope Z_scope.

Lemma astype_uint16_range z : 0 <= astype_uint16 z < 65536.
Proof. unfold astype_uint16. lia. Qed.

Lemma astype_uint16_id z : 0 <= z < 65536 -> astype_uint16 z = z.
Proof. unfold astype_uint16. lia. Qed.

(** Two bytes hold a 16-bit sample. *)
Lemma decode_encode_I16 v : decode_I16 (encode_I16 v) = v.
Proof. unfold decode_I16, encode_I16. cbn [fst snd]. lia. Qed.

Lemma encode_I16_bytes z :
  is_byte (fst (encode_I16 (astype_uint16 z))) /\
  is_byte (snd (encode_I16 (astype_uint16 z))).
Proof.
  pose proof (astype_uint16_range z).
  unfold is_byte, encode_I16. cbn [fst snd]. lia.
Qed.

Lemma encode_I16_rows (rows : list (list Z)) :
  Forall (Forall (fun b => is_byte (fst b) /\ is_byte (snd b)))
         (map (map encode_I16) (map (map astype_uint16) rows)).
Proof.
  rewrite map_map. apply List.Forall_forall. intros r Hr.
  apply in_map_iff in Hr as (row & <- & _). rewrite map_map.
  apply List.Forall_forall. intros b Hb.
  apply in_map_iff in Hb as (z & <- & _). apply encode_I16_bytes.
Qed.

Lemma decode_encode_rows (rows : list (list Z)) :
  map (map decode_I16) (map (map encode_I16) rows) = rows.
Proof.
  rewrite map_map. rewrite <- (map_id rows) at 2. apply map_ext. intros row.
  rewrite map_map. rewrite <- (map_id row) at 2. apply map_ext, decode_encode_I16.
Qed.

(** A save that returned: the target could be opened, the image has a
    pixel, and the file is the only change. *)
Lemma pil_save_Ok leftover rows path fs fs' :
  pil_save leftover rows path fs = (Ok tt, fs') <->
  writable fs path = true /\ no_pixels rows = false /\
  fs' = mkFS (writable fs) (<[path := mkTiff "I;16" (map (map encode_I16) rows)]> (files fs)).
Proof.
  unfold pil_save. destruct (writable fs path); [|split; [discriminate | intros (? & _); discriminate]].
  destruct (no_pixels rows); [split; [discriminate | intros (_ & ? & _); discriminate]|].
  split; [intros [= <-]; auto | intros (_ & _ & ->); reflexivity].
Qed.

Lemma read_tif_pil_save leftover rows path fs fs' :
  pil_save leftover rows path fs = (Ok tt, fs') -> read_tif path fs' = Some rows.
Proof.
  intros H. apply pil_save_Ok in H as (_ & _ & ->).
  unfold read_tif. cbn [files]. rewrite lookup_insert_eq. cbn [tif_rows].
  now rewrite decode_encode_rows.
Qed.

(** The file system after a save that returned. *)
Lemma save_image_as_tif_Ok cvtColor_BGR2GRAY leftover image path fs fs' :
  save_image_as_tif cvtColor_BGR2GRAY leftover image path fs = (Ok tt, fs') <->
  exists a gray,
    image = VArray a /\ to_gray cvtColor_BGR2GRAY a = Ok gray /\
    writable fs path = true /\ no_pixels gray = false /\
    fs' = mkFS (writable fs)
               (<[path := mkTiff "I;16"
                                 (map (map encode_I16) (map (map astype_uint16) gray))]>
                  (files fs)).
Proof.
  assert (Hn : forall gray, no_pixels (map (map astype_uint16) gray) = no_pixels gray).
  { intros [|row gray]; [reflexivity|]. unfold no_pixels.
    cbn [map hd length]. now rewrite !length_map. }
  split.
  - destruct image as [| | |a]; cbn [save_image_as_tif]; try discriminate.
    destruct (to_gray cvtColor_BGR2GRAY a) as [gray|e] eqn:Hg; [|discriminate].
    intros H. apply pil_save_Ok in H as (Hw & Hp & ->). rewrite Hn in Hp. eauto 8.
  - intros (a & gray & -> & Hg & Hw & Hp & ->). cbn [save_image_as_tif].
    rewrite Hg. apply pil_save_Ok. rewrite Hn. auto.
Qed.

Lemma astype_uint16_rows (rows : list (list Z)) :
  Forall (Forall (fun v => 0 <= v < 65536)) rows ->
  map (map astype_uint16) rows = rows.
Proof.
  intros H. rewrite <- (map_id rows) at 2. apply map_ext_in. intros row Hrow.
  rewrite <- (map_id row) at 2. apply map_ext_in. intros v Hv.
  apply astype_uint16_id.
  rewrite List.Forall_forall in H. specialize (H row Hrow).
  rewrite List.Forall_forall in H. exact (H v Hv).
Qed.

(** C7 as stated fails: a pixel of 65536 (an int32 array, say) is written
    as 0. *)
Lemma save_image_as_tif_wraps :
  let fs := mkFS (fun _ => true) ∅ in
  exists fs',
    save_image_as_tif no_color nothing_left (VArray (Array2 [[65536]])) "image.tif" fs
    = (Ok tt, fs') /\
    read_tif "image.tif" fs' = Some [[0]] /\
    read_tif "image.tif" fs' <> Some [[65536]].
Proof.
  cbv zeta.
  exists (mkFS (fun _ => true)
               (<["image.tif" := mkTiff "I;16" [[encode_I16 (astype_uint16 65536)]]]> ∅)).
  split; [reflexivity|].
  unfold read_tif. cbn [files]. rewrite lookup_insert_eq.
  split; [reflexivity | discriminate].
Qed.

(** C7 (amended).  For every integer-valued image that [save_image_as_tif]
    saves, re-reading the written file yields a single-channel 16-bit image
    whose pixels are those of the input -- after the grayscale conversion
    when the input has three dimensions -- reduced modulo 2^16; it equals
    the (converted) input when every pixel lies in 0..65535. *)
Theorem save_image_as_tif_round_trip cvtColor_BGR2GRAY leftover image path fs fs' :
  save_image_as_tif cvtColor_BGR2GRAY leftover (VArray image) path fs = (Ok tt, fs') ->
  exists gray,
    to_gray cvtColor_BGR2GRAY image = Ok gray /\
    (ndim image = 2%nat -> image = Array2 gray) /\
    (exists f, files fs' !! path = Some f /\ tif_mode f = "I;16" /\
               Forall (Forall (fun b => is_byte (fst b) /\ is_byte (snd b))) (tif_rows f)) /\
    read_tif path fs' = Some (map (map astype_uint16) gray) /\
    (Forall (Forall (fun v => 0 <= v < 65536)) gray -> read_tif path fs' = Some gray).
Proof.
  intros H. apply save_image_as_tif_Ok in H as (a & gray & [= <-] & Hg & Hw & Hp & ->).
  exists gray. split; [exact Hg|]. split.
  { destruct image; cbn [ndim to_gray] in *; [congruence | discriminate]. }
  assert (Hr : read_tif path
                 (mkFS (writable fs)
                       (<[path := mkTiff "I;16" (map (map encode_I16)
                                                     (map (map astype_uint16) gray))]>
                          (files fs)))
               = Some (map (map astype_uint16) gray)).
  { unfold read_tif. cbn [files]. rewrite lookup_insert_eq. cbn [tif_rows].
    now rewrite decode_encode_rows. }
  split.
  { cbn [files]. rewrite lookup_insert_eq.
    eexists. split; [reflexivity|]. split; [reflexivity|]. apply encode_I16_rows. }
  split; [exact Hr|].
  intros Hv. now rewrite Hr, astype_uint16_rows.
Qed.

Lemma save_image_as_tif_round_trip_gray :
  let fs := mkFS (fun _ => true) ∅ in
  exists fs',
    save_image_as_tif no_color nothing_left
                      (VArray (Array2 [[0; 255]; [256; 65535]])) "image.tif" fs
    = (Ok tt, fs') /\
    read_tif "image.tif" fs' = Some [[0; 255]; [256; 65535]].
Proof.
  cbv zeta. eexists. split; [reflexivity|].
  destruct (save_image_as_tif_round_trip no_color nothing_left
              (Array2 [[0; 255]; [256; 65535]]) "image.tif"
              (mkFS (fun _ => true) ∅) _ eq_refl)
    as (gray & Hg & _ & _ & _ & H).
  injection Hg as <-. apply H.
  repeat constructor; lia.
Defined.

End TifClaims.

(** ** The prediction endpoint *)

Section ApiClaims.
Import Tif Api.

Variable load_sample : string -> result exn (gmap string value).
Variable predict : ndarray -> result exn value.
Variable to_int : value -> result exn Z.
Variable cvtColor_BGR2GRAY : list (list (list Z)) -> result exn (list (list Z)).
Variable leftover : option TiffFile -> option TiffFile.

Local Abbreviation try_body :=
  (try_body load_sample predict to_int cvtColor_BGR2GRAY leftover).
Local Abbreviation post_predict :=
  (post_predict load_sample predict to_int cvtColor_BGR2GRAY leftover).
Local Abbreviation success :=
  (success load_sample predict to_int cvtColor_BGR2GRAY leftover).
Local Abbreviation failure :=
  (failure load_sample predict to_int cvtColor_BGR2GRAY leftover).

(** The outcome of the [try] block is the outcome of its first step that
    raises, or the validated prediction when none does. *)
Lemma try_body_outcome request w :
  match fst (try_body request w) with
  | Ok response => success request w (is_homogenous response)
  | Raise e => failure request w e
  end.
Proof.
  unfold Api.try_body, bindM, lift, raise, ret, now, logger, on_disk.
  destruct (load_sample (cell request)) as [sample|e] eqn:Hl; cbn [fst];
    [|now apply decode_failure].
  destruct (sample !! "image") as [v|] eqn:Hi;
    [|cbn [fst]; eapply no_image; eauto].
  destruct v as [|z|s|image]; cbn [fst].
  - eapply no_image; eauto.
  - eapply not_an_array; eauto; discriminate.
  - eapply not_an_array; eauto; discriminate.
  - cbn [disk clock].
    destruct (save_image_as_tif _ _ _ _ _) as [[[]|e] fs'] eqn:Hs; cbn [fst];
      [|eapply save_failure; eauto].
    destruct (predict image) as [v|e] eqn:Hp; cbn [fst];
      [|eapply prediction_failure; eauto].
    destruct (to_int v) as [z|e] eqn:Hv; cbn [fst];
      [|eapply response_failure; eauto].
    cbn [is_homogenous]. unfold Api.success. eauto 10.
Qed.

Lemma post_predict_outcome request w :
  post_predict request w
  = match fst (try_body request w) with
    | Ok response => (200%Z, [("is_homogenous", JInt (is_homogenous response))])
    | Raise e => (400%Z, [("detail", JStr (exn_msg e))])
    end.
Proof.
  unfold Api.post_predict, predict_endpoint.
  destruct (try_body request w) as [[response|e] w']; reflexivity.
Qed.

(** The steps are functions: a request in a world has one outcome. *)
Lemma success_failure_exclusive request w z e :
  success request w z -> failure request w e -> False.
Proof.
  intros (sample & image & fs' & v & Hl & Hi & Hs & Hp & Hv) Hf.
  destruct Hf as [e He | s He Hn | s v' He Hi' Hn Ha | s i e fs He Hi' Hs'
                 | s i fs e He Hi' Hs' Hp' | s i fs v' e He Hi' Hs' Hp' Hv'];
    rewrite Hl in He; try discriminate; injection He as <-.
  - destruct Hn as [Hn|Hn]; rewrite Hi in Hn; discriminate.
  - rewrite Hi in Hi'. injection Hi' as <-. now apply (Ha image).
  - rewrite Hi in Hi'. injection Hi' as <-. rewrite Hs in Hs'. discriminate.
  - rewrite Hi in Hi'. injection Hi' as <-. rewrite Hp in Hp'. discriminate.
  - rewrite Hi in Hi'. injection Hi' as <-. rewrite Hp in Hp'. injection Hp' as <-.
    rewrite Hv in Hv'. discriminate.
Qed.

Lemma failure_functional request w e e' :
  failure request w e -> failure request w e' -> exn_msg e = exn_msg e'.
Proof.
  intros Hf Hf'.
  destruct Hf as [e He | s He Hn | s v He Hi Hn Ha | s i e fs He Hi Hs
                 | s i fs e He Hi Hs Hp | s i fs v e He Hi Hs Hp Hv];
    destruct Hf' as [e' He' | s' He' Hn' | s' v' He' Hi' Hn' Ha' | s' i' e' fs' He' Hi' Hs'
                    | s' i' fs' e' He' Hi' Hs' Hp' | s' i' fs' v' e' He' Hi' Hs' Hp' Hv'];
    rewrite He in He'; try discriminate; try injection He' as <-;
    try reflexivity; try congruence;
    try (destruct Hn as [Hn|Hn]; congruence);
    try (destruct Hn' as [Hn'|Hn']; congruence);
    try (rewrite Hi in Hi'; injection Hi' as <-; congruence);
    try (rewrite Hi in Hi'; injection Hi' as <-; now destruct (Ha _ eq_refl));
    try (rewrite Hi in Hi'; injection Hi' as ->; now destruct (Ha' _ eq_refl)).
Qed.

(** C5.  Every POST /predict is answered in one of two ways: when every
    step of the pipeline goes through, status 200 with the body
    [{is_homogenous: z}]; when a step raises -- decoding, the check of the
    decoded object, saving the image, predicting, building the response --
    status 400 with the body [{detail: message}], the message of what was
    raised and nothing else about its kind. *)
Theorem post_predict_uniform request w :
  ((exists z, success request w z) \/ (exists e, failure request w e)) /\
  (forall z, success request w z ->
             post_predict request w = (200%Z, [("is_homogenous", JInt z)])) /\
  (forall e, failure request w e ->
             post_predict request w = (400%Z, [("detail", JStr (exn_msg e))])).
Proof.
  pose proof (try_body_outcome request w) as H.
  rewrite post_predict_outcome.
  destruct (fst (try_body request w)) as [response|e].
  - split; [eauto|]. split.
    + intros z Hz. destruct H as (s & i & fs & v & Hl & Hi & Hs & Hp & Hv).
      destruct Hz as (s' & i' & fs' & v' & Hl' & Hi' & Hs' & Hp' & Hv').
      congruence.
    + intros e He. destruct (success_failure_exclusive _ _ _ _ H He).
  - split; [eauto|]. split.
    + intros z Hz. destruct (success_failure_exclusive _ _ _ _ Hz H).
    + intros e' He'. now rewrite (failure_functional _ _ _ _ H He').
Qed.

End ApiClaims.

Lemma post_predict_uniform_demo :
  Api.post_predict Api.demo_load_sample Api.demo_predict Api.demo_to_int Tif.no_color
                   Tif.nothing_left (Api.mkRequest "not base64") Api.demo_world
  = (400%Z, [("detail", Api.JStr "Incorrect padding")]) /\
  Api.post_predict Api.demo_load_sample Api.demo_predict Api.demo_to_int Tif.no_color
                   Tif.nothing_left (Api.mkRequest "iVBORw0KGgo=") Api.demo_world
  = (200%Z, [("is_homogenous", Api.JInt 1)]).
Proof.
  split.
  - apply (proj2 (proj2 (post_predict_uniform
                           Api.demo_load_sample Api.demo_predict Api.demo_to_int
                           Tif.no_color Tif.nothing_left
                           (Api.mkRequest "not base64") Api.demo_world))
                 (mkExn "binascii.Error" "Incorrect padding")).
    apply Api.decode_failure. reflexivity.
  - apply (proj1 (proj2 (post_predict_uniform
                           Api.demo_load_sample Api.demo_predict Api.demo_to_int
                           Tif.no_color Tif.nothing_left
                           (Api.mkRequest "iVBORw0KGgo=") Api.demo_world))).
    exists {[ "image" := Tif.VArray (Tif.Array2 [[0; 1]; [2; 3]]%Z) ]},
           (Tif.Array2 [[0; 1]; [2; 3]]%Z).
    do 2 eexists. split; [reflexivity|]. split; [apply lookup_singleton_eq|].
    split; [reflexivity|]. split; reflexivity.
Defined.

(** * Further properties *)

(** ** Runs of [forward] *)

Section UNetRunFacts.
Import Torch UNetModel UNetRuns.

(** What a conv block of positive widths does, in full: it checks the
    channel count, then that the 3x3 kernel fits, then (when training) that
    batch normalisation has more than one value per channel. *)
Lemma conv_block_eval tr name cin cout t :
  0 < cin -> 0 < cout ->
  sequential tr (conv_block name cin cout) t
  = if negb (channels t =? cin)%nat then Raise (ChannelMismatch cin (channels t))
    else if ((height t =? 0) || (width t =? 0))%N then Raise KernelTooLarge
    else if tr && (batch t * height t * width t =? 1)%N then Raise BatchNormOneValue
    else Ok (mkTensor (batch t) (features (name +:+ ".3") cout) (height t) (width t)).
Proof.
  intros Hi Ho.
  assert (Eo : (cout =? 0)%nat = false) by (apply Nat.eqb_neq; lia).
  destruct (Nat.eqb_spec (channels t) cin) as [Hc|Hc]; cbn [negb].
  2:{ unfold conv_block. cbn [sequential apply_layer]. rewrite Eo.
      destruct (Nat.eqb_spec (channels t) cin); [contradiction|]. reflexivity. }
  destruct (N.eqb_spec (height t) 0) as [Hh|Hh]; cbn [orb].
  { unfold conv_block. cbn [sequential apply_layer].
    rewrite Eo, Hc, Nat.eqb_refl. cbn [negb]. rewrite Hh. reflexivity. }
  destruct (N.eqb_spec (width t) 0) as [Hw|Hw].
  { unfold conv_block. cbn [sequential apply_layer].
    rewrite Eo, Hc, Nat.eqb_refl. cbn [negb].
    rewrite Hw. destruct (_ <? _)%N; reflexivity. }
  destruct (tr && (batch t * height t * width t =? 1)%N) eqn:Hbn.
  - unfold conv_block. cbn [sequential].
    rewrite conv2d_ok by (trivial; lia). cbn [bind].
    rewrite relu_ok, !conv_out_same. cbn [bind apply_layer batch height width].
    now rewrite Hbn.
  - apply conv_block_ok; trivial; try lia.
    unfold bn_accepts. destruct tr; [right|now left].
    cbn [andb] in Hbn. now apply N.eqb_neq.
Qed.

(** A conv block declared without input channels: the first convolution
    hands a tensor without channels on, batch normalisation lets it pass,
    and the second convolution refuses it. *)
Lemma conv_block_eval_no_input tr name cout t :
  0 < cout ->
  sequential tr (conv_block name 0 cout) t
  = if negb (channels t =? 0)%nat then Raise (ChannelMismatch 0 (channels t))
    else if ((height t =? 0) || (width t =? 0))%N then Raise KernelTooLarge
    else if tr && (batch t * height t * width t =? 1)%N then Raise BatchNormOneValue
    else Raise (ChannelMismatch cout 0).
Proof.
  intros Ho.
  assert (Eo : (cout =? 0)%nat = false) by (apply Nat.eqb_neq; lia).
  destruct (Nat.eqb_spec (channels t) 0) as [Hc|Hc]; cbn [negb].
  2:{ unfold conv_block. cbn [sequential apply_layer]. rewrite Eo.
      destruct (Nat.eqb_spec (channels t) 0); [contradiction|]. reflexivity. }
  destruct (N.eqb_spec (height t) 0) as [Hh|Hh]; cbn [orb].
  { unfold conv_block. cbn [sequential apply_layer].
    rewrite Eo, Hc. cbn [Nat.eqb negb]. rewrite Hh. reflexivity. }
  destruct (N.eqb_spec (width t) 0) as [Hw|Hw].
  { unfold conv_block. cbn [sequential apply_layer].
    rewrite Eo, Hc. cbn [Nat.eqb negb].
    rewrite Hw. destruct (_ <? _)%N; reflexivity. }
  unfold conv_block. cbn [sequential].
  rewrite conv2d_no_input by (trivial; lia). cbn [bind].
  rewrite relu_ok, !conv_out_same. cbn [bind].
  destruct (tr && (batch t * height t * width t =? 1)%N) eqn:Hbn.
  - cbn [apply_layer batch height width]. now rewrite Hbn.
  - rewrite batchnorm_empty; [| |reflexivity].
    + cbn [bind apply_layer]. rewrite Eo. unfold channels. cbn [chans length].
      destruct (Nat.eqb_spec 0 cout); [lia|]. reflexivity.
    + cbn [batch height width]. unfold bn_accepts.
      destruct tr; [right|now left]. cbn [andb] in Hbn. now apply N.eqb_neq.
Qed.

Lemma maxpool2_eval tr t :
  channels t <> 0 -> (1 <= height t)%N -> (1 <= width t)%N ->
  apply_layer tr (MaxPool2d 2) t
  = if ((height t <? 2) || (width t <? 2))%N then Raise PoolOutputTooSmall
    else Ok (mkTensor (batch t) (chans t) (height t / 2) (width t / 2)).
Proof.
  intros Hc Hh Hw.
  destruct (N.ltb_spec (height t) 2) as [H2|H2]; cbn [orb].
  - cbn [apply_layer]. rewrite !pool_out_2.
    destruct (Nat.eqb_spec (channels t) 0); [contradiction|].
    destruct (N.eqb_spec (height t) 0); [lia|].
    destruct (N.eqb_spec (width t) 0); [lia|]. cbn [orb].
    destruct (N.eqb_spec (height t / 2) 0); [reflexivity | lia].
  - destruct (N.ltb_spec (width t) 2) as [W2|W2].
    + cbn [apply_layer]. rewrite !pool_out_2.
      destruct (Nat.eqb_spec (channels t) 0); [contradiction|].
      destruct (N.eqb_spec (height t) 0); [lia|].
      destruct (N.eqb_spec (width t) 0); [lia|]. cbn [orb].
      destruct (N.eqb_spec (height t / 2) 0); [reflexivity|].
      destruct (N.eqb_spec (width t / 2) 0); [reflexivity | lia].
    + now apply maxpool2_ok.
Qed.

End UNetRunFacts.

(** Steps of a symbolic run of [forward] on an input whose channel count is
    right; every side condition is arithmetic on the extents. *)
Ltac run_side :=
  unfold Torch.channels;
  cbn [Torch.batch Torch.chans Torch.height Torch.width];
  first
    [ assumption
    | apply length_features
    | rewrite length_app, !length_features; reflexivity
    | rewrite length_features; discriminate
    | lia ].

Ltac run_next :=
  cbn [bind UNetModel.at_site Torch.batch Torch.chans Torch.height Torch.width].

Section UNetOutcome.
Import Torch UNetModel UNetRuns.

Lemma bn_doubled tr b h w : tr && (b * (2 * h) * (2 * w) =? 1)%N = false.
Proof.
  destruct (N.eqb_spec (b * (2 * h) * (2 * w)) 1) as [E|E]; [|apply andb_false_r].
  apply N.eq_mul_1 in E as [_ E]. lia.
Qed.

(** One encoder block on an explicit tensor: decide the batch-normalisation
    test, keep the raising case as it is. *)
Ltac enc_block Hbn :=
  rewrite conv_block_eval by lia;
  unfold channels at 1; cbn [batch chans height width];
  rewrite ?length_features, ?Nat.eqb_refl; cbn [negb];
  repeat match goal with
         | |- context [(?a =? 0)%N] => rewrite (proj2 (N.eqb_neq a 0)) by lia
         end;
  cbn [orb];
  match goal with
  | |- context [?tr && (?p =? 1)%N] =>
      destruct (tr && (p =? 1)%N) eqn:Hbn; [reflexivity|]
  end;
  run_next.

Ltac enc_pool Hp :=
  rewrite maxpool2_eval by run_side; run_next;
  match goal with
  | |- context [((?h <? 2) || (?w <? 2))%N] =>
      destruct ((h <? 2) || (w <? 2))%N eqn:Hp; [reflexivity|];
      apply orb_false_iff in Hp as [?%N.ltb_ge ?%N.ltb_ge]
  end;
  run_next.

Ltac dec_block :=
  rewrite conv_block_eval by lia;
  unfold channels at 1; cbn [batch chans height width];
  rewrite ?length_app, ?length_features; cbn [Nat.add Nat.eqb negb];
  repeat match goal with
         | |- context [(?a =? 0)%N] => rewrite (proj2 (N.eqb_neq a 0)) by lia
         end;
  cbn [orb]; rewrite bn_doubled; run_next.

Ltac dec_cat d E :=
  match goal with
  | |- context [even_at d ?h ?w] =>
      destruct (even_at d h w) eqn:E;
      [ apply even_at_spec in E; cbn [halve] in E;
        rewrite cat_ok by run_side; run_next
      | apply even_at_false in E; cbn [halve] in E;
        rewrite cat_mismatch by (cbn [batch chans height width]; lia);
        reflexivity ]
  end.

(** The run of [forward] and the outcome computed from the shape agree on
    every input and in both modes. *)
Lemma forward_is_outcome cin cout tr x :
  forward (train tr (init cin cout)) x = forward_outcome cin cout tr x.
Proof.
  unfold forward, forward_locals, forward_outcome, encoder_error, mismatch_depth,
    one_value_at, too_small_at.
  cbn [halve train init training enc_conv0 pool0 enc_conv1 pool1 enc_conv2 pool2
       enc_conv3 pool3 enc_conv4 upconv3 dec_conv3 upconv2 dec_conv2
       upconv1 dec_conv1 upconv0 dec_conv0 final_conv].
  destruct (Nat.eqb_spec cin 0) as [->|Hi].
  { rewrite conv_block_eval_no_input by lia.
    destruct (Nat.eqb_spec (channels x) 0) as [Hc|Hc]; cbn [negb]; [|reflexivity].
    destruct ((height x =? 0) || (width x =? 0))%N; [reflexivity|].
    destruct (tr && (batch x * height x * width x =? 1)%N); reflexivity. }
  rewrite conv_block_eval by lia.
  destruct (Nat.eqb_spec (channels x) cin) as [Hc|Hc]; cbn [negb]; [|reflexivity].
  destruct (N.eqb_spec (height x) 0) as [Hh|Hh]; cbn [orb]; [reflexivity|].
  destruct (N.eqb_spec (width x) 0) as [Hw|Hw]; [reflexivity|].
  destruct (tr && (batch x * height x * width x =? 1)%N) eqn:B0; [reflexivity|].
  run_next.
  enc_pool P0. enc_block B1. enc_pool P1. enc_block B2. enc_pool P2.
  enc_block B3. enc_pool P3. enc_block B4.
  rewrite upconv_ok by run_side. run_next. dec_cat 3 E3. cbn [negb]. dec_block.
  rewrite upconv_ok by run_side. run_next. dec_cat 2 E2. cbn [negb]. dec_block.
  rewrite upconv_ok by run_side. run_next. dec_cat 1 E1. cbn [negb]. dec_block.
  rewrite upconv_ok by run_side. run_next. dec_cat 0 E0. cbn [negb]. dec_block.
  destruct (Nat.eqb_spec cout 0) as [->|Ho]; [reflexivity|].
  rewrite conv2d_ok by run_side. cbn [bind at_site out batch height width].
  rewrite !conv_out_1x1. do 2 f_equal; lia.
Qed.

End UNetOutcome.

Section UNetExtras.
Import Torch UNetModel UNetRuns.

Lemma one_value_at_spec tr b d h w :
  one_value_at tr b d h w = true <->
  tr = true /\ b = 1%N /\ halve d h = 1%N /\ halve d w = 1%N.
Proof.
  unfold one_value_at. rewrite andb_true_iff, N.eqb_eq. split.
  - intros [-> E]. apply N.eq_mul_1 in E as [E ->]. apply N.eq_mul_1 in E as [-> ->]. auto.
  - intros (-> & -> & -> & ->). auto.
Qed.

Lemma one_value_at_false tr b d h w :
  tr = false \/ b <> 1%N \/ halve d h <> 1%N \/ halve d w <> 1%N ->
  one_value_at tr b d h w = false.
Proof.
  intros H. destruct (one_value_at tr b d h w) eqn:E; [|reflexivity].
  apply one_value_at_spec in E as (Et & Eb & Eh & Ew).
  destruct H as [H | [H | [H | H]]]; congruence.
Qed.

Lemma mismatch_depth_Some h w d :
  mismatch_depth h w = Some d -> d < 4 /\ even_at d h w = false.
Proof.
  unfold mismatch_depth.
  destruct (even_at 3 h w) eqn:E3; cbn [negb]; [|intros [= <-]; split; [lia | trivial]].
  destruct (even_at 2 h w) eqn:E2; cbn [negb]; [|intros [= <-]; split; [lia | trivial]].
  destruct (even_at 1 h w) eqn:E1; cbn [negb]; [|intros [= <-]; split; [lia | trivial]].
  destruct (even_at 0 h w) eqn:E0; cbn [negb]; [|intros [= <-]; split; [lia | trivial]].
  discriminate.
Qed.

Lemma encoder_error_Some cin tr x e :
  encoder_error tr (batch x) (height x) (width x) = Some e ->
  forward_error cin tr x e.
Proof.
  unfold encoder_error.
  repeat match goal with
         | |- context [one_value_at ?tr ?b ?d ?h ?w] =>
             let E := fresh "B" in
             destruct (one_value_at tr b d h w) eqn:E;
             [ apply one_value_at_spec in E as (? & ? & ? & ?);
               intros [= <-]; apply (one_value cin tr x d); trivial; lia |]
         | |- context [too_small_at ?d ?h ?w] =>
             let E := fresh "P" in
             destruct (too_small_at d h w) eqn:E;
             [ intros [= <-]; apply (cannot_pool cin tr x d); trivial; lia |]
         end.
  discriminate.
Qed.

(** X1.  A conv block declared with positive widths returns exactly when
    its input has the declared channel count, is not empty in height or
    width, and batch normalisation accepts it; it then keeps batch, height
    and width and has the declared number of output channels. *)
Theorem conv_block_returns tr name cin cout t t' :
  0 < cin -> 0 < cout ->
  sequential tr (conv_block name cin cout) t = Ok t' <->
  channels t = cin /\ height t <> 0%N /\ width t <> 0%N /\
  bn_accepts tr (batch t) (height t) (width t) /\
  batch t' = batch t /\ channels t' = cout /\
  height t' = height t /\ width t' = width t /\
  chans t' = features (name +:+ ".3") cout.
Proof.
  intros Hi Ho. split.
  - intros H. apply conv_block_inv in H as (Hc & Hh & Hw & Hbn & ->).
    unfold channels. cbn [batch chans height width]. rewrite length_features.
    repeat split; trivial; lia.
  - intros (Hc & Hh & Hw & Hbn & Eb & _ & Eh & Ew & Ec).
    rewrite conv_block_ok by (trivial; lia).
    destruct t' as [b' c' h' w']. cbn [batch chans height width] in *. congruence.
Qed.

Lemma conv_block_returns_enc0 :
  sequential false (conv_block "enc_conv0" 4 64) (input 1 4 8 8)
  = Ok (mkTensor 1 (features "enc_conv0.3" 64) 8 8).
Proof.
  apply (proj2 (conv_block_returns false "enc_conv0" 4 64 (input 1 4 8 8)
                                   (mkTensor 1 (features "enc_conv0.3" 64) 8 8)
                                   ltac:(lia) ltac:(lia))).
  repeat split; try reflexivity; try discriminate. now left.
Defined.

(** X2.  An input whose channel count is not [in_channels] is refused by
    the first convolution, whatever its size and the mode. *)
Theorem forward_wrong_channels cin cout tr x :
  channels x <> cin ->
  forward (train tr (init cin cout)) x
  = Raise (Attr "enc_conv0", ChannelMismatch cin (channels x)).
Proof.
  intros Hc. rewrite forward_is_outcome. unfold forward_outcome.
  destruct (Nat.eqb_spec (channels x) cin); [contradiction | reflexivity].
Qed.

Lemma forward_wrong_channels_rgb :
  forward (init 4 1) (input 1 3 256 256)
  = Raise (Attr "enc_conv0", ChannelMismatch 4 3).
Proof.
  apply (forward_wrong_channels 4 1 true (input 1 3 256 256)).
  vm_compute. discriminate.
Defined.

(** X3.  Whatever [forward] of a network built with positive
    [in_channels] and [out_channels] raises is one of five things: the input
    has the wrong channel count or is empty (first convolution), a feature
    map is too small to pool, batch normalisation meets a single value per
    channel while training (encoder blocks only), or a skip tensor has an odd
    extent (concatenation). *)
Theorem forward_raises_only cin cout tr x e :
  0 < cin -> 0 < cout ->
  forward (train tr (init cin cout)) x = Raise e -> forward_error cin tr x e.
Proof.
  intros Hi Ho. rewrite forward_is_outcome. unfold forward_outcome.
  destruct (Nat.eqb_spec (channels x) cin) as [Hc|Hc]; cbn [negb].
  2:{ intros [= <-]. now apply wrong_channels. }
  destruct (N.eqb_spec (height x) 0) as [Hh|Hh]; cbn [orb].
  { intros [= <-]. apply empty_input. now left. }
  destruct (N.eqb_spec (width x) 0) as [Hw|Hw].
  { intros [= <-]. apply empty_input. now right. }
  destruct (Nat.eqb_spec cin 0); [lia|].
  destruct (encoder_error tr (batch x) (height x) (width x)) as [e'|] eqn:Ee.
  { intros [= <-]. now apply encoder_error_Some. }
  destruct (mismatch_depth (height x) (width x)) as [d|] eqn:Ed.
  { intros [= <-]. apply mismatch_depth_Some in Ed as [Hd Hodd]. now apply odd_skip. }
  destruct (Nat.eqb_spec cout 0); [lia | discriminate].
Qed.

Lemma forward_raises_only_24 :
  forward_error 4 false (input 1 4 24 24) (Cat 3, CatSizeMismatch).
Proof.
  apply (forward_raises_only 4 1 false (input 1 4 24 24)); [lia | lia |].
  vm_compute. reflexivity.
Defined.

(** X4.  The wiring of a network built with a positive [in_channels] is
    never at fault: [forward] does not raise a batch-normalisation feature
    mismatch or an empty-input error of a pooling layer, a channel mismatch
    is always about the input tensor, and a kernel-size error is always
    raised by the first convolution. *)
Theorem forward_wiring_consistent cin cout tr x s k :
  0 < cin ->
  forward (train tr (init cin cout)) x = Raise (s, k) ->
  (forall n m, k <> BatchNormFeatures n m) /\
  k <> PoolEmptyInput /\
  (forall n m, k = ChannelMismatch n m ->
               s = Attr "enc_conv0" /\ n = cin /\ m = channels x /\ m <> cin) /\
  (k = KernelTooLarge -> s = Attr "enc_conv0").
Proof.
  intros Hi. rewrite forward_is_outcome. unfold forward_outcome.
  destruct (Nat.eqb_spec (channels x) cin) as [Hc|Hc]; cbn [negb].
  2:{ intros [= <- <-]. repeat split; try discriminate; intros; congruence. }
  destruct ((height x =? 0) || (width x =? 0))%N.
  { intros [= <- <-]. repeat split; try discriminate; intros; congruence. }
  destruct (Nat.eqb_spec cin 0); [lia|].
  destruct (encoder_error tr (batch x) (height x) (width x)) as [e'|] eqn:Ee.
  { intros [= ->]. unfold encoder_error in Ee.
    repeat match type of Ee with
           | context [if ?c then _ else _] => destruct c
           end;
      try discriminate; injection Ee as <- <-;
      repeat split; try discriminate; intros; discriminate. }
  destruct (mismatch_depth (height x) (width x)) as [d|].
  { intros [= <- <-]. repeat split; try discriminate; intros; discriminate. }
  destruct (cout =? 0)%nat; [|discriminate].
  intros [= <- <-]. repeat split; try discriminate; intros; discriminate.
Qed.

Lemma forward_wiring_consistent_rgb :
  ChannelMismatch 4 3 <> PoolEmptyInput /\
  (Attr "enc_conv0" = Attr "enc_conv0" /\ 4 = 4 /\
   3 = channels (input 1 3 256 256) /\ 3 <> 4).
Proof.
  assert (H : forward (train true (init 4 1)) (input 1 3 256 256)
              = Raise (Attr "enc_conv0", ChannelMismatch 4 3))
    by (vm_compute; reflexivity).
  split.
  - exact (proj1 (proj2 (forward_wiring_consistent 4 1 true (input 1 3 256 256)
                                                   (Attr "enc_conv0")
                                                   (ChannelMismatch 4 3)
                                                   ltac:(lia) H))).
  - exact (proj1 (proj2 (proj2 (forward_wiring_consistent
                                  4 1 true (input 1 3 256 256)
                                  (Attr "enc_conv0") (ChannelMismatch 4 3)
                                  ltac:(lia) H)))
                 4 3 eq_refl).
Defined.

End UNetExtras.

Section UNetExtrasSize.
Import Torch UNetModel UNetRuns.

Lemma pool_depth_Some h w d :
  pool_depth h w = Some d -> d < 4 /\ too_small_at d h w = true.
Proof.
  unfold pool_depth.
  destruct (too_small_at 0 h w) eqn:E0; [intros [= <-]; split; [lia | trivial]|].
  destruct (too_small_at 1 h w) eqn:E1; [intros [= <-]; split; [lia | trivial]|].
  destruct (too_small_at 2 h w) eqn:E2; [intros [= <-]; split; [lia | trivial]|].
  destruct (too_small_at 3 h w) eqn:E3; [intros [= <-]; split; [lia | trivial]|].
  discriminate.
Qed.

(** A pooling layer is handed a feature map it cannot pool exactly when the
    input is smaller than 16 in height or width. *)
Lemma pool_depth_small h w :
  (h < 16)%N \/ (w < 16)%N <-> exists d, pool_depth h w = Some d.
Proof.
  unfold pool_depth, too_small_at. cbn [halve].
  repeat match goal with
         | |- context [(?a <? 2)%N] => destruct (N.ltb_spec a 2)
         end; cbn [orb]; split; intros Hx; eauto;
    try (destruct Hx as [d Hx]; discriminate Hx); lia.
Qed.

(** X5.  For a network built with a positive [in_channels], a non-empty
    input of the right channel count that is smaller than 16 in height or
    width is refused by a pooling layer -- the first one whose feature map
    is below 2x2 -- before any concatenation is reached (in inference mode,
    or with a batch other than one). *)
Theorem forward_too_small cin cout tr x :
  0 < cin ->
  channels x = cin -> height x <> 0%N -> width x <> 0%N ->
  tr = false \/ batch x <> 1%N ->
  (height x < 16)%N \/ (width x < 16)%N ->
  exists d, pool_depth (height x) (width x) = Some d /\ d < 4 /\
            forward (train tr (init cin cout)) x
            = Raise (Attr (pool_attr d), PoolOutputTooSmall).
Proof.
  intros Hi Hc Hh Hw Hbn Hs. apply pool_depth_small in Hs as [d Hd].
  exists d. split; [exact Hd|]. split; [now apply pool_depth_Some in Hd|].
  rewrite forward_is_outcome. unfold forward_outcome.
  rewrite Hc, Nat.eqb_refl. cbn [negb].
  rewrite (proj2 (N.eqb_neq _ _) Hh), (proj2 (N.eqb_neq _ _) Hw). cbn [orb].
  destruct (Nat.eqb_spec cin 0); [lia|].
  unfold encoder_error.
  rewrite !one_value_at_false by (destruct Hbn; auto).
  revert Hd. unfold pool_depth.
  destruct (too_small_at 0 _ _); [now intros [= <-]|].
  destruct (too_small_at 1 _ _); [now intros [= <-]|].
  destruct (too_small_at 2 _ _); [now intros [= <-]|].
  destruct (too_small_at 3 _ _); [now intros [= <-]|].
  discriminate.
Qed.

Lemma forward_too_small_10 :
  forward (eval (init 4 1)) (input 2 4 10 40) = Raise (Attr "pool3", PoolOutputTooSmall).
Proof.
  destruct (forward_too_small 4 1 false (input 2 4 10 40)) as (d & Hd & _ & H).
  - lia.
  - reflexivity.
  - discriminate.
  - discriminate.
  - now left.
  - left. reflexivity.
  - vm_compute in Hd. injection Hd as <-. exact H.
Defined.

(** X6.  In training mode, for a network built with a positive
    [in_channels], a single image whose height and width are both between
    16 and 31 reaches the bottleneck as one value per channel, and the batch
    normalisation of the bottleneck block raises -- also when the extents
    are not multiples of 16. *)
Theorem forward_training_single_value cin cout x :
  0 < cin ->
  channels x = cin -> batch x = 1%N ->
  (16 <= height x < 32)%N -> (16 <= width x < 32)%N ->
  forward (init cin cout) x = Raise (Attr "enc_conv4", BatchNormOneValue).
Proof.
  intros Hi Hc Hb Hh Hw.
  change (init cin cout) with (train true (init cin cout)).
  rewrite forward_is_outcome. unfold forward_outcome.
  rewrite Hc, Nat.eqb_refl. cbn [negb].
  rewrite !(proj2 (N.eqb_neq _ _)) by lia. cbn [orb].
  destruct (Nat.eqb_spec cin 0); [lia|].
  unfold encoder_error, too_small_at.
  rewrite (one_value_at_false _ _ 0), (one_value_at_false _ _ 1),
    (one_value_at_false _ _ 2), (one_value_at_false _ _ 3)
    by (right; right; left; cbn [halve]; lia).
  cbn [halve].
  rewrite !(proj2 (N.ltb_ge _ _)) by lia. cbn [orb].
  rewrite (proj2 (one_value_at_spec true (batch x) 4 (height x) (width x)));
    [reflexivity|].
  cbn [halve]. repeat split; trivial; lia.
Qed.

Lemma forward_training_single_value_17 :
  forward (init 4 1) (input 1 4 17 31) = Raise (Attr "enc_conv4", BatchNormOneValue).
Proof.
  apply (forward_training_single_value 4 1 (input 1 4 17 31));
    try reflexivity; try lia; split; vm_compute; congruence.
Defined.

(** X7.  The mode changes nothing about a run on a batch of two or more, or
    on a single input of at least 32 x 32: in training mode [forward]
    returns the same shape, or raises the same error at the same place, as
    in inference mode. *)
Theorem forward_mode_independent cin cout x :
  (2 <= batch x)%N \/ (batch x = 1%N /\ (32 <= height x)%N /\ (32 <= width x)%N) ->
  forward (init cin cout) x = forward (eval (init cin cout)) x.
Proof.
  intros H.
  change (init cin cout) with (train true (init cin cout)) at 1. unfold eval.
  rewrite !forward_is_outcome. unfold forward_outcome, encoder_error.
  rewrite !(one_value_at_false false) by now left.
  rewrite !(one_value_at_false true)
    by (right; destruct H as [H | (_ & H & _)]; [left | right; left; cbn [halve]]; lia).
  reflexivity.
Qed.

Lemma forward_mode_independent_batch :
  forward (init 4 1) (input 8 4 16 16) = forward (eval (init 4 1)) (input 8 4 16 16).
Proof.
  apply (forward_mode_independent 4 1 (input 8 4 16 16)).
  left. vm_compute. discriminate.
Defined.

End UNetExtrasSize.

(** One statement of a run of [forward] that returned, read backwards. *)
Ltac run_back H :=
  let t := fresh "t" in
  let Ht := fresh "Ht" in
  apply bind_Ok_inv in H as (t & Ht & H);
  apply at_site_Ok_inv in Ht;
  first
    [ apply conv_block_inv in Ht as (? & ? & ? & ? & ->)
    | apply maxpool2_inv in Ht as (? & ? & ->)
    | apply upconv_inv in Ht as (? & ->)
    | apply cat_inv in Ht as (? & ? & ? & ->)
    | apply conv2d_inv in Ht as (? & ? & ? & -> & ?) ];
  cbn [Torch.batch Torch.chans Torch.height Torch.width] in *.

Section UNetExtrasShapes.
Import Torch UNetModel UNetRuns.

(** X8.  In every run of [forward] that returns, the encoder feature map of
    depth d has 64 * 2^d channels and the input's height and width halved d
    times (the bottleneck: 1024 channels, a sixteenth of the extent), and
    each decoder stage gives back exactly the shape of the encoder feature
    map of its depth. *)
Theorem forward_feature_shapes cin cout tr x l :
  forward_locals (train tr (init cin cout)) x = Ok l ->
  (shape (enc0 l) = level_shape 0 (batch x) (height x) (width x) /\
   shape (enc1 l) = level_shape 1 (batch x) (height x) (width x) /\
   shape (enc2 l) = level_shape 2 (batch x) (height x) (width x) /\
   shape (enc3 l) = level_shape 3 (batch x) (height x) (width x) /\
   shape (bottleneck l) = level_shape 4 (batch x) (height x) (width x)) /\
  (shape (dec3 l) = shape (enc3 l) /\ shape (dec2 l) = shape (enc2 l) /\
   shape (dec1 l) = shape (enc1 l) /\ shape (dec0 l) = shape (enc0 l)).
Proof.
  unfold forward_locals. intros H.
  cbn [train init training enc_conv0 pool0 enc_conv1 pool1 enc_conv2 pool2
       enc_conv3 pool3 enc_conv4 upconv3 dec_conv3 upconv2 dec_conv2
       upconv1 dec_conv1 upconv0 dec_conv0 final_conv] in H.
  do 22 run_back H. injection H as <-.
  cbn [enc0 enc1 enc2 enc3 bottleneck dec3 dec2 dec1 dec0].
  unfold shape, level_shape, channels. cbn [batch chans height width halve].
  rewrite !length_features.
  repeat split; try reflexivity; repeat f_equal; lia.
Qed.

Lemma forward_feature_shapes_32 :
  match forward_locals (eval (init 4 1)) (input 2 4 32 48) with
  | Ok l => shape (bottleneck l) = (2%N, 1024, 2%N, 3%N) /\
            shape (dec1 l) = shape (enc1 l)
  | Raise _ => False
  end.
Proof.
  destruct (forward_locals (eval (init 4 1)) (input 2 4 32 48)) as [l|e] eqn:E.
  - destruct (forward_feature_shapes 4 1 false _ l E)
      as ((_ & _ & _ & _ & Hb) & (_ & _ & H1 & _)).
    split; [exact Hb | exact H1].
  - vm_compute in E. discriminate E.
Defined.

End UNetExtrasShapes.

(** ** More on the custom score *)

Section ScoreExtras.
Import Score.

Variable int_ : np_int.

Local Abbreviation np_sum := (np_sum int_).
Local Abbreviation np_mul := (np_mul int_).
Local Abbreviation calculate_custom_score := (calculate_custom_score int_).

Lemma count_true_nil : count_true [] = 0%Z.
Proof. reflexivity. Qed.

Lemma count_true_cons b m : count_true (b :: m) = ((if b then 1 else 0) + count_true m)%Z.
Proof. unfold count_true. destruct b; cbn [List.filter length]; lia. Qed.

Lemma count_true_and_le (a b : list bool) :
  (count_true (map (fun xy => fst xy && snd xy) (combine a b)) <= count_true a)%Z.
Proof.
  revert b. induction a as [|x a IH]; intros [|y b]; cbn [combine map fst snd];
    rewrite ?count_true_nil, ?count_true_cons; try lia.
  - pose proof (count_true_nonneg a). destruct x; lia.
  - specialize (IH b). destruct x, y; cbn [andb]; lia.
Qed.

Lemma count_true_and_r_le (a : list bool) y :
  (count_true (map (fun x => x && y) a) <= count_true a)%Z.
Proof.
  induction a as [|x a IH]; cbn [map]; rewrite ?count_true_nil, ?count_true_cons; [lia|].
  destruct x, y; cbn [andb]; lia.
Qed.

Lemma np_and_count_le a b m :
  2 <= length a -> np_and a b = Ok m -> (count_true m <= count_true a)%Z.
Proof.
  unfold np_and. intros Hl.
  destruct (length a =? length b)%nat.
  - intros [= <-]. apply count_true_and_le.
  - destruct a as [|x [|x' a]]; cbn in Hl; try lia.
    destruct b as [|y [|y' b]]; try discriminate.
    intros [= <-]. apply (count_true_and_r_le (x :: x' :: a) y).
Qed.

Lemma np_and_not_broadcastable a b :
  ~ broadcastable (length a) (length b) -> np_and a b = Raise cannot_broadcast.
Proof.
  unfold broadcastable, np_and. intros H.
  destruct (Nat.eqb_spec (length a) (length b)) as [E|E]; [tauto|].
  destruct a as [|x [|x' a]]; destruct b as [|y [|y' b]]; cbn in *;
    try reflexivity; exfalso; apply H; auto.
Qed.

(** X9.  [calculate_custom_score] returns for label arrays of one length
    (or when one of them has a single entry) and raises numpy's broadcasting
    [ValueError] for every other pair of lengths, whatever the labels. *)
Theorem calculate_custom_score_raises y_true y_pred :
  (broadcastable (length y_true) (length y_pred) ->
   exists r, calculate_custom_score y_true y_pred = Ok r) /\
  (~ broadcastable (length y_true) (length y_pred) ->
   calculate_custom_score y_true y_pred = Raise cannot_broadcast).
Proof.
  unfold Score.calculate_custom_score. split; intros H.
  - destruct (np_and_broadcastable (np_eq y_true 0) (np_eq y_pred 0)) as [m0 ->];
      [now rewrite !length_np_eq|].
    destruct (np_and_broadcastable (np_eq y_true 1) (np_eq y_pred 1)) as [m1 ->];
      [now rewrite !length_np_eq|].
    cbn [bind]. destruct (_ || _); eauto.
  - rewrite np_and_not_broadcastable by (now rewrite !length_np_eq). reflexivity.
Qed.

(** The counts of a run that forms a quotient over a truth array short
    enough: nothing has wrapped, and the hits of each class are among the
    samples of that class. *)
Lemma calculate_custom_score_counts y_true y_pred num den :
  (Z.of_nat (length y_true) <= max_len int_)%Z ->
  calculate_custom_score y_true y_pred = Ok (TrueDivide num den) ->
  exists a0 a1,
    (0 <= a0 <= count_true (np_eq y_true 0))%Z /\
    (0 <= a1 <= count_true (np_eq y_true 1))%Z /\
    num = (a0 * a1)%Z /\
    den = (count_true (np_eq y_true 0) * count_true (np_eq y_true 1))%Z.
Proof.
  unfold Score.calculate_custom_score. intros Hl H.
  destruct (class_counts_exact int_ y_true Hl) as (E0 & E1 & Em).
  apply bind_Ok_inv in H as (m0 & H0 & H). apply bind_Ok_inv in H as (m1 & H1 & H).
  rewrite E0, E1 in H.
  destruct (Z.eqb_spec (count_true (np_eq y_true 0)) 0) as [Z0|Z0]; cbn [orb] in H;
    [discriminate|].
  destruct (Z.eqb_spec (count_true (np_eq y_true 1)) 0) as [Z1|Z1]; [discriminate|].
  injection H as <- <-.
  pose proof (count_true_classes_le y_true) as Hc.
  pose proof (count_true_nonneg (np_eq y_true 0)) as N0.
  pose proof (count_true_nonneg (np_eq y_true 1)) as N1.
  pose proof (count_true_nonneg m0) as A0. pose proof (count_true_nonneg m1) as A1.
  assert (Hl2 : 2 <= length y_true) by lia.
  apply np_and_count_le in H0; [|now rewrite length_np_eq].
  apply np_and_count_le in H1; [|now rewrite length_np_eq].
  destruct (max_len_fits int_ _ _ N0 N1) as (F0 & F1 & F); [lia|].
  assert (P : (0 < 2 ^ (bits int_ - 1))%Z) by (destruct int_; reflexivity).
  assert (M : (count_true m0 * count_true m1
               <= count_true (np_eq y_true 0) * count_true (np_eq y_true 1))%Z)
    by (apply Z.mul_le_mono_nonneg; lia).
  exists (count_true m0), (count_true m1).
  unfold Score.np_sum, Score.np_mul.
  rewrite (wrap_small int_ (count_true m0)), (wrap_small int_ (count_true m1)) by lia.
  rewrite (wrap_small int_ (count_true m0 * count_true m1)) by nia.
  repeat split; trivial; lia.
Qed.

(** X10.  For a truth array of at most [max_len] entries (46340 with 32-bit
    counts, 3037000499 with 64-bit counts), whenever
    [calculate_custom_score] forms a quotient, its numerator lies between 0
    and its denominator: the score is in the interval from 0 to 1. *)
Theorem calculate_custom_score_range y_true y_pred num den :
  (Z.of_nat (length y_true) <= max_len int_)%Z ->
  calculate_custom_score y_true y_pred = Ok (TrueDivide num den) ->
  (0 <= num <= den)%Z.
Proof.
  intros Hl H.
  destruct (calculate_custom_score_counts _ _ _ _ Hl H) as (a0 & a1 & H0 & H1 & -> & ->).
  split; [nia|]. apply Z.mul_le_mono_nonneg; lia.
Qed.

Lemma np_and_self (a : list bool) : np_and a a = Ok a.
Proof.
  unfold np_and. rewrite Nat.eqb_refl. f_equal.
  induction a as [|x a IH]; cbn [combine map fst snd]; [reflexivity|].
  rewrite IH. now destruct x.
Qed.

(** X11.  A prediction that equals the truth gets the full score, for an
    array of at most [max_len] entries: when both classes occur the quotient
    is [n0 * n1] over [n0 * n1], the counts not wrapped; when one class is
    missing the result is the literal [0.0] all the same. *)
Theorem calculate_custom_score_perfect y :
  (Z.of_nat (length y) <= max_len int_)%Z ->
  calculate_custom_score y y
  = Ok (if (count_true (np_eq y 0) =? 0)%Z || (count_true (np_eq y 1) =? 0)%Z
        then Literal_0_0
        else TrueDivide (count_true (np_eq y 0) * count_true (np_eq y 1))
                        (count_true (np_eq y 0) * count_true (np_eq y 1))).
Proof.
  intros Hl. destruct (class_counts_exact int_ y Hl) as (E0 & E1 & Em).
  unfold Score.calculate_custom_score. rewrite !np_and_self. cbn [bind].
  rewrite E0, E1, Em. now destruct (_ || _).
Qed.




(** The counts the score is made of, read off the list of (truth,
    prediction) pairs. *)
Lemma np_sum_and_pairs (a b : list Z) u v :
  length a = length b ->
  np_and (np_eq a u) (np_eq b v)
  = Ok (map (fun p => Z.eqb (fst p) u && Z.eqb (snd p) v) (combine a b)).
Proof.
  intros Hl. unfold np_and. rewrite !length_np_eq, Hl, Nat.eqb_refl. f_equal.
  revert b Hl. induction a as [|x a IH]; intros [|y b] Hl; try discriminate;
    cbn [np_eq combine map fst snd]; [reflexivity|].
  f_equal. apply IH. now injection Hl.
Qed.

Lemma np_eq_pairs (a b : list Z) u :
  length a = length b ->
  np_eq a u = map (fun p => Z.eqb (fst p) u) (combine a b).
Proof.
  revert b. induction a as [|x a IH]; intros [|y b] Hl; try discriminate;
    cbn [np_eq combine map fst snd]; [reflexivity|].
  f_equal. apply IH. now injection Hl.
Qed.

Lemma count_true_map_Permutation {A} (f : A -> bool) (l l' : list A) :
  Permutation l l' -> count_true (map f l) = count_true (map f l').
Proof.
  induction 1 as [|x l l' _ IH|x y l|l l' l'' _ IH1 _ IH2]; cbn [map];
    rewrite ?count_true_cons; try congruence; lia.
Qed.

(** X13.  The score does not depend on the order of the samples: two runs
    whose (truth, prediction) pairs are permutations of each other give the
    same result. *)
Theorem calculate_custom_score_order y_true y_pred y_true' y_pred' :
  length y_true = length y_pred -> length y_true' = length y_pred' ->
  Permutation (combine y_true y_pred) (combine y_true' y_pred') ->
  calculate_custom_score y_true y_pred = calculate_custom_score y_true' y_pred'.
Proof.
  intros Hl Hl' Hp. unfold Score.calculate_custom_score, Score.np_sum.
  rewrite !np_sum_and_pairs by trivial. cbn [bind].
  rewrite !(np_eq_pairs y_true y_pred), !(np_eq_pairs y_true' y_pred') by trivial.
  now rewrite !(count_true_map_Permutation _ _ _ Hp).
Qed.

End ScoreExtras.

Lemma calculate_custom_score_raises_2_3 :
  Score.calculate_custom_score Score.int64 [0; 1]%Z [0; 1; 1]%Z
  = Raise Score.cannot_broadcast.
Proof.
  apply (proj2 (calculate_custom_score_raises Score.int64 [0; 1]%Z [0; 1; 1]%Z)).
  unfold Score.broadcastable. cbn. lia.
Defined.

Lemma calculate_custom_score_range_example :
  Score.calculate_custom_score Score.int32 [0; 1; 1; 0]%Z [0; 1; 0; 0]%Z
  = Ok (Score.TrueDivide 2 4) /\
  (0 <= 2 <= 4)%Z.
Proof.
  split; [reflexivity|].
  apply (calculate_custom_score_range Score.int32 [0; 1; 1; 0]%Z [0; 1; 0; 0]%Z 2 4).
  - vm_compute. discriminate.
  - reflexivity.
Defined.

Lemma calculate_custom_score_perfect_example :
  Score.calculate_custom_score Score.int32 [0; 1; 1; 0]%Z [0; 1; 1; 0]%Z
  = Ok (Score.TrueDivide 4 4).
Proof.
  apply (calculate_custom_score_perfect Score.int32 [0; 1; 1; 0]%Z).
  vm_compute. discriminate.
Defined.


Lemma calculate_custom_score_order_example :
  Score.calculate_custom_score Score.int64 [0; 1; 1; 0]%Z [0; 1; 0; 0]%Z
  = Score.calculate_custom_score Score.int64 [0; 1; 1; 0]%Z [0; 0; 1; 0]%Z.
Proof.
  apply calculate_custom_score_order; try reflexivity.
  apply (Permutation_rev [(0, 0); (1, 1); (1, 0); (0, 0)]%Z).
Defined.

(** ** More on the model registry *)

Section RegistryMoreFacts.
Import Registry RegistrySpec.

Lemma assoc_In {A} k (l : list (string * A)) v : assoc k l = Some v -> In (k, v) l.
Proof.
  induction l as [|[k' v'] l IH]; cbn [assoc]; [discriminate|].
  destruct (String.eqb_spec k k') as [->|_].
  - intros [= ->]. now left.
  - intros H. right. auto.
Qed.

Lemma assoc_None_not_In {A} k (l : list (string * A)) :
  assoc k l = None <-> ~ In k (map fst l).
Proof.
  induction l as [|[k' v'] l IH]; cbn [assoc map fst In]; [tauto|].
  destruct (String.eqb_spec k k') as [->|Hne].
  - split; [discriminate | tauto].
  - rewrite IH. split; [intros H [E|E]; [congruence | tauto] | tauto].
Qed.

Lemma In_assoc_set {A} k v (l : list (string * A)) n c :
  In (n, c) (assoc_set k v l) -> In (n, c) l \/ (n = k /\ c = v).
Proof.
  induction l as [|[k' v'] l IH]; cbn [assoc_set].
  - intros [[= <- <-]|[]]. auto.
  - destruct (String.eqb_spec k k') as [->|_]; cbn [In].
    + intros [[= <- <-]|H]; auto.
    + intros [H|H]; [auto|]. destruct (IH H); auto.
Qed.

Lemma In_assoc_set_other {A} k v (l : list (string * A)) n c :
  n <> k -> In (n, c) l -> In (n, c) (assoc_set k v l).
Proof.
  intros Hne. induction l as [|[k' v'] l IH]; cbn [assoc_set In]; [tauto|].
  destruct (String.eqb_spec k k') as [->|_]; cbn [In].
  - intros [[= <- <-]|H]; [contradiction | auto].
  - intros [H|H]; auto.
Qed.

Lemma In_assoc_set_new {A} k v (l : list (string * A)) : In (k, v) (assoc_set k v l).
Proof.
  induction l as [|[k' v'] l IH]; cbn [assoc_set]; [now left|].
  destruct (String.eqb_spec k k'); cbn [In]; auto.
Qed.

Lemma assoc_assoc_set {A} k v (l : list (string * A)) : assoc k (assoc_set k v l) = Some v.
Proof.
  induction l as [|[k' v'] l IH]; cbn [assoc_set assoc].
  - now rewrite String.eqb_refl.
  - destruct (String.eqb_spec k k') as [->|Hne]; cbn [assoc].
    + now rewrite String.eqb_refl.
    + destruct (String.eqb_spec k k'); [contradiction | exact IH].
Qed.

(** The parameters of a sub-module are parameters of the module, under the
    name of the sub-module. *)
Lemma in_child_parameters m k c q p :
  In (k, c) (children_of m) -> In (q, p) (named_parameters c) ->
  In (k :: q, p) (named_parameters m).
Proof.
  destruct m as [cl a ps cs]. cbn [children_of]. intros Hc Hq.
  apply in_named_parameters_Mod. right. exists k, c, q. auto.
Qed.

Lemma under_cons k path k' q :
  under (k :: path) (k' :: q) = String.eqb k k' && under path q.
Proof. reflexivity. Qed.

(** Assigning a sub-module changes no parameter outside it. *)
Lemma setattr_same_outside m k v :
  same_outside [k] m (setattr m k v).
Proof.
  destruct m as [cl a ps cs]. intros q p Hq. cbn [setattr].
  rewrite !in_named_parameters_Mod. split.
  - intros [H | (n & c & q' & -> & Hin & Hp)]; [now left|].
    apply In_assoc_set in Hin as [Hin | [-> ->]].
    + right. eauto 7.
    + cbn in Hq. now rewrite String.eqb_refl in Hq.
  - intros [H | (n & c & q' & -> & Hin & Hp)]; [now left|].
    right. exists n, c, q'. split; [trivial|]. split; [|trivial].
    apply In_assoc_set_other; [|trivial].
    intros ->. cbn in Hq. now rewrite String.eqb_refl in Hq.
Qed.

Lemma submodule_setattr m k v : submodule [k] (setattr m k v) = Some v.
Proof.
  destruct m as [cl a ps cs]. cbn [submodule setattr children_of].
  now rewrite assoc_assoc_set.
Qed.

Lemma In_assoc_set_old {A} k v (l : list (string * A)) old n c :
  assoc k l = Some old -> In (n, c) l ->
  (n = k /\ c = old) \/ In (n, c) (assoc_set k v l).
Proof.
  induction l as [|[k' v'] l IH]; cbn [assoc assoc_set In]; [tauto|].
  destruct (String.eqb_spec k k') as [->|Hne]; cbn [In].
  - intros [= ->] [[= <- <-]|H]; auto.
  - intros Ho [H|H]; [auto|]. destruct (IH Ho H); auto.
Qed.

(** Assigning a sub-module of a sub-module changes no parameter outside the
    inner one. *)
Lemma setattr_nested_same_outside m k c k2 v :
  assoc k (children_of m) = Some c ->
  same_outside [k; k2] m (setattr m k (setattr c k2 v)).
Proof.
  intros Hc q p Hq.
  destruct (under [k] q) eqn:Hk.
  2:{ now apply setattr_same_outside. }
  destruct q as [|k' q']; [discriminate|].
  cbn in Hk. rewrite andb_true_r in Hk. apply String.eqb_eq in Hk as <-.
  rewrite under_cons, String.eqb_refl in Hq. cbn [andb] in Hq.
  pose proof (setattr_same_outside c k2 v q' p Hq) as Hin.
  destruct m as [cl a ps cs]. cbn [children_of setattr] in *.
  rewrite !in_named_parameters_Mod. split.
  - intros [(n & E & H) | (n & c' & q'' & [= <- <-] & Hc' & Hp)].
    + left. eauto.
    + right. apply In_assoc_set in Hc' as [Hc' | [_ ->]].
      * eauto 7.
      * exists k, c, q'. split; [trivial|]. split; [now apply assoc_In|]. now apply Hin.
  - intros [(n & E & H) | (n & c' & q'' & [= <- <-] & Hc' & Hp)].
    + left. eauto.
    + right. destruct (In_assoc_set_old k (setattr c k2 v) cs c k c' Hc Hc')
        as [[_ ->] | Hnew].
      * exists k, (setattr c k2 v), q'. split; [trivial|].
        split; [apply In_assoc_set_new | now apply Hin].
      * eauto 7.
Qed.

Lemma submodule_setattr_nested m k c k2 v :
  submodule [k; k2] (setattr m k (setattr c k2 v)) = Some v.
Proof.
  destruct m as [cl a ps cs]. cbn [submodule setattr children_of].
  rewrite assoc_assoc_set. destruct c as [cl' a' ps' cs'].
  cbn [setattr children_of]. now rewrite assoc_assoc_set.
Qed.

End RegistryMoreFacts.

Section RegistryExtras.
Import Registry RegistrySpec.

(** X14.  Replacing the head, in each of the three forms the dispatch uses,
    puts a fresh linear layer with the [in_features] of the layer it
    replaces and [num_classes] outputs in its place, and leaves every
    parameter outside that layer as it was. *)
Theorem replace_head_only model num_classes model' :
  (forall name,
      replace_attr name model num_classes = Ok model' ->
      exists old in_features,
        submodule [name] model = Some old /\
        in_features_of old = Ok in_features /\
        submodule [name] model' = Some (Linear in_features num_classes) /\
        same_outside [name] model model') /\
  (replace_heads_head model num_classes = Ok model' ->
   exists old in_features,
     submodule ["heads"; "head"] model = Some old /\
     in_features_of old = Ok in_features /\
     submodule ["heads"; "head"] model' = Some (Linear in_features num_classes) /\
     same_outside ["heads"; "head"] model model') /\
  (forall i,
      replace_classifier_item i model num_classes = Ok model' ->
      exists classifier key old in_features,
        submodule ["classifier"] model = Some classifier /\
        nth_error (children_of classifier) i = Some (key, old) /\
        in_features_of old = Ok in_features /\
        submodule ["classifier"; key] model' = Some (Linear in_features num_classes) /\
        same_outside ["classifier"; key] model model').
Proof.
  split; [|split].
  - intros name H. unfold replace_attr, getattr in H.
    destruct (assoc name (children_of model)) as [old|] eqn:Ho; [|discriminate].
    cbn [bind] in H. apply bind_Ok_inv in H as (inf & Hi & [= <-]).
    exists old, inf. cbn [submodule]. rewrite Ho.
    split; [trivial|]. split; [trivial|].
    split; [apply (submodule_setattr model name) | apply setattr_same_outside].
  - intros H. unfold replace_heads_head, getattr in H.
    destruct (assoc "heads" (children_of model)) as [heads|] eqn:Hh; [|discriminate].
    cbn [bind] in H.
    destruct (assoc "head" (children_of heads)) as [old|] eqn:Ho; [|discriminate].
    cbn [bind] in H. apply bind_Ok_inv in H as (inf & Hi & [= <-]).
    exists old, inf. cbn [submodule]. rewrite Hh, Ho.
    split; [trivial|]. split; [trivial|].
    split; [apply submodule_setattr_nested | now apply setattr_nested_same_outside].
  - intros i H. unfold replace_classifier_item, getattr, getitem, setitem in H.
    destruct (assoc "classifier" (children_of model)) as [cls|] eqn:Hc; [|discriminate].
    cbn [bind] in H.
    destruct (nth_error (children_of cls) i) as [[key old]|] eqn:Hn; [|discriminate].
    cbn [bind] in H. apply bind_Ok_inv in H as (inf & Hi & [= <-]).
    exists cls, key, old, inf. cbn [submodule]. rewrite Hc.
    split; [trivial|]. split; [trivial|]. split; [trivial|].
    split; [apply submodule_setattr_nested | now apply setattr_nested_same_outside].
Qed.

Lemma replace_head_only_efficientnet :
  exists model',
    replace_classifier_item 1 (efficientnet_b0 toy_trunk None) 1 = Ok model' /\
    submodule ["classifier"; "1"] model' = Some (Linear 1280 1) /\
    same_outside ["classifier"; "1"] (efficientnet_b0 toy_trunk None) model'.
Proof.
  eexists. split; [vm_compute; reflexivity|].
  destruct (proj2 (proj2 (replace_head_only (efficientnet_b0 toy_trunk None) 1 _)) 1 eq_refl)
    as (cls & key & old & inf & Hc & Hn & Hi & Hs & Ho).
  vm_compute in Hc. injection Hc as <-.
  vm_compute in Hn. injection Hn as <- <-.
  vm_compute in Hi. injection Hi as <-.
  split; [exact Hs | exact Ho].
Defined.

Lemma signature_Mod c a ps cs :
  signature (Mod c a ps cs)
  = map (fun np => ([fst np], shape (snd np))) ps
    ++ flat_map (fun nc => map (fun qs => (fst nc :: fst qs, snd qs))
                               (signature (snd nc))) cs.
Proof.
  unfold signature. cbn [named_parameters]. rewrite map_app, map_map. f_equal.
  induction cs as [|nc cs IH]; cbn [flat_map]; [reflexivity|].
  rewrite map_app, IH, !map_map. reflexivity.
Qed.

(** Setting the flags changes no name and no shape. *)
Lemma signature_set_requires_grad b m :
  signature (set_requires_grad b m) = signature m.
Proof.
  induction m as [c a ps cs IH] using Module_ind'.
  cbn [set_requires_grad]. rewrite !signature_Mod. f_equal.
  - rewrite map_map. reflexivity.
  - induction cs as [|nc cs IHcs]; cbn [map flat_map]; [reflexivity|].
    inversion IH as [|? ? Hnc Hcs]; subst. cbn [fst snd].
    rewrite Hnc, IHcs by assumption. reflexivity.
Qed.

Lemma signature_at_attr k f m :
  (forall c, signature (f c) = signature c) ->
  signature (at_attr k f m) = signature m.
Proof.
  intros Hf. unfold at_attr.
  destruct (assoc k (children_of m)) as [c|] eqn:Hc; [|reflexivity].
  destruct m as [cl a ps cs]. cbn [children_of setattr] in *.
  rewrite !signature_Mod. f_equal.
  induction cs as [|[k' c'] cs IH]; cbn [assoc] in Hc; [discriminate|].
  cbn [assoc_set]. destruct (String.eqb_spec k k') as [->|Hne]; cbn [flat_map fst snd].
  - injection Hc as ->. now rewrite Hf.
  - f_equal. now apply IH.
Qed.

Lemma freeze_backbone_signature name m m' :
  freeze_backbone name m = Ok m' -> signature m' = signature m.
Proof.
  unfold freeze_backbone. intros H.
  repeat match type of H with
         | (if ?c then _ else _) = _ => destruct c
         end;
    try discriminate; injection H as <-;
    rewrite !signature_at_attr; auto using signature_set_requires_grad;
    intros c; rewrite signature_at_attr; auto using signature_set_requires_grad.
Qed.

(** X15.  Freezing only sets flags: for every token, the model built with
    [freeze=True] has exactly the parameter names and shapes of the one
    built with [freeze=False], so a checkpoint fits one exactly when it fits
    the other. *)
Theorem get_model_freeze_signature trunk model_name num_classes pretrained m m' :
  get_model trunk model_name num_classes pretrained false = Ok m ->
  get_model trunk model_name num_classes pretrained true = Ok m' ->
  signature m' = signature m.
Proof.
  unfold get_model. intros H H'.
  destruct (dispatch trunk model_name num_classes pretrained) as [m0|e];
    [|discriminate].
  cbn [bind] in *. injection H as <-. exact (freeze_backbone_signature _ _ _ H').
Qed.

Lemma get_model_freeze_signature_vit :
  exists m m',
    get_model toy_trunk "ViT" 1 true false = Ok m /\
    get_model toy_trunk "ViT" 1 true true = Ok m' /\
    signature m' = signature m.
Proof.
  do 2 eexists. split; [vm_compute; reflexivity|]. split; [vm_compute; reflexivity|].
  eapply (get_model_freeze_signature toy_trunk "ViT" 1 true); vm_compute; reflexivity.
Defined.

(** X16.  What [get_model] leaves trainable for MobileNetV3 when it
    freezes: the parameters of the whole classifier, that is of its first
    linear layer [classifier[0]] and of the new layer [classifier[3]], and
    nothing else. *)
Theorem get_model_mobilenet_trainable trunk num_classes pretrained :
  exists model,
    get_model trunk "MobileNetV3" num_classes pretrained true = Ok model /\
    submodule ["classifier"; "0"] model = Some (Linear 960 1280) /\
    submodule ["classifier"; "3"] model = Some (Linear 1280 num_classes) /\
    trainable_exactly [["classifier"; "0"]; ["classifier"; "3"]] model.
Proof.
  destruct (get_model_frozen_supported trunk "MobileNetV3" num_classes pretrained)
    as (model & Hm & _ & Ht).
  { cbn. tauto. }
  exists model. split; [exact Hm|].
  revert Hm. unfold_zoo. cbn. intros [= <-].
  split; [reflexivity|]. split; [reflexivity|]. exact Ht.
Qed.

Lemma assoc_map {A B} (g : A -> B) k (l : list (string * A)) :
  assoc k (map (fun np => (fst np, g (snd np))) l) = option_map g (assoc k l).
Proof.
  induction l as [|[k' v] l IH]; cbn [map assoc fst snd]; [reflexivity|].
  destruct (String.eqb k k'); [reflexivity | exact IH].
Qed.

Lemma children_set_requires_grad b m k :
  assoc k (children_of (set_requires_grad b m))
  = option_map (set_requires_grad b) (assoc k (children_of m)).
Proof. destruct m as [c a ps cs]. cbn [set_requires_grad children_of]. apply assoc_map. Qed.

Lemma hasattr_set_requires_grad b m k :
  hasattr (set_requires_grad b m) k = hasattr m k.
Proof.
  destruct m as [c a ps cs]. unfold hasattr.
  cbn [set_requires_grad children_of params_of attrs_of].
  rewrite (assoc_map (set_requires_grad b)).
  rewrite (assoc_map (fun p => mkParam (shape p) b)).
  destruct (assoc k cs), (assoc k ps), (assoc k a); reflexivity.
Qed.

Lemma hasattr_child m k :
  ~ In k (plain_names m) ->
  hasattr m k = true <-> exists c, assoc k (children_of m) = Some c.
Proof.
  unfold plain_names. rewrite in_app_iff. intros H.
  assert (Hp : assoc k (params_of m) = None) by (apply assoc_None_not_In; tauto).
  assert (Ha : assoc k (attrs_of m) = None) by (apply assoc_None_not_In; tauto).
  unfold hasattr. rewrite Hp, Ha.
  destruct (assoc k (children_of m)) as [c|]; split; eauto; try discriminate.
  intros [c Hc]. discriminate.
Qed.

Lemma In_at_attr k f m q p :
  In (q, p) (named_parameters (at_attr k f m)) ->
  In (q, p) (named_parameters m) \/
  exists c q', assoc k (children_of m) = Some c /\ q = k :: q' /\
               In (q', p) (named_parameters (f c)).
Proof.
  unfold at_attr. destruct (assoc k (children_of m)) as [c|] eqn:Hc; [|auto].
  destruct m as [cl a ps cs]. cbn [children_of setattr] in *.
  rewrite !in_named_parameters_Mod.
  intros [H | (n & c' & q' & -> & Hin & Hp)]; [auto|].
  apply In_assoc_set in Hin as [Hin | [-> ->]]; [left; right; eauto 7|].
  right. eauto.
Qed.

(** The head the unfreezing finds in a model, by its lookup order; [None]
    when it finds none. *)
Lemma freeze_backbone_found name m m' :
  heads_are_modules m ->
  freeze_backbone name m = Ok m' ->
  exists path,
    In path head_candidates /\ submodule path m <> None /\
    forall q p, In (q, p) (named_parameters m') ->
                requires_grad p = true -> under path q = true.
Proof.
  intros [Hm Hh] H. unfold freeze_backbone in H.
  assert (Hfrozen : forall q p, In (q, p) (named_parameters (set_requires_grad false m)) ->
                                requires_grad p = true -> False).
  { intros q p Hin Hp. apply named_parameters_set_requires_grad in Hin. congruence. }
  assert (Hcls : hasattr (set_requires_grad false m) "classifier" = true ->
                 forall m2, @Ok exn Module
                              (at_attr "classifier" (set_requires_grad true)
                                       (set_requires_grad false m)) = Ok m2 ->
                 exists path,
                   In path head_candidates /\ submodule path m <> None /\
                   forall q p, In (q, p) (named_parameters m2) ->
                               requires_grad p = true -> under path q = true).
  { intros Hc m'' [= <-]. exists ["classifier"].
    rewrite hasattr_set_requires_grad in Hc.
    apply hasattr_child in Hc as [c Hc]; [|apply Hm; cbn; tauto].
    split; [cbn; tauto|]. split; [cbn [submodule]; now rewrite Hc|].
    intros q p Hin Hp. apply In_at_attr in Hin as [Hin | (c' & q' & _ & -> & _)].
    - destruct (Hfrozen _ _ Hin Hp).
    - reflexivity. }
  destruct (String.prefix "ViT" name).
  - destruct (hasattr (set_requires_grad false m) "heads") eqn:H1; cbn [andb] in H.
    + rewrite children_set_requires_grad in H.
      rewrite hasattr_set_requires_grad in H1.
      apply hasattr_child in H1 as [heads Hheads]; [|apply Hm; cbn; tauto].
      rewrite Hheads in H. cbn [option_map] in H.
      rewrite hasattr_set_requires_grad in H.
      destruct (hasattr heads "head") eqn:H2.
      * injection H as <-. exists ["heads"; "head"].
        apply hasattr_child in H2 as [head Hhead]; [|now apply Hh].
        split; [cbn; tauto|].
        split; [cbn [submodule]; now rewrite Hheads, Hhead|].
        intros q p Hin Hp.
        apply In_at_attr in Hin as [Hin | (c & q' & Hc & -> & Hin)];
          [destruct (Hfrozen _ _ Hin Hp)|].
        apply In_at_attr in Hin as [Hin | (c' & q'' & _ & -> & _)]; [|reflexivity].
        exfalso. apply (Hfrozen ("heads" :: q') p); [|exact Hp].
        eapply in_child_parameters; [|exact Hin]. now apply assoc_In.
      * destruct (hasattr (set_requires_grad false m) "classifier") eqn:H3;
          [now apply Hcls | discriminate].
    + destruct (hasattr (set_requires_grad false m) "classifier") eqn:H3;
        [now apply Hcls | discriminate].
  - destruct (hasattr (set_requires_grad false m) "fc") eqn:H1.
    + injection H as <-. exists ["fc"].
      rewrite hasattr_set_requires_grad in H1.
      apply hasattr_child in H1 as [c Hc]; [|apply Hm; cbn; tauto].
      split; [cbn; tauto|]. split; [cbn [submodule]; now rewrite Hc|].
      intros q p Hin Hp. apply In_at_attr in Hin as [Hin | (c' & q' & _ & -> & _)].
      * destruct (Hfrozen _ _ Hin Hp).
      * reflexivity.
    + destruct (hasattr (set_requires_grad false m) "classifier") eqn:H3;
        [now apply Hcls | discriminate].
Qed.

(** X17.  Whatever model the constructors hand over, when the freezing
    returns, every parameter that is still trainable lies below one of
    [heads.head], [fc] and [classifier], which the model has; names and
    shapes are untouched. *)
Theorem freeze_backbone_only_head name m m' :
  heads_are_modules m ->
  freeze_backbone name m = Ok m' ->
  signature m' = signature m /\
  exists path,
    In path head_candidates /\ submodule path m <> None /\
    forall q p, In (q, p) (named_parameters m') ->
                requires_grad p = true -> under path q = true.
Proof.
  intros Hm H. split.
  - exact (freeze_backbone_signature _ _ _ H).
  - exact (freeze_backbone_found _ _ _ Hm H).
Qed.

Lemma freeze_backbone_only_head_demo :
  exists m',
    freeze_backbone "ResNet50" demo_two_heads = Ok m' /\
    signature m' = signature demo_two_heads /\
    trainable m' = [["fc"; "weight"]; ["fc"; "bias"]].
Proof.
  eexists. split; [vm_compute; reflexivity|].
  split; [|vm_compute; reflexivity].
  eapply (freeze_backbone_only_head "ResNet50" demo_two_heads).
  - split.
    + intros k _ [].
    + intros heads H. vm_compute in H. discriminate H.
  - vm_compute. reflexivity.
Defined.

Lemma hasattr_frozen_submodule m k :
  ~ In k (plain_names m) ->
  hasattr (set_requires_grad false m) k
  = match submodule [k] m with Some _ => true | None => false end.
Proof.
  intros H. rewrite hasattr_set_requires_grad. cbn [submodule].
  destruct (hasattr m k) eqn:E.
  - apply hasattr_child in E as [c ->]; trivial.
  - destruct (assoc k (children_of m)) as [c|] eqn:Hc; [|reflexivity].
    rewrite <- E. apply (proj2 (hasattr_child m k H)). eauto.
Qed.

Lemma hasattr_head_frozen_submodule m :
  heads_are_modules m ->
  hasattr (set_requires_grad false m) "heads"
  && match assoc "heads" (children_of (set_requires_grad false m)) with
     | Some heads => hasattr heads "head"
     | None => false
     end
  = match submodule ["heads"; "head"] m with Some _ => true | None => false end.
Proof.
  intros [Hm Hh]. rewrite hasattr_frozen_submodule by (apply Hm; cbn; tauto).
  rewrite children_set_requires_grad. cbn [submodule].
  destruct (assoc "heads" (children_of m)) as [heads|] eqn:E; [|reflexivity].
  cbn [option_map andb].
  rewrite (hasattr_frozen_submodule heads "head") by now apply Hh.
  reflexivity.
Qed.

(** X18.  The unfreezing raises "Cannot find the classifier head to
    unfreeze." exactly for a model that has no [classifier] and lacks the
    head its name asks for: [heads.head] when the name starts with "ViT"
    (an [fc] does not help then), [fc] otherwise. *)
Theorem freeze_backbone_raises name m :
  heads_are_modules m ->
  freeze_backbone name m = Raise cannot_find_head <->
  (if String.prefix "ViT" name
   then submodule ["heads"; "head"] m = None
   else submodule ["fc"] m = None) /\
  submodule ["classifier"] m = None.
Proof.
  intros Hm. unfold freeze_backbone.
  rewrite hasattr_head_frozen_submodule by trivial.
  destruct Hm as [Hm _].
  rewrite !hasattr_frozen_submodule by (apply Hm; cbn; tauto).
  destruct (String.prefix "ViT" name).
  - destruct (submodule ["heads"; "head"] m), (submodule ["classifier"] m);
      split; try discriminate; try tauto; intros [? ?]; discriminate.
  - destruct (submodule ["fc"] m), (submodule ["classifier"] m);
      split; try discriminate; try tauto; intros [? ?]; discriminate.
Qed.

Lemma freeze_backbone_raises_vit_with_fc :
  freeze_backbone "ViT" demo_fc_only = Raise cannot_find_head.
Proof.
  apply (freeze_backbone_raises "ViT" demo_fc_only).
  - split.
    + intros k _ [].
    + intros heads H. vm_compute in H. discriminate H.
  - vm_compute. auto.
Defined.

End RegistryExtras.

(** ** Loading a model *)

Section LoaderExtras.
Import Registry Loader.

Variable trunk : string -> option string -> string -> Module.
Variable StateDict : Type.
Variable read_json : string -> result exn document.
Variable torch_load : string -> string -> result exn StateDict.
Variable incompatible : Module -> StateDict -> option exn.

Local Abbreviation load_model :=
  (load_model trunk StateDict read_json torch_load incompatible).

Lemma get_model_Ok_supported model_name num_classes pretrained freeze m :
  get_model trunk model_name num_classes pretrained freeze = Ok m ->
  In model_name supported.
Proof.
  intros H. destruct (in_dec String.string_dec model_name supported) as [|Hn]; [trivial|].
  unfold get_model in H. rewrite dispatch_unsupported in H by trivial. discriminate.
Qed.

(** X19.  [load_model] fails in the order of its statements: a descriptor
    without 'model_name' raises that [KeyError]; one without 'img_size'
    raises that [KeyError] even when the architecture is unknown; an
    architecture that is not one of the eight tokens raises the
    unsupported-architecture error.  None of these outcomes depends on the
    checkpoint file. *)
Theorem load_model_descriptor_errors checkpoint_path model_info_path device d :
  read_json model_info_path = Ok (JDict d) ->
  (d !! "model_name" = None ->
   load_model checkpoint_path model_info_path device = Raise (KeyError "model_name")) /\
  (forall v, d !! "model_name" = Some v -> d !! "img_size" = None ->
   load_model checkpoint_path model_info_path device = Raise (KeyError "img_size")) /\
  (forall v size, d !! "model_name" = Some v -> d !! "img_size" = Some size ->
   (forall s, v = JString s -> ~ In s supported) ->
   load_model checkpoint_path model_info_path device = Raise (unsupported (str v))).
Proof.
  intros Hr. unfold Loader.load_model. rewrite Hr. cbn [bind subscript].
  split; [|split].
  - intros ->. reflexivity.
  - intros v -> ->. reflexivity.
  - intros v size -> -> Hv. cbn [bind]. unfold get_model_1.
    destruct v as [s| |]; try reflexivity.
    unfold get_model. rewrite dispatch_unsupported by (now apply Hv). reflexivity.
Qed.

(** X20.  When [load_model] returns, the descriptor named one of the eight
    tokens, the model is the one [get_model] builds for it with a single
    output and a frozen backbone, the checkpoint was accepted, the model is
    in inference mode, and 'img_size' is handed back as it was found. *)
Theorem load_model_returns checkpoint_path model_info_path device r :
  load_model checkpoint_path model_info_path device = Ok r ->
  exists d s state_dict,
    read_json model_info_path = Ok (JDict d) /\
    model_info r = JDict d /\
    d !! "model_name" = Some (JString s) /\ In s supported /\
    d !! "img_size" = Some (img_size r) /\
    get_model trunk s 1 true true = Ok (model r) /\
    torch_load checkpoint_path device = Ok state_dict /\
    incompatible (model r) state_dict = None /\
    training r = false /\
    (exists in_features, submodule (head_path s) (model r) = Some (Linear in_features 1)) /\
    trainable_exactly (unfrozen s) (model r).
Proof.
  unfold Loader.load_model. intros H.
  apply bind_Ok_inv in H as (doc & Hdoc & H).
  apply bind_Ok_inv in H as (name & Hname & H).
  apply bind_Ok_inv in H as (size & Hsize & H).
  apply bind_Ok_inv in H as (m & Hm & H).
  apply bind_Ok_inv in H as (sd & Hsd & H).
  apply bind_Ok_inv in H as (m' & Hload & [= <-]).
  cbn [model training img_size model_info].
  destruct doc as [d|c]; [|discriminate]. cbn [subscript] in *.
  destruct (d !! "model_name") as [v|] eqn:Hv; [|discriminate]. injection Hname as ->.
  destruct (d !! "img_size") as [z|] eqn:Hz; [|discriminate]. injection Hsize as ->.
  destruct name as [s| |]; try discriminate. cbn [get_model_1] in Hm.
  unfold load_state_dict in Hload.
  destruct (incompatible m sd) eqn:Hinc; [discriminate|]. injection Hload as <-.
  pose proof (get_model_Ok_supported _ _ _ _ _ Hm) as Hs.
  destruct (get_model_frozen_supported trunk s 1 true Hs) as (m2 & Hm2 & Hh & Ht).
  rewrite Hm in Hm2. injection Hm2 as <-.
  exists d, s, sd. do 10 (split; [trivial|]). exact Ht.
Qed.

End LoaderExtras.

Lemma load_model_descriptor_errors_demo :
  Loader.load_model Registry.toy_trunk unit
    (fun _ => Ok (Loader.JDict {[ "model_name" := Loader.JString "Bogus" ]}))
    Loader.demo_torch_load Loader.demo_incompatible
    "model.pth" "model_info.json" "cpu"
  = Raise (Loader.KeyError "img_size").
Proof.
  apply (proj1 (proj2
    (load_model_descriptor_errors Registry.toy_trunk unit
       (fun _ => Ok (Loader.JDict {[ "model_name" := Loader.JString "Bogus" ]}))
       Loader.demo_torch_load Loader.demo_incompatible
       "model.pth" "model_info.json" "cpu"
       {[ "model_name" := Loader.JString "Bogus" ]} eq_refl))
    (Loader.JString "Bogus")).
  - apply lookup_singleton_eq.
  - apply lookup_singleton_ne. discriminate.
Defined.

Lemma load_model_returns_demo :
  exists r,
    Loader.load_model Registry.toy_trunk unit Loader.demo_read_json
      Loader.demo_torch_load Loader.demo_incompatible
      "model.pth" "model_info.json" "cpu" = Ok r /\
    Loader.training r = false /\
    Loader.img_size r = Loader.JNumber 224 /\
    Registry.trainable_exactly [["fc"]] (Loader.model r).
Proof.
  eexists. split; [vm_compute; reflexivity|].
  edestruct (load_model_returns Registry.toy_trunk unit Loader.demo_read_json
               Loader.demo_torch_load Loader.demo_incompatible
               "model.pth" "model_info.json" "cpu")
    as (d & s & sd & Hr & _ & Hn & _ & Hz & _ & _ & _ & Ht & _ & Hte);
    [vm_compute; reflexivity|].
  change (@Ok exn _ (Loader.JDict {[ "model_name" := Loader.JString "ResNet50";
                                     "img_size" := Loader.JNumber 224 ]})
          = Ok (Loader.JDict d)) in Hr.
  injection Hr as <-.
  rewrite lookup_insert_eq in Hn. injection Hn as <-.
  split; [exact Ht|]. split; [reflexivity|]. exact Hte.
Defined.

(** ** More on saving an image *)

Section TifExtras.
Import Tif.
Local Open Scope Z_scope.

Variable cvtColor_BGR2GRAY : list (list (list Z)) -> result exn (list (list Z)).
Variable leftover : option TiffFile -> option TiffFile.

Local Abbreviation save_image_as_tif := (save_image_as_tif cvtColor_BGR2GRAY leftover).
Local Abbreviation to_gray := (to_gray cvtColor_BGR2GRAY).

Lemma no_pixels_astype_uint16 gray :
  no_pixels (map (map astype_uint16) gray) = no_pixels gray.
Proof.
  destruct gray as [|row gray]; [reflexivity|]. unfold no_pixels.
  cbn [map hd length]. now rewrite !length_map.
Qed.

(** Whatever a save does, it leaves every other path alone, and what can be
    opened for writing is as before. *)
Lemma save_image_as_tif_touches_one image path fs :
  writable (snd (save_image_as_tif image path fs)) = writable fs /\
  forall p, p <> path ->
            files (snd (save_image_as_tif image path fs)) !! p = files fs !! p.
Proof.
  destruct image as [| | |a]; cbn [Tif.save_image_as_tif snd]; auto.
  destruct (to_gray a) as [gray|e]; cbn [snd]; auto.
  unfold pil_save. destruct (writable fs path); cbn [snd]; auto.
  destruct (no_pixels _); cbn [snd writable files]; split; trivial; intros p Hp.
  - apply lookup_partial_alter_ne. congruence.
  - apply lookup_insert_ne. congruence.
Qed.

(** A save that raises before the target is opened leaves the disk as it
    was. *)
Lemma save_image_as_tif_not_opened image path fs :
  (forall a gray, image = VArray a -> to_gray a = Ok gray -> writable fs path = false) ->
  exists e, save_image_as_tif image path fs = (Raise e, fs).
Proof.
  intros H. destruct image as [| | |a]; cbn [Tif.save_image_as_tif]; eauto.
  destruct (to_gray a) as [gray|e] eqn:Hg; eauto.
  unfold pil_save. rewrite (H a gray eq_refl Hg). eauto.
Qed.

(** X21.  [save_image_as_tif] returns exactly when it is given an array that
    has a pixel, the grayscale conversion (if any) goes through and the path
    can be opened for writing.  Given anything but an array it raises its
    [ValueError] and leaves the disk alone; an array without pixels is
    refused by the encoder, after the target was opened. *)
Theorem save_image_as_tif_returns image path fs :
  ((exists fs', save_image_as_tif image path fs = (Ok tt, fs')) <->
   (exists a gray, image = VArray a /\ to_gray a = Ok gray /\
                   writable fs path = true /\ no_pixels gray = false)) /\
  ((forall a, image <> VArray a) ->
   save_image_as_tif image path fs
   = (Raise (ValueError "Input image is not a valid NumPy array."), fs)) /\
  (forall a gray, image = VArray a -> to_gray a = Ok gray ->
                  writable fs path = true -> no_pixels gray = true ->
   fst (save_image_as_tif image path fs)
   = Raise (SystemError "tile cannot extend outside image")).
Proof.
  split; [|split].
  - split.
    + intros [fs' H]. apply save_image_as_tif_Ok in H as (a & gray & ? & ? & ? & ? & _).
      eauto 6.
    + intros (a & gray & Hi & Hg & Hw & Hp). eexists. apply save_image_as_tif_Ok. eauto 8.
  - intros H. destruct image as [| | |a]; try reflexivity. now destruct (H a).
  - intros a gray -> Hg Hw Hp. cbn [Tif.save_image_as_tif]. rewrite Hg.
    unfold pil_save. now rewrite Hw, no_pixels_astype_uint16, Hp.
Qed.

(** X22.  A save touches one path: every other file is as it was, and
    what can be written has not changed. *)
Theorem save_image_as_tif_frame image path fs fs' :
  save_image_as_tif image path fs = (Ok tt, fs') ->
  writable fs' = writable fs /\
  forall p, p <> path ->
            files fs' !! p = files fs !! p /\ read_tif p fs' = read_tif p fs.
Proof.
  intros H. apply save_image_as_tif_Ok in H as (a & gray & _ & _ & _ & _ & ->).
  split; [reflexivity|]. intros p Hp. unfold read_tif. cbn [files].
  now rewrite lookup_insert_ne by congruence.
Qed.

(** X23.  The last save wins: saving a second image to the path of a
    first one leaves exactly what saving the second image alone would have
    left. *)
Theorem save_image_as_tif_overwrite image1 image2 path fs fs1 fs2 :
  save_image_as_tif image1 path fs = (Ok tt, fs1) ->
  save_image_as_tif image2 path fs1 = (Ok tt, fs2) ->
  save_image_as_tif image2 path fs = (Ok tt, fs2).
Proof.
  intros H1 H2.
  apply save_image_as_tif_Ok in H1 as (a1 & g1 & _ & _ & Hw & _ & ->).
  apply save_image_as_tif_Ok in H2 as (a2 & g2 & -> & Hg2 & _ & Hp2 & ->).
  apply save_image_as_tif_Ok. exists a2, g2. cbn [writable files].
  rewrite insert_insert_eq. auto 6.
Qed.

(** X24.  Saves to different paths do not interfere: in either order they
    leave the same files. *)
Theorem save_image_as_tif_commute image1 path1 image2 path2 fs fs1 fs12 :
  path1 <> path2 ->
  save_image_as_tif image1 path1 fs = (Ok tt, fs1) ->
  save_image_as_tif image2 path2 fs1 = (Ok tt, fs12) ->
  exists fs2,
    save_image_as_tif image2 path2 fs = (Ok tt, fs2) /\
    save_image_as_tif image1 path1 fs2 = (Ok tt, fs12).
Proof.
  intros Hne H1 H2.
  apply save_image_as_tif_Ok in H1 as (a1 & g1 & -> & Hg1 & Hw1 & Hp1 & ->).
  apply save_image_as_tif_Ok in H2 as (a2 & g2 & -> & Hg2 & Hw2 & Hp2 & ->).
  cbn [writable files] in *.
  eexists. split.
  - apply save_image_as_tif_Ok. exists a2, g2. eauto 6.
  - apply save_image_as_tif_Ok. exists a1, g1. cbn [writable files].
    rewrite insert_insert_ne by congruence. auto 6.
Qed.

Lemma save_image_as_tif_round_trip_rows image path fs fs' :
  save_image_as_tif image path fs = (Ok tt, fs') ->
  exists gray, (exists a, image = VArray a /\ to_gray a = Ok gray) /\
               no_pixels gray = false /\
               read_tif path fs' = Some (map (map astype_uint16) gray).
Proof.
  intros H. apply save_image_as_tif_Ok in H as (a & gray & -> & Hg & Hw & Hp & ->).
  exists gray. split; [eauto|]. split; [exact Hp|]. unfold read_tif. cbn [files].
  rewrite lookup_insert_eq. cbn [tif_rows]. now rewrite decode_encode_rows.
Qed.

Lemma astype_uint16_idempotent z : astype_uint16 (astype_uint16 z) = astype_uint16 z.
Proof. apply astype_uint16_id, astype_uint16_range. Qed.

Lemma astype_uint16_rows_idempotent (rows : list (list Z)) :
  map (map astype_uint16) (map (map astype_uint16) rows) = map (map astype_uint16) rows.
Proof.
  rewrite map_map. apply map_ext. intros row. rewrite map_map.
  apply map_ext. intros z. apply astype_uint16_idempotent.
Qed.

(** X25.  Saving what was read back changes nothing: the file written for
    an image, read and saved again to the same path, is the same file. *)
Theorem save_image_as_tif_resave image path fs fs' rows :
  save_image_as_tif image path fs = (Ok tt, fs') ->
  read_tif path fs' = Some rows ->
  save_image_as_tif (VArray (Array2 rows)) path fs' = (Ok tt, fs').
Proof.
  intros H Hr.
  destruct (save_image_as_tif_round_trip_rows image path fs fs' H)
    as (gray & _ & Hp & Hread).
  apply save_image_as_tif_Ok in H as (a & gray' & -> & Hg & Hw & Hp' & ->).
  rewrite Hread in Hr. injection Hr as <-.
  unfold read_tif in Hread. cbn [files] in Hread. rewrite lookup_insert_eq in Hread.
  cbn [tif_rows] in Hread. rewrite decode_encode_rows in Hread. injection Hread as Hread.
  apply save_image_as_tif_Ok.
  exists (Array2 (map (map astype_uint16) gray)), (map (map astype_uint16) gray).
  cbn [Tif.to_gray writable files]. rewrite insert_insert_eq.
  rewrite no_pixels_astype_uint16.
  repeat split; trivial. rewrite Hread. now rewrite astype_uint16_rows_idempotent.
Qed.

End TifExtras.

Lemma save_image_as_tif_returns_none :
  Tif.save_image_as_tif Tif.no_color Tif.nothing_left Tif.VNone "image.tif"
                        (Tif.mkFS (fun _ => true) ∅)
  = (Raise (ValueError "Input image is not a valid NumPy array."),
     Tif.mkFS (fun _ => true) ∅) /\
  fst (Tif.save_image_as_tif Tif.no_color Tif.nothing_left
                             (Tif.VArray (Tif.Array2 [])) "image.tif"
                             (Tif.mkFS (fun _ => true) ∅))
  = Raise (SystemError "tile cannot extend outside image").
Proof.
  split.
  - apply (proj1 (proj2 (save_image_as_tif_returns
                           Tif.no_color Tif.nothing_left Tif.VNone "image.tif"
                           (Tif.mkFS (fun _ => true) ∅)))).
    discriminate.
  - apply (proj2 (proj2 (save_image_as_tif_returns
                           Tif.no_color Tif.nothing_left
                           (Tif.VArray (Tif.Array2 [])) "image.tif"
                           (Tif.mkFS (fun _ => true) ∅)))
                 (Tif.Array2 []) []); reflexivity.
Defined.

Lemma save_image_as_tif_frame_other :
  let fs := Tif.mkFS (fun _ => true)
                     {[ "old.tif" := Tif.mkTiff "I;16" [[(7, 0)]]%Z ]} in
  exists fs',
    Tif.save_image_as_tif Tif.no_color Tif.nothing_left
                          (Tif.VArray (Tif.Array2 [[1; 2]]%Z)) "new.tif" fs
    = (Ok tt, fs') /\
    Tif.read_tif "old.tif" fs' = Tif.read_tif "old.tif" fs.
Proof.
  cbv zeta. eexists. split; [reflexivity|].
  apply (proj2 (save_image_as_tif_frame
                  Tif.no_color Tif.nothing_left
                  (Tif.VArray (Tif.Array2 [[1; 2]]%Z)) "new.tif"
                  (Tif.mkFS (fun _ => true)
                            {[ "old.tif" := Tif.mkTiff "I;16" [[(7, 0)]]%Z ]})
                  _ eq_refl) "old.tif").
  discriminate.
Defined.

Lemma save_image_as_tif_overwrite_example :
  let fs := Tif.mkFS (fun _ => true) ∅ in
  exists fs1 fs2,
    Tif.save_image_as_tif Tif.no_color Tif.nothing_left
                          (Tif.VArray (Tif.Array2 [[1; 2]]%Z)) "image.tif" fs
    = (Ok tt, fs1) /\
    Tif.save_image_as_tif Tif.no_color Tif.nothing_left
                          (Tif.VArray (Tif.Array2 [[3]]%Z)) "image.tif" fs1
    = (Ok tt, fs2) /\
    Tif.save_image_as_tif Tif.no_color Tif.nothing_left
                          (Tif.VArray (Tif.Array2 [[3]]%Z)) "image.tif" fs
    = (Ok tt, fs2).
Proof.
  cbv zeta. do 2 eexists. split; [reflexivity|]. split; [reflexivity|].
  exact (save_image_as_tif_overwrite
           Tif.no_color Tif.nothing_left (Tif.VArray (Tif.Array2 [[1; 2]]%Z))
           (Tif.VArray (Tif.Array2 [[3]]%Z)) "image.tif"
           (Tif.mkFS (fun _ => true) ∅) _ _ eq_refl eq_refl).
Defined.

Lemma save_image_as_tif_commute_example :
  let fs := Tif.mkFS (fun _ => true) ∅ in
  exists fs1 fs12 fs2,
    Tif.save_image_as_tif Tif.no_color Tif.nothing_left
                          (Tif.VArray (Tif.Array2 [[1; 2]]%Z)) "a.tif" fs
    = (Ok tt, fs1) /\
    Tif.save_image_as_tif Tif.no_color Tif.nothing_left
                          (Tif.VArray (Tif.Array2 [[3]]%Z)) "b.tif" fs1
    = (Ok tt, fs12) /\
    Tif.save_image_as_tif Tif.no_color Tif.nothing_left
                          (Tif.VArray (Tif.Array2 [[3]]%Z)) "b.tif" fs
    = (Ok tt, fs2) /\
    Tif.save_image_as_tif Tif.no_color Tif.nothing_left
                          (Tif.VArray (Tif.Array2 [[1; 2]]%Z)) "a.tif" fs2
    = (Ok tt, fs12).
Proof.
  cbv zeta. do 2 eexists.
  destruct (save_image_as_tif_commute
              Tif.no_color Tif.nothing_left
              (Tif.VArray (Tif.Array2 [[1; 2]]%Z)) "a.tif"
              (Tif.VArray (Tif.Array2 [[3]]%Z)) "b.tif"
              (Tif.mkFS (fun _ => true) ∅) _ _ ltac:(discriminate) eq_refl eq_refl)
    as (fs2 & H2 & H12).
  exists fs2. split; [reflexivity|]. split; [reflexivity|]. split; assumption.
Defined.

Lemma save_image_as_tif_resave_example :
  let fs := Tif.mkFS (fun _ => true) ∅ in
  exists fs',
    Tif.save_image_as_tif Tif.no_color Tif.nothing_left
                          (Tif.VArray (Tif.Array2 [[65537; -1]]%Z)) "image.tif" fs
    = (Ok tt, fs') /\
    Tif.read_tif "image.tif" fs' = Some [[1; 65535]]%Z /\
    Tif.save_image_as_tif Tif.no_color Tif.nothing_left
                          (Tif.VArray (Tif.Array2 [[1; 65535]]%Z)) "image.tif" fs'
    = (Ok tt, fs').
Proof.
  cbv zeta. eexists. split; [reflexivity|]. split; [reflexivity|].
  exact (save_image_as_tif_resave
           Tif.no_color Tif.nothing_left
           (Tif.VArray (Tif.Array2 [[65537; -1]]%Z)) "image.tif"
           (Tif.mkFS (fun _ => true) ∅) _ [[1; 65535]]%Z eq_refl eq_refl).
Defined.

(** ** More on [predict_endpoint]: what a request leaves behind *)

Lemma string_length_app (a s : string) :
  String.length (a +:+ s) = String.length a + String.length s.
Proof.
  induction a as [|c a IH]; [reflexivity|].
  change (String c a +:+ s) with (String c (a +:+ s)).
  cbn [String.length]. now rewrite IH.
Qed.

Lemma string_app_inj_r (s a b : string) : a +:+ s = b +:+ s -> a = b.
Proof.
  revert b. induction a as [|c a IH]; intros [|c' b] H.
  - reflexivity.
  - apply (f_equal String.length) in H. rewrite !string_length_app in H.
    cbn [String.length] in H. lia.
  - apply (f_equal String.length) in H. rewrite !string_length_app in H.
    cbn [String.length] in H. lia.
  - change (String c (a +:+ s) = String c' (b +:+ s)) in H.
    injection H as -> H. f_equal. now apply IH.
Qed.

(** Requests handled in different seconds write to different paths. *)
Lemma save_path_inj (t t' : Z) : Api.save_path t = Api.save_path t' -> t = t'.
Proof.
  unfold Api.save_path. intros H.
  do 3 apply String.app_inj in H.
  apply string_app_inj_r in H. now apply pretty_Z_inj in H.
Qed.

Section ApiExtras.
Import Tif Api ApiSpec.

Variable load_sample : string -> result exn (gmap string value).
Variable predict : ndarray -> result exn value.
Variable to_int : value -> result exn Z.
Variable cvtColor_BGR2GRAY : list (list (list Z)) -> result exn (list (list Z)).
Variable leftover : option TiffFile -> option TiffFile.

Local Abbreviation try_body :=
  (try_body load_sample predict to_int cvtColor_BGR2GRAY leftover).
Local Abbreviation predict_endpoint :=
  (predict_endpoint load_sample predict to_int cvtColor_BGR2GRAY leftover).
Local Abbreviation image_saved := (image_saved load_sample cvtColor_BGR2GRAY leftover).
Local Abbreviation file_opened := (file_opened load_sample cvtColor_BGR2GRAY).
Local Abbreviation save_image_as_tif := (save_image_as_tif cvtColor_BGR2GRAY leftover).

(** The run of a request whose image was saved. *)
Lemma predict_endpoint_saved request w image fs' :
  image_saved request w image fs' ->
  predict_endpoint request w
  = match (let* v := predict image in to_int v) with
    | Ok z => (Ok (mkResponse z),
               mkWorld (clock w) fs' (log w ++ [info_line (clock w)]))
    | Raise e => (Raise (mkHTTPException 400 (exn_msg e)),
                  mkWorld (clock w) fs'
                          ((log w ++ [info_line (clock w)]) ++ [error_line (exn_msg e)]))
    end.
Proof.
  intros (sample & Hl & Hi & Hs).
  unfold Api.predict_endpoint, Api.try_body, bindM, lift, raise, ret, now, logger, on_disk.
  rewrite Hl, Hi. cbn [clock disk log]. rewrite Hs. cbn [clock disk log].
  destruct (predict image) as [v|e]; cbn [bind snd clock disk log]; [|reflexivity].
  destruct (to_int v) as [z|e]; reflexivity.
Qed.

(** The run of a request whose image was not saved: it is answered with 400
    and one ERROR line; the disk can only have changed at the path of this
    second, and only if the file was opened. *)
Lemma predict_endpoint_not_saved request w :
  (forall image fs', ~ image_saved request w image fs') ->
  exists e fs',
    predict_endpoint request w
    = (Raise (mkHTTPException 400 (exn_msg e)),
       mkWorld (clock w) fs' (log w ++ [error_line (exn_msg e)])) /\
    writable fs' = writable (disk w) /\
    (forall p, p <> save_path (clock w) -> files fs' !! p = files (disk w) !! p) /\
    (~ file_opened request w -> fs' = disk w).
Proof.
  intros Hn.
  unfold Api.predict_endpoint, Api.try_body, bindM, lift, raise, ret, now, logger, on_disk.
  destruct (load_sample (cell request)) as [sample|e] eqn:Hl.
  2:{ exists e, (disk w). cbn [snd clock disk log]. destruct w; auto. }
  destruct (sample !! "image") as [[|z|s|image]|] eqn:Hi;
    try (eexists _, (disk w); cbn [snd clock disk log]; destruct w;
         repeat split; reflexivity).
  cbn [clock disk log].
  pose proof (save_image_as_tif_touches_one cvtColor_BGR2GRAY leftover (VArray image)
                (save_path (clock w)) (disk w)) as [Hw Hf].
  destruct (save_image_as_tif (VArray image) (save_path (clock w)) (disk w))
    as [[[]|e] fs'] eqn:Hs.
  { destruct (Hn image fs'). exists sample. auto. }
  cbn [snd] in Hw, Hf. exists e, fs'. cbn [snd clock disk log].
  repeat split; trivial.
  intros Ho.
  destruct (save_image_as_tif_not_opened cvtColor_BGR2GRAY leftover (VArray image)
              (save_path (clock w)) (disk w)) as [e' He'].
  - intros a gray [= <-] Hg.
    destruct (writable (disk w) (save_path (clock w))) eqn:E; [|reflexivity].
    destruct Ho. exists sample, image, gray. auto.
  - rewrite He' in Hs. now injection Hs.
Qed.

Lemma image_saved_dec request w :
  (exists image fs', image_saved request w image fs') \/
  (forall image fs', ~ image_saved request w image fs').
Proof.
  destruct (load_sample (cell request)) as [sample|e] eqn:Hl.
  2:{ right. intros i f (s & H & _). congruence. }
  destruct (sample !! "image") as [v|] eqn:Hi.
  2:{ right. intros i f (s & H & H' & _). congruence. }
  destruct v as [|z|s|image];
    try (right; intros i f (s' & H & H' & _); congruence).
  destruct (save_image_as_tif (VArray image) (save_path (clock w)) (disk w))
    as [[[]|e] fs'] eqn:Hs.
  - left. exists image, fs', sample. auto.
  - right. intros i f (s' & H & H' & H''). congruence.
Qed.

Lemma image_saved_read request w image fs' :
  image_saved request w image fs' ->
  exists gray,
    to_gray cvtColor_BGR2GRAY image = Ok gray /\
    writable fs' = writable (disk w) /\
    files fs' = <[save_path (clock w) :=
                    mkTiff "I;16" (map (map encode_I16) (map (map astype_uint16) gray))]>
                  (files (disk w)) /\
    read_tif (save_path (clock w)) fs' = Some (map (map astype_uint16) gray).
Proof.
  intros (sample & _ & _ & Hs).
  apply save_image_as_tif_Ok in Hs as (a & gray & Ha & Hg & Hw & _ & ->).
  injection Ha as <-. exists gray. repeat split; trivial.
  unfold read_tif. cbn [files]. rewrite lookup_insert_eq. cbn [tif_rows].
  now rewrite decode_encode_rows.
Qed.

(** A saved image had its file opened. *)
Lemma image_saved_opened request w image fs' :
  image_saved request w image fs' -> file_opened request w.
Proof.
  intros (sample & Hl & Hi & Hs).
  apply save_image_as_tif_Ok in Hs as (a & gray & Ha & Hg & Hw & _ & _).
  injection Ha as <-. exists sample, image, gray. auto.
Qed.

(** X26.  A saved image is never taken back.  Once the image of a request
    has been written, the file is on disk when the handler is done, holding
    the image's grayscale samples modulo 2^16 -- whether the prediction
    and the response went through (200) or one of them raised (400). *)
Theorem predict_endpoint_keeps_image request w image fs' :
  image_saved request w image fs' ->
  disk (snd (predict_endpoint request w)) = fs' /\
  (exists gray,
     to_gray cvtColor_BGR2GRAY image = Ok gray /\
     read_tif (save_path (clock w)) (disk (snd (predict_endpoint request w)))
     = Some (map (map astype_uint16) gray)) /\
  (forall e, predict image = Raise e ->
             fst (predict_endpoint request w) = Raise (mkHTTPException 400 (exn_msg e))).
Proof.
  intros H. rewrite (predict_endpoint_saved _ _ _ _ H).
  destruct (image_saved_read _ _ _ _ H) as (gray & Hg & _ & _ & Hr).
  assert (Hd : forall r : result exn Z,
             disk (snd match r with
                       | Ok z => (Ok (mkResponse z),
                                  mkWorld (clock w) fs' (log w ++ [info_line (clock w)]))
                       | Raise e => (Raise (mkHTTPException 400 (exn_msg e)),
                                     mkWorld (clock w) fs'
                                             ((log w ++ [info_line (clock w)])
                                                ++ [error_line (exn_msg e)]))
                       end) = fs') by (intros [z|e]; reflexivity).
  split; [apply Hd|]. split.
  - exists gray. split; [exact Hg|]. now rewrite Hd.
  - intros e He. now rewrite He.
Qed.

(** X27.  A request that fails before the file of its image is opened --
    the payload does not decode, there is no image, it is not an array, the
    grayscale conversion raises, or the path cannot be opened for writing --
    leaves the disk as it was: it is answered with 400 and the log gains the
    one ERROR line carrying the detail. *)
Theorem predict_endpoint_early_failure request w :
  ~ file_opened request w ->
  exists msg,
    fst (predict_endpoint request w) = Raise (mkHTTPException 400 msg) /\
    disk (snd (predict_endpoint request w)) = disk w /\
    log (snd (predict_endpoint request w)) = log w ++ [error_line msg].
Proof.
  intros Ho.
  destruct (predict_endpoint_not_saved request w) as (e & fs' & -> & _ & _ & Hd).
  { intros image fs' H. apply Ho. eapply image_saved_opened, H. }
  exists (exn_msg e). cbn [fst snd disk log]. rewrite (Hd Ho). auto.
Qed.

(** X28.  What a request cannot touch: the clock and what is writable stay
    as they are, every file other than the one at this second's path is
    left alone, and the log only grows, by one line or by two. *)
Theorem predict_endpoint_frame request w :
  clock (snd (predict_endpoint request w)) = clock w /\
  writable (disk (snd (predict_endpoint request w))) = writable (disk w) /\
  (forall p, p <> save_path (clock w) ->
             files (disk (snd (predict_endpoint request w))) !! p = files (disk w) !! p) /\
  (exists lines,
     log (snd (predict_endpoint request w)) = log w ++ lines /\
     1 <= length lines <= 2).
Proof.
  destruct (image_saved_dec request w) as [(image & fs' & H)|H].
  - rewrite (predict_endpoint_saved _ _ _ _ H).
    destruct (image_saved_read _ _ _ _ H) as (gray & _ & Hw & Hf & _).
    destruct (let* v := predict image in to_int v) as [z|e]; cbn [snd clock disk log].
    + repeat split; trivial.
      * intros p Hp. rewrite Hf. now rewrite lookup_insert_ne by congruence.
      * exists [info_line (clock w)]. cbn [length]. split; [reflexivity|lia].
    + repeat split; trivial.
      * intros p Hp. rewrite Hf. now rewrite lookup_insert_ne by congruence.
      * exists [info_line (clock w); error_line (exn_msg e)].
        rewrite <- app_assoc. cbn [length app]. split; [reflexivity|lia].
  - destruct (predict_endpoint_not_saved _ _ H) as (e & fs' & -> & Hw & Hf & _).
    cbn [snd clock disk log]. repeat split; trivial.
    exists [error_line (exn_msg e)]. cbn [length]. split; [reflexivity|lia].
Qed.

(** X29.  The log tells the answer.  A 200 leaves the INFO line of the saved
    image as the last line and no ERROR line; every exception the handler
    raises has status 400, and its detail is the message of the ERROR line
    that is then the last line of the log. *)
Theorem predict_endpoint_logged request w :
  match fst (predict_endpoint request w) with
  | Ok _ => log (snd (predict_endpoint request w)) = log w ++ [info_line (clock w)]
  | Raise h =>
      status_code h = 400%Z /\
      exists before,
        log (snd (predict_endpoint request w)) = before ++ [error_line (detail h)] /\
        (before = log w \/ before = log w ++ [info_line (clock w)])
  end.
Proof.
  destruct (image_saved_dec request w) as [(image & fs' & H)|H].
  - rewrite (predict_endpoint_saved _ _ _ _ H).
    destruct (let* v := predict image in to_int v) as [z|e];
      cbn [fst snd log status_code detail]; [reflexivity|].
    split; [reflexivity|]. eauto.
  - destruct (predict_endpoint_not_saved _ _ H) as (e & fs' & -> & _).
    cbn [fst snd log status_code detail]. split; [reflexivity|]. eauto.
Qed.

(** X30.  Two requests and the clock.  When a second request is handled
    after a first one and both images are saved: in the same second the
    second image takes the place of the first -- the disk is what the
    second request alone would have left; in a different second the file
    of the first request is still there, unchanged. *)
Theorem predict_endpoint_two_requests request1 request2 w t image1 fs1 image2 fs2 :
  image_saved request1 w image1 fs1 ->
  image_saved request2 (later t (snd (predict_endpoint request1 w))) image2 fs2 ->
  disk (snd (predict_endpoint request2 (later t (snd (predict_endpoint request1 w)))))
  = fs2 /\
  (t = clock w ->
   image_saved request2 w image2 fs2 /\
   disk (snd (predict_endpoint request2 w)) = fs2) /\
  (t <> clock w ->
   files fs2 !! save_path (clock w) = files fs1 !! save_path (clock w) /\
   read_tif (save_path (clock w)) fs2 = read_tif (save_path (clock w)) fs1).
Proof.
  intros H1 H2.
  assert (Hdisk : forall r w' i f, image_saved r w' i f ->
                                   disk (snd (predict_endpoint r w')) = f).
  { intros r w' i f H. rewrite (predict_endpoint_saved _ _ _ _ H).
    now destruct (let* v := predict i in to_int v). }
  split; [now apply (Hdisk _ _ image2)|].
  assert (Hd1 := Hdisk _ _ _ _ H1).
  destruct (image_saved_read _ _ _ _ H1) as (gray1 & Hg1 & Hw1 & Hf1 & _).
  destruct H2 as (sample2 & Hl2 & Hi2 & Hs2).
  unfold later in Hs2. cbn [clock disk] in Hs2. rewrite Hd1 in Hs2.
  split.
  - intros ->.
    assert (H2' : image_saved request2 w image2 fs2).
    { exists sample2. split; [exact Hl2|]. split; [exact Hi2|].
      destruct H1 as (sample1 & _ & _ & Hs1).
      apply save_image_as_tif_Ok in Hs1 as (a1 & g1 & _ & _ & Hw & _ & ->).
      apply save_image_as_tif_Ok in Hs2 as (a2 & g2 & Ha2 & Hg2 & _ & Hp2 & ->).
      apply save_image_as_tif_Ok. exists a2, g2. cbn [writable files].
      rewrite insert_insert_eq. auto 6. }
    split; [exact H2'|]. now apply (Hdisk _ _ image2).
  - intros Ht.
    apply save_image_as_tif_Ok in Hs2 as (a & gray2 & _ & _ & _ & _ & ->).
    assert (Hp : save_path (clock w) <> save_path t).
    { intros Hp. apply save_path_inj in Hp. congruence. }
    unfold read_tif. cbn [files]. rewrite lookup_insert_ne by congruence. auto.
Qed.

End ApiExtras.

Lemma predict_endpoint_keeps_image_demo :
  Tif.read_tif (Api.save_path 1700000000)
               (Api.disk (snd (Api.predict_endpoint
                                 Api.demo_load_sample ApiSpec.demo_failing_predict
                                 Api.demo_to_int Tif.no_color Tif.nothing_left
                                 (Api.mkRequest "iVBORw0KGgo=") Api.demo_world)))
  = Some [[0; 1]; [2; 3]]%Z /\
  fst (Api.predict_endpoint Api.demo_load_sample ApiSpec.demo_failing_predict
                            Api.demo_to_int Tif.no_color Tif.nothing_left
                            (Api.mkRequest "iVBORw0KGgo=") Api.demo_world)
  = Raise (Api.mkHTTPException 400 "model is not loaded").
Proof.
  assert (H : ApiSpec.image_saved
                Api.demo_load_sample Tif.no_color Tif.nothing_left
                (Api.mkRequest "iVBORw0KGgo=") Api.demo_world
                (Tif.Array2 [[0; 1]; [2; 3]]%Z)
                (Tif.mkFS (fun _ => true)
                          (<[Api.save_path 1700000000 :=
                               Tif.mkTiff "I;16" [[(0, 0); (1, 0)]; [(2, 0); (3, 0)]]%Z]> ∅))).
  { exists {[ "image" := Tif.VArray (Tif.Array2 [[0; 1]; [2; 3]]%Z) ]}.
    split; [reflexivity|]. split; [apply lookup_singleton_eq|]. reflexivity. }
  destruct (predict_endpoint_keeps_image
              Api.demo_load_sample ApiSpec.demo_failing_predict Api.demo_to_int
              Tif.no_color Tif.nothing_left _ _ _ _ H) as (_ & (gray & Hg & Hr) & He).
  split.
  - injection Hg as <-. exact Hr.
  - exact (He _ eq_refl).
Defined.

Lemma predict_endpoint_early_failure_demo :
  exists msg,
    fst (Api.predict_endpoint Api.demo_load_sample Api.demo_predict Api.demo_to_int
                              Tif.no_color Tif.nothing_left
                              (Api.mkRequest "not base64") Api.demo_world)
    = Raise (Api.mkHTTPException 400 msg) /\
    Api.disk (snd (Api.predict_endpoint
                     Api.demo_load_sample Api.demo_predict Api.demo_to_int
                     Tif.no_color Tif.nothing_left
                     (Api.mkRequest "not base64") Api.demo_world))
    = Api.disk Api.demo_world /\
    Api.log (snd (Api.predict_endpoint
                    Api.demo_load_sample Api.demo_predict Api.demo_to_int
                    Tif.no_color Tif.nothing_left
                    (Api.mkRequest "not base64") Api.demo_world))
    = Api.log Api.demo_world ++ [ApiSpec.error_line msg].
Proof.
  apply (predict_endpoint_early_failure
           Api.demo_load_sample Api.demo_predict Api.demo_to_int Tif.no_color
           Tif.nothing_left (Api.mkRequest "not base64") Api.demo_world).
  intros (sample & image & gray & Hl & _). discriminate.
Defined.

Lemma predict_endpoint_two_requests_demo :
  let run := Api.predict_endpoint Api.demo_load_sample Api.demo_predict Api.demo_to_int
                                  Tif.no_color Tif.nothing_left
                                  (Api.mkRequest "iVBORw0KGgo=") in
  Tif.read_tif (Api.save_path 1700000000)
               (Api.disk (snd (run (ApiSpec.later 1700000001 (snd (run Api.demo_world))))))
  = Some [[0; 1]; [2; 3]]%Z.
Proof.
  cbv zeta.
  pose (f1 := Tif.mkTiff "I;16" [[(0, 0); (1, 0)]; [(2, 0); (3, 0)]]%Z).
  pose (fs1 := Tif.mkFS (fun _ => true) (<[Api.save_path 1700000000 := f1]> ∅)).
  pose (fs2 := Tif.mkFS (fun _ => true)
                        (<[Api.save_path 1700000001 := f1]>
                           (<[Api.save_path 1700000000 := f1]> ∅))).
  assert (H1 : ApiSpec.image_saved
                 Api.demo_load_sample Tif.no_color Tif.nothing_left
                 (Api.mkRequest "iVBORw0KGgo=") Api.demo_world
                 (Tif.Array2 [[0; 1]; [2; 3]]%Z) fs1).
  { exists {[ "image" := Tif.VArray (Tif.Array2 [[0; 1]; [2; 3]]%Z) ]}.
    split; [reflexivity|]. split; [apply lookup_singleton_eq|]. reflexivity. }
  assert (H2 : ApiSpec.image_saved
                 Api.demo_load_sample Tif.no_color Tif.nothing_left
                 (Api.mkRequest "iVBORw0KGgo=")
                 (ApiSpec.later 1700000001
                    (snd (Api.predict_endpoint
                            Api.demo_load_sample Api.demo_predict Api.demo_to_int
                            Tif.no_color Tif.nothing_left
                            (Api.mkRequest "iVBORw0KGgo=") Api.demo_world)))
                 (Tif.Array2 [[0; 1]; [2; 3]]%Z) fs2).
  { exists {[ "image" := Tif.VArray (Tif.Array2 [[0; 1]; [2; 3]]%Z) ]}.
    split; [reflexivity|]. split; [apply lookup_singleton_eq|]. reflexivity. }
  destruct (predict_endpoint_two_requests
              Api.demo_load_sample Api.demo_predict Api.demo_to_int Tif.no_color
              Tif.nothing_left _ _ _ _ _ _ _ _ H1 H2) as (Hd & _ & Hne).
  rewrite Hd.
  transitivity (Tif.read_tif (Api.save_path 1700000000) fs1); [|reflexivity].
  apply Hne. vm_compute. discriminate.
Defined.
